(** * vitasync: a shallow embedding of [vitasync.py]

    The development follows the script top-down: the Python exceptions and
    the state-and-exception monad the functions run in, the local file
    trees behind [os] and [shutil], the progress bars of [tqdm], the FTP
    session behind [ftplib], then the functions of the script themselves
    ([list_directory_with_details], [is_directory], [count_files],
    [download_directory], [upload_directory], [merge_directories], [main])
    and finally the properties.

    Modelling conventions.
    - Timestamps are whole seconds, in [Z]; the float that
      [os.path.getmtime] returns is a rational number, in [Q], and is
      read through its floor.
    - A local directory tree is an inductive [node]; the tree found at a
      path argument is an [option node] ([None]: nothing is there).  The
      staging directories and the merged folder are distinct roots.
    - The order of the entries of a directory is the order [os.listdir]
      and [os.walk] report them in. *)

From Stdlib Require Import ZArith List String Ascii Bool Lia Arith.
From Stdlib Require QArith Qround.
Import ListNotations.
Set Warnings "-register-all".
Local Open Scope string_scope.
Local Open Scope list_scope.
Local Open Scope Z_scope.

(** ** Exceptions and the monad *)

Inductive exn : Type :=
| TypeError
| AttributeError
| FileExistsError
| FileNotFoundError
| NotADirectoryError
| IsADirectoryError
| RecursionError
| ConnectionRefusedError
| error_perm.

Inductive res (A : Type) : Type :=
| Ok (a : A)
| Raise (e : exn).
Arguments Ok {A} a.
Arguments Raise {A} e.

(** A computation over a mutable state [S]: the state it leaves behind is
    kept when an exception is raised, as the effects of a Python call are. *)
Definition M (S A : Type) : Type := S -> S * res A.

Definition ret {S A} (a : A) : M S A := fun s => (s, Ok a).
Definition raise {S A} (e : exn) : M S A := fun s => (s, Raise e).
Definition bind {S A B} (c : M S A) (k : A -> M S B) : M S B :=
  fun s => match c s with
           | (s', Ok a) => k a s'
           | (s', Raise e) => (s', Raise e)
           end.
Definition get {S} : M S S := fun s => (s, Ok s).
Definition gets {S A} (f : S -> A) : M S A := fun s => (s, Ok (f s)).
Definition modify {S} (f : S -> S) : M S unit := fun s => (f s, Ok tt).
Definition lift_res {S A} (r : res A) : M S A := fun s => (s, r).

(** [try: c except error_perm: h] *)
Definition try_except_perm {S A} (c : M S A) (h : M S A) : M S A :=
  fun s => match c s with
           | (s', Raise error_perm) => h s'
           | r => r
           end.

Declare Scope py_scope.
Delimit Scope py_scope with py.
Notation "x <- c ;; k" := (bind c (fun x => k))
  (at level 100, c at next level, right associativity) : py_scope.
Notation "c ;;; k" := (bind c (fun _ => k))
  (at level 100, right associativity) : py_scope.
Local Open Scope py_scope.

(** [for x in l: body x] *)
Definition for_each {S B} (l : list B) (body : B -> M S unit) : M S unit :=
  (fix loop (l : list B) : M S unit :=
     match l with
     | [] => ret tt
     | x :: l' => body x ;;; loop l'
     end) l.

(** [for x in l: acc = body acc x] *)
Definition for_fold {S A B} (l : list B) (acc : A) (body : A -> B -> M S A) : M S A :=
  (fix loop (l : list B) (acc : A) : M S A :=
     match l with
     | [] => ret acc
     | x :: l' => acc' <- body acc x ;; loop l' acc'
     end) l acc.

Definition res_bind {A B} (r : res A) (k : A -> res B) : res B :=
  match r with Ok a => k a | Raise e => Raise e end.

(** ** Strings ([str.split], [str.join], decimal digits) *)

(** Characters [str.split()] treats as white space, among code points
    below 256. *)
Definition is_space (c : ascii) : bool :=
  let n := nat_of_ascii c in
  ((9 <=? n) && (n <=? 13) || (28 <=? n) && (n <=? 32)
   || (n =? 133) || (n =? 160))%nat.

(** [s.split()]: the maximal runs of characters that are not white space. *)
Fixpoint split_ws_aux (s : string) (word : string) : list string :=
  match s with
  | EmptyString => if String.eqb word "" then [] else [word]
  | String c s' =>
      if is_space c then
        (if String.eqb word "" then [] else [word]) ++ split_ws_aux s' ""
      else split_ws_aux s' (word ++ String c "")%string
  end.
Definition split_ws (s : string) : list string := split_ws_aux s "".

(** [sep.join(l)] *)
Fixpoint join (sep : string) (l : list string) : string :=
  match l with
  | [] => ""
  | [x] => x
  | x :: l' => (x ++ sep ++ join sep l')%string
  end.

(** [s.split(sep)] on one separator character, empty pieces kept. *)
Fixpoint split_on_aux (sep : ascii) (s : string) (piece : string) : list string :=
  match s with
  | EmptyString => [piece]
  | String c s' =>
      if Ascii.eqb c sep then piece :: split_on_aux sep s' ""
      else split_on_aux sep s' (piece ++ String c "")%string
  end.
Definition split_on (sep : ascii) (s : string) : list string :=
  split_on_aux sep s "".

Definition is_digit (c : ascii) : bool :=
  let n := nat_of_ascii c in ((48 <=? n) && (n <=? 57))%nat.

Definition digit_value (c : ascii) : Z := Z.of_nat (nat_of_ascii c) - 48.

(** The value of a non-empty string of decimal digits. *)
Fixpoint digits_value_aux (s : string) (acc : Z) : option Z :=
  match s with
  | EmptyString => Some acc
  | String c s' =>
      if is_digit c then digits_value_aux s' (10 * acc + digit_value c) else None
  end.
Definition digits_value (s : string) : option Z :=
  match s with
  | EmptyString => None
  | _ => digits_value_aux s 0
  end.

Definition digit_char (d : Z) : ascii := ascii_of_nat (Z.to_nat (48 + d mod 10)).

(** [n] written with exactly [width] decimal digits, zero padded. *)
Fixpoint zero_padded (width : nat) (n : Z) : string :=
  match width with
  | O => ""
  | S w => (zero_padded w (n / 10) ++ String (digit_char n) "")%string
  end.

(** [str(n)] for a natural number. *)
Fixpoint decimal_aux (fuel : nat) (n : Z) : string :=
  match fuel with
  | O => ""
  | S k =>
      if n <? 10 then String (digit_char n) ""
      else (decimal_aux k (n / 10) ++ String (digit_char n) "")%string
  end.
Definition decimal (n : Z) : string := decimal_aux (S (Z.to_nat (Z.log2 n))) n.

Definition lower_char (c : ascii) : ascii :=
  let n := nat_of_ascii c in
  if ((65 <=? n) && (n <=? 90))%nat then ascii_of_nat (n + 32) else c.
Fixpoint lower (s : string) : string :=
  match s with
  | EmptyString => EmptyString
  | String c s' => String (lower_char c) (lower s')
  end.

Definition starts_with_space (s : string) : bool :=
  match s with String c _ => is_space c | EmptyString => false end.
Fixpoint ends_with_space (s : string) : bool :=
  match s with
  | EmptyString => false
  | String c EmptyString => is_space c
  | String _ s' => ends_with_space s'
  end.

(** ** Calendar ([time.strptime], [time.mktime], [time.gmtime], [time.strftime]) *)

Record struct_time : Type := mk_struct_time
  { tm_year : Z; tm_mon : Z; tm_mday : Z; tm_hour : Z; tm_min : Z; tm_sec : Z }.

Definition month_names : list string :=
  ["jan"; "feb"; "mar"; "apr"; "may"; "jun";
   "jul"; "aug"; "sep"; "oct"; "nov"; "dec"].

Fixpoint index_of (x : string) (l : list string) (i : Z) : option Z :=
  match l with
  | [] => None
  | y :: l' => if String.eqb x y then Some i else index_of x l' (i + 1)
  end.

(** [%b]: an abbreviated month name, whatever its case. *)
Definition parse_month (s : string) : option Z := index_of (lower s) month_names 1.

Definition is_leap (y : Z) : bool :=
  (y mod 4 =? 0) && (negb (y mod 100 =? 0) || (y mod 400 =? 0)).

Definition days_in_month (y m : Z) : Z :=
  if m =? 2 then (if is_leap y then 29 else 28)
  else if (m =? 4) || (m =? 6) || (m =? 9) || (m =? 11) then 30
  else 31.

(** A field of one or two decimal digits with a value in [lo..hi]
    ([%d]: 1..31, [%H]: 0..23, [%M]: 0..59). *)
Definition parse_field (lo hi : Z) (s : string) : option Z :=
  if (String.length s <=? 2)%nat then
    match digits_value s with
    | Some v => if (lo <=? v) && (v <=? hi) then Some v else None
    | None => None
    end
  else None.

Definition parse_hour_minute (s : string) : option (Z * Z) :=
  match split_on ":" s with
  | [h; m] =>
      match parse_field 0 23 h, parse_field 0 59 m with
      | Some hv, Some mv => Some (hv, mv)
      | _, _ => None
      end
  | _ => None
  end.

(** [time.strptime(s, "%b %d %H:%M")].  The format names no year: the year
    of the result is 1900 (a 29th of February is checked against the leap
    year 1904 and still reported in 1900).  [None] stands for [ValueError]. *)
Definition strptime_b_d_HM (s : string) : option struct_time :=
  if starts_with_space s || ends_with_space s then None
  else
    match split_ws s with
    | [b; d; hm] =>
        match parse_month b, parse_field 1 31 d, parse_hour_minute hm with
        | Some mon, Some day, Some (h, mi) =>
            let year := if (mon =? 2) && (day =? 29) then 1904 else 1900 in
            if day <=? days_in_month year mon
            then Some (mk_struct_time 1900 mon day h mi 0)
            else None
        | _, _, _ => None
        end
    | _ => None
    end.

(** Days from 1970-01-01 to the given civil date (proleptic Gregorian);
    a day of the month past the end of the month runs into the next. *)
Definition days_from_civil (y m d : Z) : Z :=
  let y' := if m <=? 2 then y - 1 else y in
  let era := y' / 400 in
  let yoe := y' - era * 400 in
  let mp := (m + 9) mod 12 in
  let doy := (153 * mp + 2) / 5 + d - 1 in
  let doe := yoe * 365 + yoe / 4 - yoe / 100 + doy in
  era * 146097 + doe - 719468.

(** [time.mktime]: seconds since the epoch of a local time, in a zone
    [tz] seconds east of UTC (a platform whose [mktime] refuses the years
    before 1970 with [OverflowError] is not modelled). *)
Definition mktime (tz : Z) (t : struct_time) : Z :=
  days_from_civil (tm_year t) (tm_mon t) (tm_mday t) * 86400
  + tm_hour t * 3600 + tm_min t * 60 + tm_sec t - tz.

(** [time.gmtime] *)
Definition gmtime (secs : Z) : struct_time :=
  let days := secs / 86400 in
  let rem := secs mod 86400 in
  let z := days + 719468 in
  let era := z / 146097 in
  let doe := z - era * 146097 in
  let yoe := (doe - doe / 1460 + doe / 36524 - doe / 146096) / 365 in
  let doy := doe - (365 * yoe + yoe / 4 - yoe / 100) in
  let mp := (5 * doy + 2) / 153 in
  let d := doy - (153 * mp + 2) / 5 + 1 in
  let m := if mp <? 10 then mp + 3 else mp - 9 in
  let y := yoe + era * 400 + (if m <=? 2 then 1 else 0) in
  mk_struct_time y m d (rem / 3600) (rem mod 3600 / 60) (rem mod 60).

(** [time.strftime('%Y%m%d%H%M%S', t)] *)
Definition strftime_YmdHMS (t : struct_time) : string :=
  (decimal (tm_year t) ++ zero_padded 2 (tm_mon t) ++ zero_padded 2 (tm_mday t)
   ++ zero_padded 2 (tm_hour t) ++ zero_padded 2 (tm_min t)
   ++ zero_padded 2 (tm_sec t))%string.

(** ** Local file trees ([os], [os.path], [shutil]) *)

Inductive node : Type :=
| File (data : string) (mtime : Z)
| Dir (mtime : Z) (entries : list (string * node)).

Definition path := list string.
Definition tree := option node.

Definition path_eq_dec : forall p q : path, {p = q} + {p <> q} :=
  list_eq_dec string_dec.

Definition is_dir_node (n : node) : bool :=
  match n with Dir _ _ => true | File _ _ => false end.

Fixpoint entry_lookup (name : string) (es : list (string * node)) : option node :=
  match es with
  | [] => None
  | (k, v) :: es' => if String.eqb k name then Some v else entry_lookup name es'
  end.

(** Replace the entry called [name], or add it at the end. *)
Fixpoint entry_set (name : string) (v : node) (es : list (string * node))
  : list (string * node) :=
  match es with
  | [] => [(name, v)]
  | (k, w) :: es' =>
      if String.eqb k name then (k, v) :: es' else (k, w) :: entry_set name v es'
  end.

Fixpoint lookup (p : path) (n : node) : option node :=
  match p with
  | [] => Some n
  | x :: p' =>
      match n with
      | Dir _ es =>
          match entry_lookup x es with
          | Some c => lookup p' c
          | None => None
          end
      | File _ _ => None
      end
  end.

Definition tree_lookup (p : path) (t : tree) : option node :=
  match t with Some n => lookup p n | None => None end.

(** Shapes of what a path names. *)
Definition as_file (o : option node) : option (string * Z) :=
  match o with Some (File d m) => Some (d, m) | _ => None end.
Definition as_dir (o : option node) : bool :=
  match o with Some (Dir _ _) => true | _ => false end.

(** [os.path.exists], [os.path.isdir], [os.path.getmtime] *)
Definition path_exists (p : path) (t : tree) : bool :=
  match tree_lookup p t with Some _ => true | None => false end.

Definition path_isdir (p : path) (t : tree) : bool :=
  match tree_lookup p t with Some (Dir _ _) => true | _ => false end.

Definition getmtime (p : path) (t : tree) : res Z :=
  match tree_lookup p t with
  | Some (File _ m) => Ok m
  | Some (Dir m _) => Ok m
  | None => Raise FileNotFoundError
  end.

(** The file a path names, when it names a regular file. *)
Definition file_at (p : path) (t : tree) : option (string * Z) :=
  match tree_lookup p t with
  | Some (File d m) => Some (d, m)
  | _ => None
  end.

(** [os.makedirs(p, exist_ok=True)]: every missing directory on the way is
    created and stamped with the clock reading [now]; a regular file on
    the way is an error ([FileExistsError] when it is the last component,
    [NotADirectoryError] before). *)
Fixpoint fresh_dirs (now : Z) (p : path) : node :=
  match p with
  | [] => Dir now []
  | x :: p' => Dir now [(x, fresh_dirs now p')]
  end.

Fixpoint makedirs_node (now : Z) (p : path) (n : node) : res node :=
  match p with
  | [] =>
      match n with
      | Dir _ _ => Ok n
      | File _ _ => Raise FileExistsError
      end
  | x :: p' =>
      match n with
      | File _ _ => Raise NotADirectoryError
      | Dir m es =>
          match entry_lookup x es with
          | None => Ok (Dir now (entry_set x (fresh_dirs now p') es))
          | Some c =>
              res_bind (makedirs_node now p' c)
                       (fun c' => Ok (Dir m (entry_set x c' es)))
          end
      end
  end.

Definition makedirs (now : Z) (p : path) (t : tree) : res tree :=
  match t with
  | None => Ok (Some (fresh_dirs now p))
  | Some n => res_bind (makedirs_node now p n) (fun n' => Ok (Some n'))
  end.

(** Create or overwrite the regular file at [p] ([open(p, 'wb')] followed by
    the writes and the timestamp the caller gives): the parent must be a
    directory, and [p] itself must not be one. *)
Fixpoint write_node (now : Z) (p : path) (f : node) (n : node) : res node :=
  match p with
  | [] =>
      match n with
      | Dir _ _ => Raise IsADirectoryError
      | File _ _ => Ok f
      end
  | x :: p' =>
      match n with
      | File _ _ => Raise NotADirectoryError
      | Dir m es =>
          match entry_lookup x es with
          | None =>
              match p' with
              | [] => Ok (Dir now (entry_set x f es))
              | _ :: _ => Raise FileNotFoundError
              end
          | Some c =>
              res_bind (write_node now p' f c)
                       (fun c' => Ok (Dir m (entry_set x c' es)))
          end
      end
  end.

Definition write_file (now : Z) (p : path) (f : node) (t : tree) : res tree :=
  match t with
  | None =>
      match p with
      | [] => Ok (Some f)
      | _ :: _ => Raise FileNotFoundError
      end
  | Some n => res_bind (write_node now p f n) (fun n' => Ok (Some n'))
  end.

(** [shutil.copy2(src, dst)]: [src] is what the source path names and
    [name] its last component; a destination that is a directory receives
    the copy under [name]; content and modification time are both copied. *)
Definition copy2 (now : Z) (src : option node) (name : string) (dst : path)
  (t : tree) : res tree :=
  let dst' := if path_isdir dst t then dst ++ [name] else dst in
  match src with
  | None => Raise FileNotFoundError
  | Some (Dir _ _) => Raise IsADirectoryError
  | Some (File d m) => write_file now dst' (File d m) t
  end.

(** [os.walk(top)], top-down: one triple (directory, sub-directory names,
    file names) per directory, the directory itself before its
    sub-directories.  Nothing is yielded when [top] is not a directory. *)
Definition dirnames (es : list (string * node)) : list string :=
  map fst (filter (fun e => is_dir_node (snd e)) es).
Definition filenames (es : list (string * node)) : list string :=
  map fst (filter (fun e => negb (is_dir_node (snd e))) es).

Fixpoint walk_node (root : path) (n : node) : list (path * list string * list string) :=
  match n with
  | File _ _ => []
  | Dir _ es =>
      (root, dirnames es, filenames es)
      :: flat_map (fun e => match e with
                            | (k, c) => walk_node (root ++ [k]) c
                            end) es
  end.

Definition os_walk (top : tree) : list (path * list string * list string) :=
  match top with
  | Some n => walk_node [] n
  | None => []
  end.

(** [shutil.rmtree(p, ignore_errors=True)] on a root. *)
Definition rmtree (t : tree) : tree := None.

(** ** Progress bars ([tqdm]) *)

Record tqdm : Type := mk_tqdm
  { tq_total : Z; tq_n : Z; tq_disable : bool; tq_closed : bool }.

Definition tqdm_new (total : Z) (disable : bool) : tqdm :=
  mk_tqdm total 0 disable false.
Definition tqdm_update (k : Z) (b : tqdm) : tqdm :=
  if tq_disable b then b
  else mk_tqdm (tq_total b) (tq_n b + k) (tq_disable b) (tq_closed b).
Definition tqdm_close (b : tqdm) : tqdm :=
  mk_tqdm (tq_total b) (tq_n b) (tq_disable b) true.

(** ** Python values used by the script *)

(** A [dict] from names to timestamps, in insertion order; assigning to a
    key that is present keeps its place. *)
Definition dict := list (string * Z).

Fixpoint dict_set (k : string) (v : Z) (d : dict) : dict :=
  match d with
  | [] => [(k, v)]
  | (k', v') :: d' =>
      if String.eqb k' k then (k', v) :: d' else (k', v') :: dict_set k v d'
  end.

Fixpoint dict_get (k : string) (d : dict) : option Z :=
  match d with
  | [] => None
  | (k', v') :: d' => if String.eqb k' k then Some v' else dict_get k d'
  end.

Definition dict_keys (d : dict) : list string := map fst d.
Definition dict_values (d : dict) : list Z := map snd d.

(** [x["mtime"]] on a number: numbers are not subscriptable. *)
Definition number_subscript {S} (x : Z) (key : string) : M S Z := raise TypeError.

(** [x.get("mtime", 0)] on a number: numbers have no attribute [get]. *)
Definition number_get {S} (x : Z) (key : string) (default : Z) : M S Z :=
  raise AttributeError.

(** [os.path.join(a, b)] on path names written with [/]. *)
Fixpoint ends_with_slash (s : string) : bool :=
  match s with
  | EmptyString => false
  | String c EmptyString => Ascii.eqb c "/"
  | String _ s' => ends_with_slash s'
  end.
Definition starts_with_slash (s : string) : bool :=
  match s with String c _ => Ascii.eqb c "/" | EmptyString => false end.
Definition path_join (a b : string) : string :=
  if starts_with_slash b then b
  else if String.eqb a "" || ends_with_slash a then (a ++ b)%string
  else (a ++ "/" ++ b)%string.

(** ** The FTP session ([ftplib.FTP]) and the server behind it

    The server keeps a directory tree, refuses to enter the directories
    listed in [srv_denied] and to list those in [srv_unlistable]; the
    session adds the current working directory.  A refused command is the
    exception [error_perm]. *)

Record ftp_state : Type := mk_ftp
  { srv_root : node;
    srv_denied : list path;
    srv_unlistable : list path;
    ftp_cwd_path : path }.

Definition path_in (p : path) (l : list path) : bool :=
  existsb (fun q => if path_eq_dec p q then true else false) l.

(** The path a command argument names, from the working directory. *)
Definition resolve_step (acc : path) (c : string) : path :=
  if String.eqb c "" || String.eqb c "." then acc
  else if String.eqb c ".." then removelast acc
  else acc ++ [c].
Definition resolve (cwd : path) (arg : string) : path :=
  fold_left resolve_step (split_on "/" arg)
            (if starts_with_slash arg then [] else cwd).

Definition month_abbr : list string :=
  ["Jan"; "Feb"; "Mar"; "Apr"; "May"; "Jun";
   "Jul"; "Aug"; "Sep"; "Oct"; "Nov"; "Dec"].

(** One line of the reply to [LIST], in the [ls -l] layout: nine fields,
    the month, day and time of day in fields 5 to 7, the name last. *)
Definition list_time (m : Z) : string :=
  let t := gmtime m in
  (nth (Z.to_nat (tm_mon t - 1)) month_abbr "Jan" ++ " "
   ++ zero_padded 2 (tm_mday t) ++ " "
   ++ zero_padded 2 (tm_hour t) ++ ":" ++ zero_padded 2 (tm_min t))%string.

Definition list_line (e : string * node) : string :=
  match e with
  | (name, File d m) =>
      ("-rw-r--r-- 1 vita vita " ++ decimal (Z.of_nat (String.length d)) ++ " "
       ++ list_time m ++ " " ++ name)%string
  | (name, Dir m _) =>
      ("drwxr-xr-x 1 vita vita 0 " ++ list_time m ++ " " ++ name)%string
  end.

(** The timestamp argument of [MFMT], [YYYYMMDDHHMMSS] in UTC. *)
Definition parse_mfmt (s : string) : option Z :=
  if (String.length s =? 14)%nat then
    match digits_value s with
    | Some v =>
        Some (mktime 0 (mk_struct_time (v / 10000000000) (v / 100000000 mod 100)
                                       (v / 1000000 mod 100) (v / 10000 mod 100)
                                       (v / 100 mod 100) (v mod 100)))
    | None => None
    end
  else None.

Section Script.
(** The local time zone, in seconds east of UTC, and the reading of the
    clock that stamps what the run creates. *)
Variable tz : Z.
Variable now : Z.

(** [ftp.pwd()] *)
Definition ftp_pwd (st : ftp_state) : string :=
  ("/" ++ join "/" (ftp_cwd_path st))%string.

(** [ftp.cwd(dirname)] *)
Definition ftp_cwd (dirname : string) : M ftp_state unit :=
  fun st =>
    let target := resolve (ftp_cwd_path st) dirname in
    if as_dir (lookup target (srv_root st)) && negb (path_in target (srv_denied st))
    then (mk_ftp (srv_root st) (srv_denied st) (srv_unlistable st) target, Ok tt)
    else (st, Raise error_perm).

(** [ftp.retrlines('LIST', callback)]: the lines handed to the callback. *)
Definition ftp_list : M ftp_state (list string) :=
  fun st =>
    match lookup (ftp_cwd_path st) (srv_root st) with
    | Some (Dir _ es) =>
        if path_in (ftp_cwd_path st) (srv_unlistable st)
        then (st, Raise error_perm)
        else (st, Ok (map list_line es))
    | _ => (st, Raise error_perm)
    end.

(** [ftp.retrbinary("RETR " + item, f.write)]: the bytes written. *)
Definition ftp_retr (item : string) : M ftp_state string :=
  fun st =>
    match as_file (lookup (resolve (ftp_cwd_path st) item) (srv_root st)) with
    | Some (d, _) => (st, Ok d)
    | None => (st, Raise error_perm)
    end.

Definition srv_write (p : path) (f : node) : M ftp_state unit :=
  fun st =>
    match write_node now p f (srv_root st) with
    | Ok root' =>
        (mk_ftp root' (srv_denied st) (srv_unlistable st) (ftp_cwd_path st), Ok tt)
    | Raise _ => (st, Raise error_perm)
    end.

(** [ftp.storbinary("STOR " + item, f)] *)
Definition ftp_stor (item : string) (data : string) : M ftp_state unit :=
  fun st => srv_write (resolve (ftp_cwd_path st) item) (File data now) st.

(** [ftp.voidcmd("MFMT " + stamp + " " + item)] *)
Definition ftp_mfmt (stamp : string) (item : string) : M ftp_state unit :=
  fun st =>
    let p := resolve (ftp_cwd_path st) item in
    match parse_mfmt stamp, as_file (lookup p (srv_root st)) with
    | Some m, Some (d, _) => srv_write p (File d m) st
    | _, _ => (st, Raise error_perm)
    end.

(** [ftp.mkd(dirname)] *)
Definition ftp_mkd (dirname : string) : M ftp_state unit :=
  fun st =>
    let p := resolve (ftp_cwd_path st) dirname in
    match lookup p (srv_root st), lookup (removelast p) (srv_root st) with
    | None, Some (Dir _ _) =>
        match makedirs_node now p (srv_root st) with
        | Ok root' =>
            (mk_ftp root' (srv_denied st) (srv_unlistable st) (ftp_cwd_path st),
             Ok tt)
        | Raise _ => (st, Raise error_perm)
        end
    | _, _ => (st, Raise error_perm)
    end.

(** ** [list_directory_with_details] *)

Definition parse_line (items : dict) (line : string) : dict :=
  let parts := split_ws line in
  if (9 <=? List.length parts)%nat then
    let filename := last parts "" in
    match strptime_b_d_HM (join " " (firstn 3 (skipn 5 parts))) with
    | Some t => dict_set filename (mktime tz t) items
    | None => dict_set filename 0 items
    end
  else items.

Definition list_directory_with_details : M ftp_state dict :=
  try_except_perm
    (lines <- ftp_list ;; ret (fold_left parse_line lines []))
    (ret []).

(** ** [is_directory] *)

Definition is_directory (item : string) : M ftp_state bool :=
  current_dir <- gets ftp_pwd ;;
  try_except_perm
    (ftp_cwd item ;;; ftp_cwd current_dir ;;; ret true)
    (ret false).

(** A call [is_directory(x)] with one argument: [is_directory] has two
    required positional parameters, the call raises [TypeError] before
    the body runs. *)
Definition is_directory_one_argument {S A} (x : A) : M S bool := raise TypeError.

(** ** [count_files]

    [limit] is the depth of recursion the interpreter allows. *)
Fixpoint count_files (limit : nat) (remote_dir : string) : M ftp_state Z :=
  match limit with
  | O => raise RecursionError
  | S limit' =>
      entered <- try_except_perm (ftp_cwd remote_dir ;;; ret true) (ret false) ;;
      if negb entered then ret 0
      else
        remote_items <- list_directory_with_details ;;
        total_files <-
          for_fold (dict_keys remote_items) 0
            (fun total_files item =>
               isdir <- is_directory item ;;
               if isdir then
                 n <- count_files limit' item ;; ret (total_files + n)
               else ret (total_files + 1)) ;;
        ftp_cwd ".." ;;;
        ret total_files
  end.

(** ** The progress bars a walk shares

    Bars live in a store and are passed around by handle, so that the
    recursive calls update the very bar their caller holds. *)
Definition bars_update (h : nat) (f : tqdm -> tqdm) (bars : list tqdm) : list tqdm :=
  firstn h bars ++ match nth_error bars h with
                   | Some b => [f b]
                   | None => []
                   end ++ skipn (S h) bars.

(** ** [download_directory] *)

Record dl_state : Type := mk_dl
  { dl_ftp : ftp_state; dl_local : tree; dl_bars : list tqdm }.

Definition dl_on_ftp {A} (c : M ftp_state A) : M dl_state A :=
  fun s => match c (dl_ftp s) with
           | (f', r) => (mk_dl f' (dl_local s) (dl_bars s), r)
           end.

Definition dl_on_local (f : tree -> res tree) : M dl_state unit :=
  fun s => match f (dl_local s) with
           | Ok t' => (mk_dl (dl_ftp s) t' (dl_bars s), Ok tt)
           | Raise e => (s, Raise e)
           end.

(** [tqdm(total=..., disable=...)] *)
Definition dl_new_bar (total : Z) (disable : bool) : M dl_state nat :=
  fun s => (mk_dl (dl_ftp s) (dl_local s) (dl_bars s ++ [tqdm_new total disable]),
            Ok (List.length (dl_bars s))).

(** [pbar.update(1)] and [pbar.close()]; on [None] both are an
    [AttributeError]. *)
Definition dl_bar (pbar : option nat) (f : tqdm -> tqdm) : M dl_state unit :=
  match pbar with
  | Some h => modify (fun s => mk_dl (dl_ftp s) (dl_local s) (bars_update h f (dl_bars s)))
  | None => raise AttributeError
  end.

(** [merged] is the tree at [merged_dir]'s root (read only), [local_dir]
    and [merged_dir] are paths from the staging root and from the merged
    root; an entry name is taken as a single path component. *)
Fixpoint download_directory (limit : nat) (merged : tree) (remote_dir : string)
  (local_dir merged_dir : path) (progress : bool)
  (pbar : option nat) (total_files : option Z) : M dl_state unit :=
  match limit with
  | O => raise RecursionError
  | S limit' =>
      dl_on_local (makedirs now local_dir) ;;;
      entered <- dl_on_ftp (try_except_perm (ftp_cwd remote_dir ;;; ret true)
                                            (ret false)) ;;
      if negb entered then ret tt
      else
        remote_items <- dl_on_ftp list_directory_with_details ;;
        bar <- match pbar, total_files with
               | None, None =>
                   total <- for_fold (dict_values remote_items) 0
                              (fun n item =>
                                 isdir <- is_directory_one_argument item ;;
                                 ret (if negb isdir then n + 1 else n)) ;;
                   h <- dl_new_bar total (negb progress) ;;
                   ret (Some h, Some total)
               | _, _ => ret (pbar, total_files)
               end ;;
        let pbar := fst bar in
        let total_files := snd bar in
        for_each remote_items
          (fun entry =>
             let item := fst entry in
             let details := snd entry in
             let local_path := local_dir ++ [item] in
             let merged_path := merged_dir ++ [item] in
             isdir <- is_directory_one_argument details ;;
             if isdir then
               download_directory limit' merged item local_path merged_path
                                  progress pbar total_files
             else
               ftp_mtime <- number_subscript details "mtime" ;;
               same <- (if path_exists merged_path merged then
                          m <- lift_res (getmtime merged_path merged) ;;
                          ret (m =? ftp_mtime)
                        else ret false) ;;
               if same then ret tt
               else
                 try_except_perm
                   (dl_on_local (write_file now local_path (File "" now)) ;;;
                    data <- dl_on_ftp (ftp_retr item) ;;
                    dl_on_local (write_file now local_path (File data now)) ;;;
                    dl_on_local (write_file now local_path (File data ftp_mtime)))
                   (ret tt) ;;;
                 dl_bar pbar (tqdm_update 1)) ;;;
        dl_on_ftp (ftp_cwd "..") ;;;
        here <- gets (fun s => ftp_pwd (dl_ftp s)) ;;
        match pbar with
        | Some _ => if String.eqb remote_dir here then dl_bar pbar tqdm_close else ret tt
        | None => ret tt
        end
  end.

(** ** [upload_directory] *)

Record ul_state : Type := mk_ul { ul_ftp : ftp_state; ul_bars : list tqdm }.

Definition ul_on_ftp {A} (c : M ftp_state A) : M ul_state A :=
  fun s => match c (ul_ftp s) with
           | (f', r) => (mk_ul f' (ul_bars s), r)
           end.

Definition ul_new_bar (total : Z) (disable : bool) : M ul_state nat :=
  fun s => (mk_ul (ul_ftp s) (ul_bars s ++ [tqdm_new total disable]),
            Ok (List.length (ul_bars s))).

Definition ul_bar (pbar : option nat) (f : tqdm -> tqdm) : M ul_state unit :=
  match pbar with
  | Some h => modify (fun s => mk_ul (ul_ftp s) (bars_update h f (ul_bars s)))
  | None => raise AttributeError
  end.

(** The [try] block that opens [upload_directory]: enter the remote
    directory, creating it when it cannot be entered; [false] when that
    fails too and the directory is skipped. *)
Definition upload_enter (remote_dir : string) : M ul_state bool :=
  ul_on_ftp
    (try_except_perm
       (ftp_cwd "/" ;;; ftp_cwd remote_dir ;;; ret true)
       (try_except_perm
          (ftp_mkd remote_dir ;;; ftp_cwd remote_dir ;;; ret true)
          (ret false))).

(** [local] is what [local_dir] names; the local tree is only read. *)
Fixpoint upload_directory (local : node) (remote_dir : string) (progress : bool)
  (pbar : option nat) : M ul_state unit :=
  entered <- upload_enter remote_dir ;;
  if negb entered then ret tt
  else
    match local with
    | File _ _ => raise NotADirectoryError
    | Dir _ es =>
        let local_items := map fst es in
        pbar <- match pbar with
                | None =>
                    h <- ul_new_bar (Z.of_nat (List.length local_items))
                                    (negb progress) ;;
                    ret (Some h)
                | Some h => ret (Some h)
                end ;;
        remote_files <- ul_on_ftp list_directory_with_details ;;
        for_each es
          (fun entry =>
             let item := fst entry in
             match snd entry with
             | Dir _ _ =>
                 upload_directory (snd entry) (path_join remote_dir item)
                                  progress pbar ;;;
                 ul_bar pbar (tqdm_update 1)
             | File data local_mtime =>
                 remote_mtime <- match dict_get item remote_files with
                                 | Some v => number_get v "mtime" 0
                                 | None => ret 0
                                 end ;;
                 if (match dict_get item remote_files with
                     | Some _ => true
                     | None => false
                     end) && (local_mtime =? remote_mtime)
                 then ret tt
                 else
                   try_except_perm
                     (ul_on_ftp (ftp_stor item data) ;;;
                      ul_on_ftp (ftp_mfmt (strftime_YmdHMS (gmtime local_mtime)) item))
                     (ret tt) ;;;
                   ul_bar pbar (tqdm_update 1)
             end) ;;;
        here <- gets (fun s => ftp_pwd (ul_ftp s)) ;;
        match pbar with
        | Some _ => if String.eqb remote_dir here then ul_bar pbar tqdm_close else ret tt
        | None => ret tt
        end
    end.

(** The call on the merged folder itself, which may not exist: then
    [os.listdir] raises once the remote directory has been entered. *)
Definition upload_tree (local : tree) (remote_dir : string) (progress : bool)
  (pbar : option nat) : M ul_state unit :=
  match local with
  | Some n => upload_directory n remote_dir progress pbar
  | None =>
      entered <- upload_enter remote_dir ;;
      if negb entered then ret tt else raise FileNotFoundError
  end.
End Script.

(** ** [merge_directories] *)

Record merge_state : Type := mk_merge_state
  { ms_target : tree; ms_pbar : tqdm }.

(** The set comprehension of the first line: the distinct joined paths. *)
Definition walk_file_paths (w : list (path * list string * list string)) : list path :=
  nodup path_eq_dec
        (flat_map (fun t => match t with
                            | (root, _, files) => map (fun f => root ++ [f]) files
                            end) w).

Definition on_target (f : tree -> res tree) : M merge_state unit :=
  fun s => match f (ms_target s) with
           | Ok t' => (mk_merge_state t' (ms_pbar s), Ok tt)
           | Raise e => (s, Raise e)
           end.

Definition pbar_update1 : M merge_state unit :=
  modify (fun s => mk_merge_state (ms_target s) (tqdm_update 1 (ms_pbar s))).

(** The body of the inner loop, for one [file] of the directory [root]
    ([root] is already relative to [source]; [target_root] is the same path
    under [target]). *)
Definition merge_file (now : Z) (source : tree) (root : path) (file : string)
  : M merge_state unit :=
  let source_path := root ++ [file] in
  let target_path := root ++ [file] in
  target <- gets ms_target ;;
  (if negb (path_exists target_path target) then
     on_target (copy2 now (tree_lookup source_path source) file target_path)
   else
     ms <- lift_res (getmtime source_path source) ;;
     mt <- lift_res (getmtime target_path target) ;;
     if ms >? mt then
       on_target (copy2 now (tree_lookup source_path source) file target_path)
     else ret tt) ;;;
  pbar_update1.

Definition merge_dir (now : Z) (source : tree)
  (t : path * list string * list string) : M merge_state unit :=
  match t with
  | (root, _, files) =>
      on_target (makedirs now root) ;;;
      for_each files (merge_file now source root)
  end.

Definition merge_directories (now : Z) (source target : tree) (progress : bool)
  : tree * tqdm * res unit :=
  let files := walk_file_paths (os_walk source) in
  let pbar := tqdm_new (Z.of_nat (List.length files)) (negb progress) in
  let run :=
    for_each (os_walk source) (merge_dir now source) ;;;
    modify (fun s => mk_merge_state (ms_target s) (tqdm_close (ms_pbar s))) in
  match run (mk_merge_state target pbar) with
  | (s, r) => (ms_target s, ms_pbar s, r)
  end.

(** ** [main] *)

Record server : Type := mk_server
  { sv_root : node; sv_denied : list path; sv_unlistable : list path }.

(** What a run can touch: the two staging directories
    [/tmp/ftp_sync_server1] and [/tmp/ftp_sync_server2], the merged folder,
    the servers by address, the progress bars.  The three local trees are
    distinct roots: the merged folder is taken to lie outside the staging
    directories. *)
Record world : Type := mk_world
  { w_temp1 : tree;
    w_temp2 : tree;
    w_merged : tree;
    w_servers : list (string * server);
    w_bars : list tqdm }.

Inductive staging : Type := temp_dir_1 | temp_dir_2.

Definition w_temp (which : staging) (w : world) : tree :=
  match which with temp_dir_1 => w_temp1 w | temp_dir_2 => w_temp2 w end.

Definition set_temp (which : staging) (t : tree) (bars : list tqdm) (w : world) : world :=
  match which with
  | temp_dir_1 => mk_world t (w_temp2 w) (w_merged w) (w_servers w) bars
  | temp_dir_2 => mk_world (w_temp1 w) t (w_merged w) (w_servers w) bars
  end.

Fixpoint server_lookup (a : string) (l : list (string * server)) : option server :=
  match l with
  | [] => None
  | (k, v) :: l' => if String.eqb k a then Some v else server_lookup a l'
  end.

Fixpoint server_set (a : string) (v : server) (l : list (string * server))
  : list (string * server) :=
  match l with
  | [] => []
  | (k, w) :: l' =>
      if String.eqb k a then (k, v) :: l' else (k, w) :: server_set a v l'
  end.

Definition remote_dir : string := "ux0:/user/00/savedata".

Section Main.
Variable tz : Z.
Variable now : Z.
(** The depth of recursion the interpreter allows. *)
Variable limit : nat.

(** [ftp_connect(server, ftp_port)]: a fresh session at the server's
    root; an address nobody answers at is an error. *)
Definition ftp_connect (address : string) (w : world) : res ftp_state :=
  match server_lookup address (w_servers w) with
  | None => Raise ConnectionRefusedError
  | Some sv => Ok (mk_ftp (sv_root sv) (sv_denied sv) (sv_unlistable sv) [])
  end.

(** [with ftp_connect(server, ftp_port) as ftp: body]: what the body did
    to the server stays, whether it ends normally or not. *)
Definition with_ftp_connect (address : string)
  (body : M (world * ftp_state) unit) : M world unit :=
  fun w =>
    match ftp_connect address w with
    | Raise e => (w, Raise e)
    | Ok ftp =>
        match body (w, ftp) with
        | ((w', ftp'), r) =>
            (mk_world (w_temp1 w') (w_temp2 w') (w_merged w')
                      (server_set address
                         (mk_server (srv_root ftp') (srv_denied ftp')
                                    (srv_unlistable ftp'))
                         (w_servers w'))
                      (w_bars w'),
             r)
        end
    end.

(** [download_directory(ftp, remote_dir, temp_dir, merged_folder, ...)] *)
Definition run_download (which : staging) (progress : bool)
  : M (world * ftp_state) unit :=
  fun wf =>
    let w := fst wf in
    match download_directory tz now limit (w_merged w) remote_dir [] [] progress
                             None None
                             (mk_dl (snd wf) (w_temp which w) (w_bars w)) with
    | (s', r) => ((set_temp which (dl_local s') (dl_bars s') w, dl_ftp s'), r)
    end.

(** [merge_directories(temp_dir, merged_folder, progress)] *)
Definition run_merge (which : staging) (progress : bool) : M world unit :=
  fun w =>
    match merge_directories now (w_temp which w) (w_merged w) progress with
    | (t', bar, r) =>
        (mk_world (w_temp1 w) (w_temp2 w) t' (w_servers w) (w_bars w ++ [bar]), r)
    end.

(** [upload_directory(ftp, merged_folder, remote_dir, ...)] *)
Definition run_upload (progress : bool) : M (world * ftp_state) unit :=
  fun wf =>
    let w := fst wf in
    match upload_tree tz now (w_merged w) remote_dir progress None
                      (mk_ul (snd wf) (w_bars w)) with
    | (s', r) =>
        ((mk_world (w_temp1 w) (w_temp2 w) (w_merged w) (w_servers w) (ul_bars s'),
          ul_ftp s'), r)
    end.

Definition on_world {A} (c : M world A) : M (world * ftp_state) A :=
  fun wf => match c (fst wf) with
            | (w', r) => ((w', snd wf), r)
            end.

(** The two [shutil.rmtree(..., ignore_errors=True)] that end [main]. *)
Definition remove_staging : M world unit :=
  modify (fun w => mk_world (rmtree (w_temp1 w)) (w_temp2 w) (w_merged w)
                            (w_servers w) (w_bars w)) ;;;
  modify (fun w => mk_world (w_temp1 w) (rmtree (w_temp2 w)) (w_merged w)
                            (w_servers w) (w_bars w)).

Definition main (ftp_servers : list string) (progress : bool) : M world unit :=
  match ftp_servers with
  | [ftp_server] =>
      with_ftp_connect ftp_server
        (run_download temp_dir_1 progress ;;;
         on_world (run_merge temp_dir_1 progress) ;;;
         run_upload progress) ;;;
      remove_staging
  | [ftp_server_1; ftp_server_2] =>
      with_ftp_connect ftp_server_1 (run_download temp_dir_1 progress) ;;;
      with_ftp_connect ftp_server_2 (run_download temp_dir_2 progress) ;;;
      run_merge temp_dir_1 progress ;;;
      run_merge temp_dir_2 progress ;;;
      with_ftp_connect ftp_server_1 (run_upload progress) ;;;
      with_ftp_connect ftp_server_2 (run_upload progress) ;;;
      remove_staging
  | _ => ret tt
  end.
End Main.

Fixpoint is_prefix (q p : path) : bool :=
  match q, p with
  | [], _ => true
  | x :: q', y :: p' => String.eqb x y && is_prefix q' p'
  | _ :: _, [] => false
  end.

(** A directory tree is well formed when no directory lists a name twice. *)
Fixpoint names_distinct (l : list string) : bool :=
  match l with
  | [] => true
  | x :: l' => negb (existsb (String.eqb x) l') && names_distinct l'
  end.

Fixpoint wf_node (n : node) : bool :=
  match n with
  | File _ _ => true
  | Dir _ es =>
      names_distinct (map fst es)
      && forallb (fun e => match e with (_, c) => wf_node c end) es
  end.

Definition wf_tree (t : tree) : bool :=
  match t with Some n => wf_node n | None => true end.

(** The file paths [os.walk] reports under a source tree. *)
Definition walk_files (source : tree) : list path :=
  flat_map (fun t => match t with
                     | (root, _, files) => map (fun f => root ++ [f]) files
                     end) (os_walk source).

(** No file of the source has a directory as its counterpart in [target]. *)
Definition no_file_over_dir (source target : tree) : bool :=
  forallb (fun p => negb (path_isdir p target)) (walk_files source).

(** No directory of the source has a regular file as its counterpart. *)
Definition no_dir_over_file (source target : tree) : bool :=
  forallb (fun t => match file_at (fst (fst t)) target with
                    | Some _ => false
                    | None => true
                    end) (os_walk source).

(** The outcome of the decision rule for one path: [s] is the source file,
    [c] the file the target has there, if any. *)
Definition last_modified (s : string * Z) (c : option (string * Z)) : string * Z :=
  match c with
  | None => s
  | Some c' => if snd s >? snd c' then s else c'
  end.

(** The invariant of the walk of [merge_directories] over the source [S]
    from the initial target [C].  Every file of the target is still the one
    [C] had, or the outcome of the rule for that path, or lies in a
    directory of [C] that is the counterpart of a file of the source; and
    where the source has a file the target has a directory exactly when
    [C] had one. *)
Definition merge_inv (S C T : tree) : Prop :=
  (forall p, file_at p T = file_at p C
             \/ (exists s, file_at p S = Some s
                           /\ file_at p T = Some (last_modified s (file_at p C)))
             \/ (exists q f, p = q ++ [f] /\ q <> [] /\ file_at q S <> None
                             /\ path_isdir q C = true))
  /\ (forall p, p <> [] -> file_at p S <> None -> path_isdir p T = path_isdir p C).

(** The path [p] has received the outcome of the rule (when its
    counterpart was not a directory). *)
Definition settled (S C : tree) (p : path) (T : tree) : Prop :=
  forall s, file_at p S = Some s -> path_isdir p C = false ->
            file_at p T = Some (last_modified s (file_at p C)).

(** What holds of the target all along a merge that meets no clash: the
    invariant of the walk, and no regular file where the source has a
    directory. *)
Definition merge_clear (S C T : tree) : Prop :=
  merge_inv S C T /\ (forall q, path_isdir q S = true -> file_at q T = None).

(** A sequence of merge calls into the same target, each from a well-formed
    source none of whose files has a directory as counterpart; a call may
    end normally or with an exception. *)
Inductive merge_run : tree -> tree -> Prop :=
| merge_run_nil T : merge_run T T
| merge_run_cons now source progress T T1 bar r T2 :
    wf_tree source = true ->
    no_file_over_dir source T = true ->
    merge_directories now source T progress = (T1, bar, r) ->
    merge_run T1 T2 ->
    merge_run T T2.

(** The decision rule exactly as the specification words it, for every call
    and every file of the source. *)
Definition merge_rule_as_stated : Prop :=
  forall now source target progress root f d m,
    file_at (root ++ [f]) source = Some (d, m) ->
    let target' := fst (fst (merge_directories now source target progress)) in
    (path_exists (root ++ [f]) target = false
     \/ (exists d' m', file_at (root ++ [f]) target = Some (d', m') /\ m' < m)) ->
    file_at (root ++ [f]) target' = Some (d, m).

(** Commutativity exactly as the specification words it: both orders agree,
    on the copy of the two sources with the greater timestamp. *)
Definition merge_commutes_as_stated : Prop :=
  forall now A B C progress p da ma db mb,
    file_at p A = Some (da, ma) ->
    file_at p B = Some (db, mb) ->
    ma <> mb ->
    let merge s t := fst (fst (merge_directories now s t progress)) in
    file_at p (merge A (merge B C)) = file_at p (merge B (merge A C))
    /\ file_at p (merge A (merge B C))
       = Some (if ma >? mb then (da, ma) else (db, mb)).

(** ** Sample trees *)

Module Samples.
(** Two staging trees and a merged folder that all hold [x.txt]. *)
Definition stage_a : tree :=
  Some (Dir 0 [("x.txt", File "from a" 1500);
               ("d", Dir 0 [("f", File "df" 5)])]).
Definition stage_b : tree :=
  Some (Dir 0 [("x.txt", File "from b" 2500)]).
Definition merged : tree :=
  Some (Dir 0 [("x.txt", File "kept" 2000)]).
Definition merged_a : tree :=
  Some (Dir 9 [("x.txt", File "kept" 2000);
               ("d", Dir 9 [("f", File "df" 5)])]).
Definition merged_ab : tree :=
  Some (Dir 9 [("x.txt", File "from b" 2500);
               ("d", Dir 9 [("f", File "df" 5)])]).
Definition merged_b : tree :=
  Some (Dir 0 [("x.txt", File "from b" 2500)]).
Definition bar_done (n : Z) : tqdm := mk_tqdm n n false true.

(** A merged folder whose [x.txt] is newer than both staged copies. *)
Definition merged_newer : tree :=
  Some (Dir 0 [("x.txt", File "kept" 3000)]).

(** A source directory [d] facing a regular file [d] in the target. *)
Definition stage_dir : tree :=
  Some (Dir 0 [("d", Dir 0 [("f", File "df" 5)])]).
Definition merged_file : tree :=
  Some (Dir 0 [("d", File "kept" 1)]).

(** A source file [x] facing a directory [x] in the target. *)
Definition stage_file_x : tree :=
  Some (Dir 0 [("x", File "new" 5)]).
Definition merged_dir_x : tree :=
  Some (Dir 0 [("x", Dir 1 [("x", File "old" 100)])]).
End Samples.

(** ** Sample servers and runs *)

Module Vita.
(** A server whose save-data directory [ux0:/user/00/savedata] holds
    the entries [es]. *)
Definition root_with (es : list (string * node)) : node :=
  Dir 0 [("ux0:", Dir 0 [("user", Dir 0 [("00", Dir 0 [("savedata", Dir 0 es)])])])].
Definition savedata : path := ["ux0:"; "user"; "00"; "savedata"].

(** A fresh session, and a session inside the save-data directory. *)
Definition connected (es : list (string * node)) : ftp_state :=
  mk_ftp (root_with es) [] [] [].
Definition inside (es : list (string * node)) : ftp_state :=
  mk_ftp (root_with es) [] [] savedata.

(** One file, modified 2024-01-05 12:30 UTC. *)
Definition one_file : list (string * node) :=
  [("top.sav", File "T" 1704457800)].

(** A sub-directory with two files, and one file beside it. *)
Definition game_and_file : list (string * node) :=
  [("game", Dir 1000 [("a.sav", File "AAA" 1000); ("b.sav", File "BB" 2000)]);
   ("top.sav", File "T" 1704457800)].

(** A merged folder with a sub-directory listed before a file. *)
Definition local_dir_then_file : node :=
  Dir 0 [("d", Dir 0 []); ("new.sav", File "N" 1704457800)].

(** A merged folder holding the file the server already lists. *)
Definition local_same_file : node :=
  Dir 0 [("top.sav", File "T" 1704457800)].

Definition world_with (es : list (string * node)) (merged : tree) : world :=
  mk_world None None merged [("vita", mk_server (root_with es) [] [])] [].
End Vita.

(** The removal of the staging directories exactly as the specification
    words it: at the end of every run with one or two servers, whatever
    its outcome. *)
Definition staging_always_removed : Prop :=
  forall tz now limit ftp_servers progress w,
    List.length ftp_servers = 1%nat \/ List.length ftp_servers = 2%nat ->
    w_temp1 w = None -> w_temp2 w = None ->
    let w' := fst (main tz now limit ftp_servers progress w) in
    w_temp1 w' = None /\ w_temp2 w' = None.

(** ** Auxiliary notions of the proofs *)

(** Induction on a tree, with the hypothesis for every entry of a
    directory. *)
Fixpoint node_ind' (P : node -> Prop)
  (Hf : forall d m, P (File d m))
  (Hd : forall m es, Forall (fun e => P (snd e)) es -> P (Dir m es))
  (n : node) : P n :=
  match n with
  | File d m => Hf d m
  | Dir m es =>
      Hd m es
         ((fix go (l : list (string * node)) : Forall (fun e => P (snd e)) l :=
             match l with
             | [] => Forall_nil _
             | e :: l' =>
                 Forall_cons e
                   (match e return P (snd e) with
                    | (_, c) => node_ind' P Hf Hd c
                    end)
                   (go l')
             end) es)
  end.

(** A step of a computation never loses a path of the part of the state
    [proj] selects. *)
Definition keeps_paths {S A} (proj : S -> tree) (c : M S A) : Prop :=
  forall s q, path_exists q (proj s) = true -> path_exists q (proj (fst (c s))) = true.

(** The merged folder, seen from inside a session. *)
Definition merged_of (wf : world * ftp_state) : tree := w_merged (fst wf).

(** A session is in order when its working directory is a directory the
    server lets it enter and [pwd] names it. *)
Definition session_ok (st : ftp_state) : Prop :=
  resolve [] (ftp_pwd st) = ftp_cwd_path st
  /\ as_dir (lookup (ftp_cwd_path st) (srv_root st)) = true
  /\ path_in (ftp_cwd_path st) (srv_denied st) = false.

(** ** Further notions used by the properties of the individual functions *)

(** [t'] has every regular file and every directory of [t], at the same
    paths (with whatever content and time). *)
Definition tree_grows (t t' : tree) : Prop :=
  forall q,
    (file_at q t <> None -> file_at q t' <> None)
    /\ (path_isdir q t = true -> path_isdir q t' = true).

(** A computation under which the tree [proj] selects only grows. *)
Definition only_grows {S A} (proj : S -> tree) (c : M S A) : Prop :=
  forall s, tree_grows (proj s) (proj (fst (c s))).

(** A directory that is absent or has no entry. *)
Definition empty_tree (t : tree) : Prop :=
  t = None \/ exists m, t = Some (Dir m []).

(** A property of the state that a computation keeps. *)
Definition preserves {S A} (I : S -> Prop) (c : M S A) : Prop :=
  forall s, I s -> I (fst (c s)).

(** What no run of [main] disturbs, from the world [w0] it starts in: the
    staging directories stay absent or empty, the files of the merged
    folder stay what they were. *)
Definition main_inv (w0 w : world) : Prop :=
  empty_tree (w_temp1 w) /\ empty_tree (w_temp2 w)
  /\ forall p, file_at p (w_merged w) = file_at p (w_merged w0).

(** The same, seen from inside a session. *)
Definition main_inv_inside (w0 : world) (wf : world * ftp_state) : Prop :=
  main_inv w0 (fst wf).

(** ** The staging directories along a run of [main] *)

(** A property of the two staging trees, as a property of the world and
    of the state inside a session. *)
Definition staging_inv (P : tree -> tree -> Prop) (w : world) : Prop :=
  P (w_temp1 w) (w_temp2 w).

Definition staging_inv_inside (P : tree -> tree -> Prop)
  (wf : world * ftp_state) : Prop :=
  staging_inv P (fst wf).

(** Such a property is stable when [os.makedirs] of a staging directory
    keeps it. *)
Definition stable_under_makedirs (now : Z) (P : tree -> tree -> Prop) : Prop :=
  (forall t1 t1' t2, makedirs now [] t1 = Ok t1' -> P t1 t2 -> P t1' t2)
  /\ (forall t1 t2 t2', makedirs now [] t2 = Ok t2' -> P t1 t2 -> P t1 t2').

(** A property of the state that holds where a computation stops with an
    exception, when it held where the computation started. *)
Definition kept_on_raise {S A} (I : S -> Prop) (c : M S A) : Prop :=
  forall s s' e, I s -> c s = (s', Raise e) -> I s'.

(** A property of the state that holds after a computation, whatever its
    outcome and whatever the state it started in. *)
Definition establishes {S A} (I : S -> Prop) (c : M S A) : Prop :=
  forall s, I (fst (c s)).

(** ** Names on the server, and the files below a directory *)

Fixpoint no_space (s : string) : bool :=
  match s with
  | EmptyString => true
  | String c s' => negb (is_space c) && no_space s'
  end.

(** A string [str.split()] returns as one word. *)
Definition one_word (s : string) : bool :=
  negb (String.eqb s "") && no_space s.

Fixpoint no_slash (s : string) : bool :=
  match s with
  | EmptyString => true
  | String c s' => negb (Ascii.eqb c "/") && no_slash s'
  end.

(** A name that is one field of a listing line and one component of a
    path on the server. *)
Definition plain_name (s : string) : bool :=
  one_word s && no_slash s && negb (String.eqb s ".") && negb (String.eqb s "..").

Fixpoint plain_node (n : node) : bool :=
  match n with
  | File _ _ => true
  | Dir _ es =>
      forallb (fun e => match e with (k, c) => plain_name k && plain_node c end) es
  end.

(** The regular files at or below a node. *)
Fixpoint count_tree (n : node) : Z :=
  match n with
  | File _ _ => 1
  | Dir _ es =>
      fold_right Z.add 0 (map (fun e => match e with (_, c) => count_tree c end) es)
  end.

(** The calls of [count_files] that are active at once on a directory. *)
Fixpoint depth (n : node) : nat :=
  match n with
  | File _ _ => O
  | Dir _ es =>
      S (fold_right Nat.max O (map (fun e => match e with (_, c) => depth c end) es))
  end.

(** The word a listing line is recorded under: the last one of the name. *)
Definition listed_as (name : string) : option string :=
  match split_ws name with
  | [] => None
  | ws => Some (last ws "")
  end.

(** ** The push of one regular file

    The branch of the loop of [upload_directory] that handles a regular
    file, with the listing [remote_files] taken before the loop and the
    progress bar the loop holds. *)
Definition upload_file (now : Z) (remote_files : dict) (pbar : option nat)
  (item data : string) (local_mtime : Z) : M ul_state unit :=
  remote_mtime <- match dict_get item remote_files with
                  | Some v => number_get v "mtime" 0
                  | None => ret 0
                  end ;;
  if (match dict_get item remote_files with
      | Some _ => true
      | None => false
      end) && (local_mtime =? remote_mtime)
  then ret tt
  else
    try_except_perm
      (ul_on_ftp (ftp_stor now item data) ;;;
       ul_on_ftp (ftp_mfmt now (strftime_YmdHMS (gmtime local_mtime)) item))
      (ret tt) ;;;
    ul_bar pbar (tqdm_update 1).

(** The modification time a file has on the server after [STOR] at the
    clock reading [now] and [MFMT] with the local time [mtime]: the time
    the server reads in the stamp, or [now] when it refuses the stamp. *)
Definition mfmt_time (now mtime : Z) : Z :=
  match parse_mfmt (strftime_YmdHMS (gmtime mtime)) with
  | Some m => m
  | None => now
  end.

(** [os.path.getmtime] (line 156) returns a float, a rational number of
    seconds; [time.gmtime] drops the fraction of its argument, rounding
    to minus infinity. *)
Definition gmtime_float (secs : QArith_base.Q) : struct_time :=
  gmtime (Qround.Qfloor secs).

(** The stamp of line 170 for a local file last modified at
    [local_mtime]: [time.strftime('%Y%m%d%H%M%S', time.gmtime(local_mtime))]. *)
Definition mfmt_stamp (local_mtime : QArith_base.Q) : string :=
  strftime_YmdHMS (gmtime_float local_mtime).

(** * Properties *)

(** ** The loop combinator *)

Lemma for_each_cons {S B} (x : B) (l : list B) (body : B -> M S unit) (s : S) :
  for_each (x :: l) body s
  = match body x s with
    | (s', Ok _) => for_each l body s'
    | (s', Raise e) => (s', Raise e)
    end.
Proof. reflexivity. Qed.

(** ** Entries and paths *)

Lemma entry_lookup_set_same x v es :
  entry_lookup x (entry_set x v es) = Some v.
Proof.
  induction es as [|[k w] es IH]; simpl.
  - now rewrite String.eqb_refl.
  - destruct (String.eqb k x) eqn:E; simpl; rewrite E; auto.
Qed.

Lemma entry_lookup_set_other x y v es :
  x <> y -> entry_lookup y (entry_set x v es) = entry_lookup y es.
Proof.
  intros Hxy. induction es as [|[k w] es IH]; simpl.
  - destruct (String.eqb x y) eqn:E; auto.
    apply String.eqb_eq in E. contradiction.
  - destruct (String.eqb k x) eqn:E; simpl.
    + apply String.eqb_eq in E. subst k.
      destruct (String.eqb x y) eqn:E'; auto.
      apply String.eqb_eq in E'. contradiction.
    + destruct (String.eqb k y); auto.
Qed.

Lemma lookup_fresh_dirs now p q :
  as_file (lookup q (fresh_dirs now p)) = None
  /\ (as_dir (lookup q (fresh_dirs now p)) = true -> is_prefix q p = true).
Proof.
  revert q. induction p as [|x p IH]; intros [|y q]; simpl;
    try (split; [reflexivity | first [reflexivity | discriminate]]).
  rewrite String.eqb_sym. destruct (String.eqb y x) eqn:E; simpl.
  - apply IH.
  - split; [reflexivity | discriminate].
Qed.

Lemma makedirs_node_frame now p : forall n n',
  makedirs_node now p n = Ok n' ->
  forall q,
    as_file (lookup q n') = as_file (lookup q n)
    /\ (as_dir (lookup q n') = true ->
        as_dir (lookup q n) = true \/ is_prefix q p = true).
Proof.
  induction p as [|x p IH]; intros n n' H q; simpl in H.
  - destruct n; inversion H; subst. auto.
  - destruct n as [|m es]; [discriminate|].
    destruct (entry_lookup x es) as [c|] eqn:Ex.
    + destruct (makedirs_node now p c) as [c'|] eqn:Hc; simpl in H; inversion H; subst.
      destruct q as [|y q]; simpl; auto.
      destruct (String.eqb_spec x y) as [->|Hne].
      * rewrite entry_lookup_set_same, Ex.
        destruct (IH _ _ Hc q) as [Hf Hd]. rewrite String.eqb_refl. simpl.
        split; auto.
      * rewrite entry_lookup_set_other by auto. auto.
    + inversion H; subst.
      destruct q as [|y q]; simpl; auto.
      destruct (String.eqb_spec x y) as [->|Hne].
      * rewrite entry_lookup_set_same, Ex.
        destruct (lookup_fresh_dirs now p q) as [Hf Hd].
        rewrite String.eqb_refl. simpl. split; auto.
      * rewrite entry_lookup_set_other by auto.
        destruct (String.eqb y x) eqn:E;
          [apply String.eqb_eq in E; subst; contradiction|].
        simpl. split; auto.
Qed.

Lemma write_node_frame now p d m : forall n n',
  write_node now p (File d m) n = Ok n' ->
  as_file (lookup p n') = Some (d, m)
  /\ (forall q, q <> p -> as_file (lookup q n') = as_file (lookup q n))
  /\ (forall q, as_dir (lookup q n') = as_dir (lookup q n)).
Proof.
  induction p as [|x p IH]; intros n n' H; simpl in H.
  - destruct n; inversion H; subst. split; [reflexivity|].
    split; intros [|y q]; simpl; try reflexivity; intros; congruence.
  - destruct n as [|m0 es]; [discriminate|].
    destruct (entry_lookup x es) as [c|] eqn:Ex.
    + destruct (write_node now p (File d m) c) as [c'|] eqn:Hc;
        simpl in H; inversion H; subst.
      destruct (IH _ _ Hc) as (Hs & Hf & Hd).
      simpl. rewrite entry_lookup_set_same. split; [assumption|].
      split; intros [|y q]; simpl; try reflexivity; intros.
      * destruct (String.eqb_spec x y) as [->|Hne].
        -- rewrite entry_lookup_set_same, Ex. apply Hf. congruence.
        -- now rewrite entry_lookup_set_other.
      * destruct (String.eqb_spec x y) as [->|Hne].
        -- rewrite entry_lookup_set_same, Ex. apply Hd.
        -- now rewrite entry_lookup_set_other.
    + destruct p as [|z p]; [|discriminate]. inversion H; subst.
      simpl. rewrite entry_lookup_set_same. split; [reflexivity|].
      split; intros [|y q]; simpl; try reflexivity; intros.
      * destruct (String.eqb_spec x y) as [->|Hne].
        -- rewrite entry_lookup_set_same, Ex.
           destruct q; [congruence | reflexivity].
        -- now rewrite entry_lookup_set_other.
      * destruct (String.eqb_spec x y) as [->|Hne].
        -- rewrite entry_lookup_set_same, Ex. destruct q; reflexivity.
        -- now rewrite entry_lookup_set_other.
Qed.

Lemma makedirs_frame now p t t' :
  makedirs now p t = Ok t' ->
  forall q,
    file_at q t' = file_at q t
    /\ (path_isdir q t' = true -> path_isdir q t = true \/ is_prefix q p = true).
Proof.
  unfold makedirs, file_at, path_isdir. intros H q.
  change (as_file (tree_lookup q t') = as_file (tree_lookup q t)
          /\ (as_dir (tree_lookup q t') = true ->
              as_dir (tree_lookup q t) = true \/ is_prefix q p = true)).
  destruct t as [n|].
  - destruct (makedirs_node now p n) as [n'|] eqn:E; simpl in H; inversion H; subst.
    simpl. eapply makedirs_node_frame; eauto.
  - inversion H; subst. simpl.
    destruct (lookup_fresh_dirs now p q) as [Hf Hd]. rewrite Hf. auto.
Qed.

Lemma write_file_frame now p d m t t' :
  write_file now p (File d m) t = Ok t' ->
  file_at p t' = Some (d, m)
  /\ (forall q, q <> p -> file_at q t' = file_at q t)
  /\ (forall q, path_isdir q t' = path_isdir q t).
Proof.
  unfold write_file, file_at, path_isdir. intros H.
  change (as_file (tree_lookup p t') = Some (d, m)
          /\ (forall q, q <> p -> as_file (tree_lookup q t') = as_file (tree_lookup q t))
          /\ (forall q, as_dir (tree_lookup q t') = as_dir (tree_lookup q t))).
  destruct t as [n|].
  - destruct (write_node now p (File d m) n) as [n'|] eqn:E; simpl in H;
      inversion H; subst.
    simpl. eapply write_node_frame; eauto.
  - destruct p; [|discriminate]. inversion H; subst. simpl.
    split; [reflexivity|].
    split; intros [|y q]; simpl; try reflexivity; intros; congruence.
Qed.

(** ** Paths that stay *)

Lemma makedirs_node_keeps_dirs now p : forall n n',
  makedirs_node now p n = Ok n' ->
  forall q, as_dir (lookup q n) = true -> as_dir (lookup q n') = true.
Proof.
  induction p as [|x p IH]; intros n n' H q Hq; simpl in H.
  - destruct n; inversion H; subst. assumption.
  - destruct n as [|m es]; [discriminate|].
    destruct (entry_lookup x es) as [c|] eqn:Ex.
    + destruct (makedirs_node now p c) as [c'|] eqn:Hc; simpl in H; inversion H; subst.
      destruct q as [|y q]; simpl in *; auto.
      destruct (String.eqb_spec x y) as [->|Hne].
      * rewrite entry_lookup_set_same. rewrite Ex in Hq. eauto.
      * now rewrite entry_lookup_set_other.
    + inversion H; subst.
      destruct q as [|y q]; simpl in *; auto.
      destruct (String.eqb_spec x y) as [->|Hne].
      * rewrite Ex in Hq. discriminate.
      * now rewrite entry_lookup_set_other.
Qed.

Lemma makedirs_keeps_dirs now p t t' :
  makedirs now p t = Ok t' ->
  forall q, path_isdir q t = true -> path_isdir q t' = true.
Proof.
  unfold makedirs, path_isdir. intros H q Hq.
  change (as_dir (tree_lookup q t') = true).
  change (as_dir (tree_lookup q t) = true) in Hq.
  destruct t as [n|]; [|discriminate].
  destruct (makedirs_node now p n) as [n'|] eqn:E; simpl in H; inversion H; subst.
  simpl in *. eapply makedirs_node_keeps_dirs; eauto.
Qed.

Lemma path_exists_shape p t :
  path_exists p t = true <-> file_at p t <> None \/ path_isdir p t = true.
Proof.
  unfold path_exists, file_at, path_isdir.
  destruct (tree_lookup p t) as [[d m|m es]|]; split; intros H; auto;
    try discriminate.
  - left. discriminate.
  - destruct H as [H|H]; [congruence | discriminate].
Qed.

Lemma write_file_keeps now p d m t t' :
  write_file now p (File d m) t = Ok t' ->
  forall q, path_exists q t = true -> path_exists q t' = true.
Proof.
  intros H q Hq. destruct (write_file_frame now p d m t t' H) as (Hp & Hf & Hd).
  apply path_exists_shape. apply path_exists_shape in Hq.
  destruct Hq as [Hq|Hq].
  - left. destruct (path_eq_dec q p) as [->|Hne]; [congruence|].
    now rewrite Hf.
  - right. now rewrite Hd.
Qed.

Lemma makedirs_keeps now p t t' :
  makedirs now p t = Ok t' ->
  forall q, path_exists q t = true -> path_exists q t' = true.
Proof.
  intros H q Hq. apply path_exists_shape. apply path_exists_shape in Hq.
  destruct Hq as [Hq|Hq].
  - left. destruct (makedirs_frame now p t t' H q) as [-> _]. assumption.
  - right. eapply makedirs_keeps_dirs; eauto.
Qed.

Lemma copy2_keeps now src name dst t t' :
  copy2 now src name dst t = Ok t' ->
  forall q, path_exists q t = true -> path_exists q t' = true.
Proof.
  unfold copy2. destruct src as [[d m|m es]|]; try discriminate.
  apply write_file_keeps.
Qed.

(** ** Shapes of a path *)

Lemma snoc_not_nil (r : path) (f : string) : r ++ [f] <> [].
Proof. destruct r; discriminate. Qed.

Lemma lookup_below_file q f : forall n d m,
  lookup q n = Some (File d m) -> lookup (q ++ [f]) n = None.
Proof.
  induction q as [|x q IH]; intros n d m H; simpl in *.
  - inversion H; subst. reflexivity.
  - destruct n as [|m0 es]; [discriminate|].
    destruct (entry_lookup x es); [eauto | discriminate].
Qed.

Lemma file_at_below_file q f t s :
  file_at q t = Some s -> file_at (q ++ [f]) t = None.
Proof.
  unfold file_at. destruct t as [n|]; simpl; [|discriminate].
  destruct (lookup q n) as [[d m|? ?]|] eqn:E; try discriminate.
  intros _. now rewrite (lookup_below_file q f n d m E).
Qed.

Lemma getmtime_file p T d m :
  file_at p T = Some (d, m) -> getmtime p T = Ok m.
Proof.
  unfold file_at, getmtime.
  destruct (tree_lookup p T) as [[d' m'|m' es]|]; intros H; inversion H; auto.
Qed.

Lemma getmtime_not_dir p T m :
  getmtime p T = Ok m -> path_isdir p T = false ->
  exists d, file_at p T = Some (d, m).
Proof.
  unfold getmtime, path_isdir, file_at.
  destruct (tree_lookup p T) as [[d' m'|m' es]|]; intros H1 H2;
    try discriminate; inversion H1; subst; eauto.
Qed.

Lemma exists_not_dir_file p T :
  path_exists p T = true -> path_isdir p T = false ->
  exists d m, file_at p T = Some (d, m).
Proof.
  unfold path_exists, path_isdir, file_at.
  destruct (tree_lookup p T) as [[d' m'|m' es]|]; intros; try discriminate; eauto.
Qed.

Lemma not_exists_no_file p T :
  path_exists p T = false -> file_at p T = None /\ path_isdir p T = false.
Proof.
  unfold path_exists, path_isdir, file_at.
  destruct (tree_lookup p T) as [[d' m'|m' es]|]; intros; try discriminate; auto.
Qed.

Lemma file_is_not_dir p T s : file_at p T = Some s -> path_isdir p T = false.
Proof.
  unfold path_isdir, file_at.
  destruct (tree_lookup p T) as [[d' m'|m' es]|]; intros; try discriminate; auto.
Qed.

Lemma last_modified_mtime s c : snd s <= snd (last_modified s c).
Proof.
  destruct c as [c|]; simpl; [|lia].
  destruct (snd s >? snd c) eqn:E; simpl; lia.
Qed.

Lemma last_modified_keeps s c : snd c <= snd (last_modified s (Some c)).
Proof. simpl. destruct (snd s >? snd c) eqn:E; simpl; lia. Qed.

(** ** The merge loop *)

Section MergeInvariant.
Variable now : Z.
Variables S C : tree.

(** What one pass of the inner loop body can have done. *)
Lemma merge_file_cases root f st st' r :
  merge_file now S root f st = (st', r) ->
  let p := root ++ [f] in
  let T := ms_target st in
  (r <> Ok tt /\ st' = st)
  \/ (r = Ok tt /\ ms_target st' = T /\ path_exists p T = true /\
      exists ms mt, getmtime p S = Ok ms /\ getmtime p T = Ok mt /\ ms <= mt)
  \/ (r = Ok tt /\
      (path_exists p T = false \/
       exists ms mt, getmtime p S = Ok ms /\ getmtime p T = Ok mt /\ ms > mt) /\
      copy2 now (tree_lookup p S) f p T = Ok (ms_target st')).
Proof.
  unfold merge_file, bind, gets, lift_res, on_target, pbar_update1, modify, ret.
  destruct st as [T bar]. cbn. intros H.
  destruct (path_exists (root ++ [f]) T) eqn:Ex; cbn in H.
  - destruct (getmtime (root ++ [f]) S) as [ms|e] eqn:Hs; cbn in H;
      [|inversion H; subst; left; split; [discriminate | reflexivity]].
    destruct (getmtime (root ++ [f]) T) as [mt|e] eqn:Ht; cbn in H;
      [|inversion H; subst; left; split; [discriminate | reflexivity]].
    destruct (ms >? mt) eqn:Hgt; cbn in H.
    + destruct (copy2 now (tree_lookup (root ++ [f]) S) f (root ++ [f]) T)
        as [T'|e] eqn:Hc; cbn in H; inversion H; subst; cbn.
      * right; right. split; [reflexivity|]. split; [|reflexivity].
        right. exists ms, mt. repeat split; auto. lia.
      * left. split; [discriminate | reflexivity].
    + inversion H; subst; cbn.
      right; left. repeat split; auto. exists ms, mt. repeat split; auto. lia.
  - destruct (copy2 now (tree_lookup (root ++ [f]) S) f (root ++ [f]) T)
      as [T'|e] eqn:Hc; cbn in H; inversion H; subst; cbn.
    + right; right. split; [reflexivity|]. split; [left|]; reflexivity.
    + left. split; [discriminate | reflexivity].
Qed.

(** [copy2] writes the source file at the path it is given, or below it
    when that path is a directory, and nowhere else. *)
Lemma copy2_frame p f T T' :
  copy2 now (tree_lookup p S) f p T = Ok T' ->
  exists d m, file_at p S = Some (d, m)
    /\ file_at (if path_isdir p T then p ++ [f] else p) T' = Some (d, m)
    /\ (forall q, q <> (if path_isdir p T then p ++ [f] else p) ->
                  file_at q T' = file_at q T)
    /\ (forall q, path_isdir q T' = path_isdir q T).
Proof.
  unfold copy2. unfold file_at at 1.
  destruct (tree_lookup p S) as [[d m|m es]|]; try discriminate.
  intros H. exists d, m. split; [reflexivity|].
  exact (write_file_frame now _ d m T T' H).
Qed.

Lemma merge_file_inv root f st st' r :
  merge_inv S C (ms_target st) ->
  merge_file now S root f st = (st', r) ->
  merge_inv S C (ms_target st')
  /\ (forall p, settled S C p (ms_target st) -> settled S C p (ms_target st'))
  /\ (r = Ok tt -> settled S C (root ++ [f]) (ms_target st')).
Proof.
  intros [I1 I2] H. apply merge_file_cases in H.
  destruct st as [T bar]. simpl in *.
  set (p := root ++ [f]) in *.
  assert (Hpne : p <> []) by apply snoc_not_nil.
  assert (Hnot3 : forall s, file_at p S = Some s ->
            ~ exists q g, p = q ++ [g] /\ q <> [] /\ file_at q S <> None
                          /\ path_isdir q C = true).
  { intros s Hs (q & g & Hq & _ & Hqs & _). rewrite Hq in Hs.
    destruct (file_at q S) as [sq|] eqn:E; [|congruence].
    rewrite (file_at_below_file q g S sq E) in Hs. discriminate. }
  destruct H as [[Hr ->] | [(-> & HT & Hex & ms & mt & Hs & Ht & Hle)
                           | (-> & Hwhy & Hc)]].
  - split; [split; assumption|]. split; [auto|]. intros; contradiction.
  - rewrite HT. split; [split; assumption|]. split; [auto|].
    intros _ s Hsrc HndC. destruct s as [d m].
    rewrite (getmtime_file _ _ _ _ Hsrc) in Hs. inversion Hs; subst ms.
    assert (Hnd : path_isdir p T = false)
      by (rewrite I2; [assumption | assumption | congruence]).
    destruct (exists_not_dir_file _ _ Hex Hnd) as (dt & mt' & HfT).
    rewrite (getmtime_file _ _ _ _ HfT) in Ht. inversion Ht; subst mt'.
    destruct (I1 p) as [Hsame | [(s' & Hs' & HT') | H3]].
    + rewrite HfT, <- Hsame, HfT. simpl.
      destruct (m >? mt) eqn:E; [lia | reflexivity].
    + rewrite Hsrc in Hs'. inversion Hs'; subst s'. exact HT'.
    + elim (Hnot3 _ Hsrc H3).
  - destruct (copy2_frame _ _ _ _ Hc) as (d & m & Hsrc & Hnew & Hfr & Hdir).
    destruct (path_isdir p T) eqn:Hnd.
    + (* the counterpart is a directory: the copy lands inside it *)
      assert (HdC : path_isdir p C = true)
        by (rewrite <- I2; [assumption | assumption | congruence]).
      split; [split|split].
      * intros q. destruct (path_eq_dec q (p ++ [f])) as [->|Hne].
        -- right; right. exists p, f. repeat split; auto. congruence.
        -- rewrite (Hfr q Hne). apply I1.
      * intros q Hne Hq. rewrite Hdir. now apply I2.
      * intros q Hq s Hs HndC.
        assert (Hne : q <> p ++ [f]).
        { intros ->. rewrite (file_at_below_file p f S _ Hsrc) in Hs. discriminate. }
        rewrite (Hfr q Hne). now apply Hq.
      * intros _ s Hs HndC. congruence.
    + assert (Hset : file_at p (ms_target st')
                     = Some (last_modified (d, m) (file_at p C))).
      { rewrite Hnew. f_equal.
        destruct Hwhy as [Hne | (ms & mt & Hs & Ht & Hgt)].
        - destruct (not_exists_no_file _ _ Hne) as [HnoT _].
          destruct (I1 p) as [Hsame | [(s' & Hs' & HT') | H3]].
          + rewrite <- Hsame, HnoT. reflexivity.
          + congruence.
          + elim (Hnot3 _ Hsrc H3).
        - rewrite (getmtime_file _ _ _ _ Hsrc) in Hs. inversion Hs; subst ms.
          destruct (I1 p) as [Hsame | [(s' & Hs' & HT') | H3]].
          + rewrite <- Hsame.
            destruct (getmtime_not_dir _ _ _ Ht Hnd) as [dt HfT]. rewrite HfT.
            simpl. destruct (m >? mt) eqn:E; [reflexivity | lia].
          + rewrite Hsrc in Hs'. inversion Hs'; subst s'.
            pose proof (last_modified_mtime (d, m) (file_at p C)) as Hle.
            destruct (last_modified (d, m) (file_at p C)) as [d1 m1].
            rewrite (getmtime_file _ _ _ _ HT') in Ht. inversion Ht; subst mt.
            simpl in Hle. lia.
          + elim (Hnot3 _ Hsrc H3). }
      split; [split|split].
      * intros q. destruct (path_eq_dec q p) as [->|Hne].
        -- right; left. exists (d, m). auto.
        -- rewrite (Hfr q Hne). apply I1.
      * intros q Hne Hq. rewrite Hdir. now apply I2.
      * intros q Hq s Hs HndC. destruct (path_eq_dec q p) as [->|Hne].
        -- rewrite Hsrc in Hs. inversion Hs; subst. exact Hset.
        -- rewrite (Hfr q Hne). now apply Hq.
      * intros _ s Hs HndC. rewrite Hsrc in Hs. inversion Hs; subst. exact Hset.
Qed.

End MergeInvariant.

(** ** What [os.walk] visits *)

Lemma entry_lookup_in x c es : entry_lookup x es = Some c -> In (x, c) es.
Proof.
  induction es as [|[k w] es IH]; simpl; [discriminate|].
  destruct (String.eqb_spec k x) as [->|Hne]; intros H.
  - inversion H; subst. now left.
  - right. auto.
Qed.

Lemma names_distinct_lookup k c es :
  names_distinct (map fst es) = true -> In (k, c) es -> entry_lookup k es = Some c.
Proof.
  induction es as [|[k' w] es IH]; simpl; [contradiction|].
  intros Hd [Hin|Hin].
  - inversion Hin; subst. now rewrite String.eqb_refl.
  - apply andb_true_iff in Hd. destruct Hd as [Hfresh Hd].
    destruct (String.eqb_spec k' k) as [->|Hne]; [|auto].
    exfalso. apply negb_true_iff in Hfresh.
    assert (existsb (String.eqb k) (map fst es) = true); [|congruence].
    apply existsb_exists. exists k. split; [|apply String.eqb_refl].
    change k with (fst (k, c)). now apply in_map.
Qed.

Lemma lookup_prefix_dir q : forall r n m es,
  lookup r n = Some (Dir m es) -> is_prefix q r = true ->
  as_file (lookup q n) = None.
Proof.
  induction q as [|y q IH]; intros r n m es Hl Hp.
  - simpl. destruct n; [|reflexivity].
    destruct r; simpl in Hl; discriminate.
  - destruct r as [|x r]; simpl in Hp; [discriminate|].
    apply andb_true_iff in Hp. destruct Hp as [Hxy Hp].
    apply String.eqb_eq in Hxy. subst y.
    destruct n as [|m0 es0]; simpl in *; [reflexivity|].
    destruct (entry_lookup x es0); [|reflexivity]. eauto.
Qed.

(** In a well-formed tree every directory [os.walk] reports is reached by
    its path. *)
Lemma walk_node_roots n : forall pre r ds fs,
  wf_node n = true ->
  In (r, ds, fs) (walk_node pre n) ->
  exists r' m es, r = pre ++ r' /\ lookup r' n = Some (Dir m es).
Proof.
  induction n as [d m|m es IH] using node_ind'; intros pre r ds fs Hwf Hin.
  - contradiction.
  - simpl in Hin, Hwf. apply andb_true_iff in Hwf. destruct Hwf as [Hnd Hall].
    destruct Hin as [Heq|Hin].
    + inversion Heq; subst. exists [], m, es. now rewrite app_nil_r.
    + apply in_flat_map in Hin. destruct Hin as ([k c] & Hkc & Hin).
      rewrite Forall_forall in IH. rewrite forallb_forall in Hall.
      destruct (IH _ Hkc (pre ++ [k]) r ds fs (Hall _ Hkc) Hin)
        as (r' & m' & es' & -> & Hl).
      exists (k :: r'), m', es'. split.
      * now rewrite <- app_assoc.
      * simpl. now rewrite (names_distinct_lookup _ _ _ Hnd Hkc).
Qed.

(** Every regular file of the tree is reported, under its directory. *)
Lemma walk_node_covers r : forall n pre f d m,
  lookup (r ++ [f]) n = Some (File d m) ->
  exists ds fs, In (pre ++ r, ds, fs) (walk_node pre n) /\ In f fs.
Proof.
  induction r as [|x r IH]; intros n pre f d m Hl; simpl in Hl.
  - destruct n as [|m0 es]; [discriminate|].
    destruct (entry_lookup f es) as [c|] eqn:E; [|discriminate].
    simpl in Hl. inversion Hl; subst c.
    exists (dirnames es), (filenames es). rewrite app_nil_r. split.
    + now left.
    + unfold filenames. change f with (fst (f, File d m)). apply in_map.
      apply filter_In. split; [now apply entry_lookup_in | reflexivity].
  - destruct n as [|m0 es]; [discriminate|].
    destruct (entry_lookup x es) as [c|] eqn:E; [|discriminate].
    destruct (IH c (pre ++ [x]) f d m Hl) as (ds & fs & Hin & Hf).
    exists ds, fs. split; [|assumption].
    simpl. right. apply in_flat_map. exists (x, c).
    split; [now apply entry_lookup_in|].
    now rewrite <- app_assoc in Hin.
Qed.

Lemma file_at_walked source r f s :
  file_at (r ++ [f]) source = Some s ->
  exists ds fs, In (r, ds, fs) (os_walk source) /\ In f fs.
Proof.
  unfold file_at. destruct source as [n|]; simpl; [|discriminate].
  destruct (lookup (r ++ [f]) n) as [[d m|? ?]|] eqn:E; try discriminate.
  intros _. exact (walk_node_covers r n [] f d m E).
Qed.

Lemma walked_root_is_dir source r ds fs q :
  wf_tree source = true ->
  In (r, ds, fs) (os_walk source) ->
  is_prefix q r = true ->
  file_at q source = None.
Proof.
  destruct source as [n|]; simpl; [|contradiction].
  intros Hwf Hin Hp.
  destruct (walk_node_roots n [] r ds fs Hwf Hin) as (r' & m & es & -> & Hl).
  unfold file_at. simpl.
  pose proof (lookup_prefix_dir q r' n m es Hl Hp) as H.
  unfold as_file in H. destruct (lookup q n) as [[? ?|? ?]|]; congruence.
Qed.

Section MergeLoop.
Variable now : Z.
Variables S C : tree.
Hypothesis S_wf : wf_tree S = true.

Lemma merge_files_inv root files : forall st st' r,
  merge_inv S C (ms_target st) ->
  for_each files (merge_file now S root) st = (st', r) ->
  merge_inv S C (ms_target st')
  /\ (forall p, settled S C p (ms_target st) -> settled S C p (ms_target st'))
  /\ (r = Ok tt -> forall f, In f files -> settled S C (root ++ [f]) (ms_target st')).
Proof.
  induction files as [|f files IH]; intros st st' r Hinv H.
  - inversion H; subst. repeat split; auto; try apply Hinv. intros _ f [].
  - rewrite for_each_cons in H.
    destruct (merge_file now S root f st) as [st1 r1] eqn:Hf.
    destruct (merge_file_inv now S C root f st st1 r1 Hinv Hf) as (Hinv1 & Hkeep1 & Hset1).
    destruct r1 as [[]|e].
    + destruct (IH st1 st' r Hinv1 H) as (Hinv2 & Hkeep2 & Hset2).
      split; [assumption|]. split; [auto|].
      intros Hr g [<-|Hg]; auto.
    + inversion H; subst. split; [assumption|]. split; [auto|]. discriminate.
Qed.

Lemma merge_makedirs_inv root st st' r :
  (forall q, is_prefix q root = true -> file_at q S = None) ->
  merge_inv S C (ms_target st) ->
  on_target (makedirs now root) st = (st', r) ->
  merge_inv S C (ms_target st')
  /\ (forall p, settled S C p (ms_target st) -> settled S C p (ms_target st')).
Proof.
  intros Hroot [I1 I2]. unfold on_target.
  destruct (makedirs now root (ms_target st)) as [T'|e] eqn:E;
    intros H; inversion H; subst; simpl; [|split; [split|]; auto].
  pose proof (makedirs_frame now root _ _ E) as Hfr.
  split; [split|].
  - intros p. destruct (Hfr p) as [-> _]. apply I1.
  - intros p Hne Hp. rewrite <- (I2 p Hne Hp).
    destruct (path_isdir p T') eqn:Hd.
    + destruct (Hfr p) as [_ Hnew]. destruct (Hnew Hd) as [Hold|Hpre]; [auto|].
      elim Hp. auto.
    + destruct (path_isdir p (ms_target st)) eqn:Hd0; [|reflexivity].
      rewrite (makedirs_keeps_dirs now root _ _ E p Hd0) in Hd. discriminate.
  - intros p Hp s Hs HndC. destruct (Hfr p) as [-> _]. auto.
Qed.

Lemma merge_dir_inv root ds files st st' r :
  In (root, ds, files) (os_walk S) ->
  merge_inv S C (ms_target st) ->
  merge_dir now S (root, ds, files) st = (st', r) ->
  merge_inv S C (ms_target st')
  /\ (forall p, settled S C p (ms_target st) -> settled S C p (ms_target st'))
  /\ (r = Ok tt -> forall f, In f files -> settled S C (root ++ [f]) (ms_target st')).
Proof.
  intros Hin Hinv. unfold merge_dir, bind.
  destruct (on_target (makedirs now root) st) as [st1 r1] eqn:Hm.
  assert (Hroot : forall q, is_prefix q root = true -> file_at q S = None)
    by (intros q; eapply walked_root_is_dir; eauto).
  destruct (merge_makedirs_inv root st st1 r1 Hroot Hinv Hm) as (Hinv1 & Hkeep1).
  destruct r1 as [[]|e]; intros H.
  - destruct (merge_files_inv root files st1 st' r Hinv1 H) as (Hinv2 & Hkeep2 & Hset2).
    split; [assumption|]. split; auto.
  - inversion H; subst. split; [assumption|]. split; [auto|]. discriminate.
Qed.

Lemma merge_walk_inv items : forall st st' r,
  incl items (os_walk S) ->
  merge_inv S C (ms_target st) ->
  for_each items (merge_dir now S) st = (st', r) ->
  merge_inv S C (ms_target st')
  /\ (forall p, settled S C p (ms_target st) -> settled S C p (ms_target st'))
  /\ (r = Ok tt -> forall root ds files f,
         In (root, ds, files) items -> In f files ->
         settled S C (root ++ [f]) (ms_target st')).
Proof.
  induction items as [|[[root ds] files] items IH]; intros st st' r Hincl Hinv H.
  - inversion H; subst. repeat split; auto; try apply Hinv. intros _ ? ? ? ? [].
  - rewrite for_each_cons in H.
    destruct (merge_dir now S (root, ds, files) st) as [st1 r1] eqn:Hd.
    assert (Hin : In (root, ds, files) (os_walk S)) by (apply Hincl; now left).
    destruct (merge_dir_inv root ds files st st1 r1 Hin Hinv Hd)
      as (Hinv1 & Hkeep1 & Hset1).
    destruct r1 as [[]|e].
    + assert (Hincl' : incl items (os_walk S))
        by (intros x Hx; apply Hincl; now right).
      destruct (IH st1 st' r Hincl' Hinv1 H) as (Hinv2 & Hkeep2 & Hset2).
      split; [assumption|]. split; [auto|].
      intros Hr root' ds' files' f [Heq|Hin'] Hf.
      * inversion Heq; subst. auto.
      * eauto.
    + inversion H; subst. split; [assumption|]. split; [auto|]. discriminate.
Qed.

Lemma merge_inv_init : merge_inv S C C.
Proof. split; [now left | reflexivity]. Qed.

(** The merge as a whole: the invariant at the end, and every file of the
    source settled when the call returns normally. *)
Lemma merge_directories_inv progress T bar r :
  merge_directories now S C progress = (T, bar, r) ->
  merge_inv S C T
  /\ (r = Ok tt -> forall root f, settled S C (root ++ [f]) T).
Proof.
  unfold merge_directories, bind.
  set (st0 := mk_merge_state C _).
  destruct (for_each (os_walk S) (merge_dir now S) st0) as [st1 r1] eqn:Hw.
  destruct (merge_walk_inv (os_walk S) st0 st1 r1 (incl_refl _)
              merge_inv_init Hw) as (Hinv & _ & Hset).
  destruct r1 as [[]|e]; simpl; intros H; inversion H; subst.
  - split; [assumption|]. intros _ root f s Hs.
    destruct (file_at_walked S root f s Hs) as (ds & fs & Hin & Hf).
    exact (Hset eq_refl root ds fs f Hin Hf s Hs).
  - split; [assumption|]. discriminate.
Qed.

End MergeLoop.

(** ** Merge: the decision rule, monotonicity, order of merges *)

Lemma no_file_over_dir_spec S C q :
  no_file_over_dir S C = true ->
  q <> [] -> file_at q S <> None -> path_isdir q C = false.
Proof.
  intros Hno Hne Hq. destruct (file_at q S) as [s|] eqn:Hs; [|congruence].
  destruct (exists_last Hne) as (r & f & ->).
  destruct (file_at_walked S r f s Hs) as (ds & fs & Hin & Hf).
  unfold no_file_over_dir in Hno. rewrite forallb_forall in Hno.
  apply negb_true_iff. apply Hno. unfold walk_files.
  apply in_flat_map. exists (r, ds, fs). split; [assumption|].
  exact (in_map (fun g => r ++ [g]) fs f Hf).
Qed.

Lemma merge_inv_monotone S C T p d m :
  no_file_over_dir S C = true ->
  merge_inv S C T ->
  file_at p C = Some (d, m) ->
  exists d' m', file_at p T = Some (d', m') /\ m <= m'.
Proof.
  intros Hno [I1 _] Hc.
  destruct (I1 p) as [Hsame | [(s & Hs & HT) | (q & f & -> & Hne & Hq & Hd)]].
  - exists d, m. split; [congruence | lia].
  - rewrite Hc in HT. pose proof (last_modified_keeps s (d, m)) as Hle.
    destruct (last_modified s (Some (d, m))) as [d' m']. simpl in Hle. eauto.
  - rewrite (no_file_over_dir_spec S C q Hno Hne Hq) in Hd. discriminate.
Qed.

Lemma merge_run_monotone T T2 :
  merge_run T T2 ->
  forall p d m, file_at p T = Some (d, m) ->
  exists d' m', file_at p T2 = Some (d', m') /\ m <= m'.
Proof.
  induction 1 as [T | now source progress T T1 bar r T2 Hwf Hno Hm Hrun IH];
    intros p d m Hp.
  - exists d, m. split; [assumption | lia].
  - destruct (merge_directories_inv now source T Hwf progress T1 bar r Hm)
      as [Hinv _].
    destruct (merge_inv_monotone _ _ _ _ _ _ Hno Hinv Hp) as (d1 & m1 & H1 & Hle1).
    destruct (IH p d1 m1 H1) as (d2 & m2 & H2 & Hle2).
    exists d2, m2. split; [assumption | lia].
Qed.

(** ** When a merge returns normally *)

Lemma lookup_app p : forall q n,
  lookup (p ++ q) n
  = match lookup p n with Some c => lookup q c | None => None end.
Proof.
  induction p as [|x p IH]; intros q n; simpl; [reflexivity|].
  destruct n as [|m es]; [reflexivity|].
  destruct (entry_lookup x es); [apply IH | reflexivity].
Qed.

Lemma lookup_prefix_isdir q : forall r n m es,
  lookup r n = Some (Dir m es) -> is_prefix q r = true ->
  as_dir (lookup q n) = true.
Proof.
  induction q as [|y q IH]; intros r n m es Hl Hp.
  - simpl. destruct n; [|reflexivity].
    destruct r; simpl in Hl; discriminate.
  - destruct r as [|x r]; simpl in Hp; [discriminate|].
    apply andb_true_iff in Hp. destruct Hp as [Hxy Hp].
    apply String.eqb_eq in Hxy. subst y.
    destruct n as [|m0 es0]; simpl in *; [discriminate|].
    destruct (entry_lookup x es0); [eauto | discriminate].
Qed.

(** The files [os.walk] reports in a directory of a well-formed tree are
    regular files of the tree. *)
Lemma walk_node_files n : forall pre r ds fs f,
  wf_node n = true ->
  In (r, ds, fs) (walk_node pre n) -> In f fs ->
  exists r' d m, r = pre ++ r' /\ lookup (r' ++ [f]) n = Some (File d m).
Proof.
  induction n as [d m|m es IH] using node_ind'; intros pre r ds fs f Hwf Hin Hf.
  - contradiction.
  - simpl in Hin, Hwf. apply andb_true_iff in Hwf. destruct Hwf as [Hnd Hall].
    destruct Hin as [Heq|Hin].
    + inversion Heq; subst. unfold filenames in Hf.
      apply in_map_iff in Hf. destruct Hf as ([k c] & <- & Hkc).
      apply filter_In in Hkc. destruct Hkc as [Hkc Hfile]. simpl in *.
      destruct c as [d0 m0|? ?]; [|discriminate].
      exists [], d0, m0. split; [now rewrite app_nil_r|].
      simpl. now rewrite (names_distinct_lookup _ _ _ Hnd Hkc).
    + apply in_flat_map in Hin. destruct Hin as ([k c] & Hkc & Hin).
      rewrite Forall_forall in IH. rewrite forallb_forall in Hall.
      destruct (IH _ Hkc (pre ++ [k]) r ds fs f (Hall _ Hkc) Hin Hf)
        as (r' & d0 & m0 & -> & Hl).
      exists (k :: r'), d0, m0. split.
      * now rewrite <- app_assoc.
      * simpl. now rewrite (names_distinct_lookup _ _ _ Hnd Hkc).
Qed.

Lemma walked_file source r ds fs f :
  wf_tree source = true ->
  In (r, ds, fs) (os_walk source) -> In f fs ->
  exists d m, file_at (r ++ [f]) source = Some (d, m).
Proof.
  destruct source as [n|]; simpl; [|contradiction].
  intros Hwf Hin Hf.
  destruct (walk_node_files n [] r ds fs f Hwf Hin Hf) as (r' & d & m & -> & Hl).
  exists d, m. unfold file_at. simpl. now rewrite Hl.
Qed.

(** Every directory of the tree is reported. *)
Lemma walk_node_covers_dirs r : forall n pre m es,
  lookup r n = Some (Dir m es) ->
  In (pre ++ r, dirnames es, filenames es) (walk_node pre n).
Proof.
  induction r as [|x r IH]; intros n pre m es Hl; simpl in Hl.
  - inversion Hl; subst. rewrite app_nil_r. now left.
  - destruct n as [|m0 es0]; [discriminate|].
    destruct (entry_lookup x es0) as [c|] eqn:E; [|discriminate].
    simpl. right. apply in_flat_map. exists (x, c).
    split; [now apply entry_lookup_in|].
    specialize (IH c (pre ++ [x]) m es Hl). now rewrite <- app_assoc in IH.
Qed.

Lemma no_dir_over_file_spec S C q :
  no_dir_over_file S C = true -> path_isdir q S = true -> file_at q C = None.
Proof.
  unfold no_dir_over_file, path_isdir. intros Hno Hq.
  destruct S as [n|]; simpl in Hq; [|discriminate].
  destruct (lookup q n) as [[? ?|m es]|] eqn:E; try discriminate.
  rewrite forallb_forall in Hno.
  specialize (Hno _ (walk_node_covers_dirs q n [] m es E)). simpl in Hno.
  destruct (file_at q C); [discriminate | reflexivity].
Qed.

Lemma lookup_fresh_dirs_self now p : as_dir (lookup p (fresh_dirs now p)) = true.
Proof.
  induction p as [|x p IH]; simpl; [reflexivity|].
  now rewrite String.eqb_refl.
Qed.

Lemma makedirs_node_ok now r : forall n,
  (forall q, is_prefix q r = true -> as_file (lookup q n) = None) ->
  exists n', makedirs_node now r n = Ok n' /\ as_dir (lookup r n') = true.
Proof.
  induction r as [|x r IH]; intros n Hfree.
  - specialize (Hfree [] eq_refl). simpl in *.
    destruct n; [discriminate|]. eauto.
  - pose proof (Hfree [] eq_refl) as Hroot. simpl in Hroot.
    destruct n as [|m es]; [discriminate|]. simpl.
    destruct (entry_lookup x es) as [c|] eqn:Ex.
    + destruct (IH c) as (c' & Hc & Hd).
      { intros q Hq. specialize (Hfree (x :: q)). simpl in Hfree.
        rewrite String.eqb_refl, Ex in Hfree. now apply Hfree. }
      rewrite Hc. simpl. eexists. split; [reflexivity|].
      simpl. now rewrite entry_lookup_set_same.
    + eexists. split; [reflexivity|].
      simpl. rewrite entry_lookup_set_same. apply lookup_fresh_dirs_self.
Qed.

Lemma makedirs_ok now r t :
  (forall q, is_prefix q r = true -> file_at q t = None) ->
  exists t', makedirs now r t = Ok t' /\ path_isdir r t' = true.
Proof.
  intros Hfree. unfold makedirs, path_isdir. destruct t as [n|].
  - destruct (makedirs_node_ok now r n) as (n' & Hn & Hd).
    { intros q Hq. specialize (Hfree q Hq). unfold file_at in Hfree. simpl in Hfree.
      unfold as_file. destruct (lookup q n) as [[? ?|? ?]|]; congruence. }
    rewrite Hn. simpl. exists (Some n'). split; [reflexivity|].
    simpl. unfold as_dir in Hd. destruct (lookup r n') as [[? ?|? ?]|]; congruence.
  - exists (Some (fresh_dirs now r)). split; [reflexivity|]. simpl.
    pose proof (lookup_fresh_dirs_self now r) as Hd. unfold as_dir in Hd.
    destruct (lookup r (fresh_dirs now r)) as [[? ?|? ?]|]; congruence.
Qed.

Lemma write_node_ok now r f d m : forall n,
  as_dir (lookup r n) = true ->
  as_dir (lookup (r ++ [f]) n) = false ->
  exists n', write_node now (r ++ [f]) (File d m) n = Ok n'.
Proof.
  induction r as [|x r IH]; intros n Hd Hnd; simpl in *.
  - destruct n as [|m0 es]; [discriminate|].
    destruct (entry_lookup f es) as [c|]; [|eauto].
    destruct c; [simpl; eauto | discriminate].
  - destruct n as [|m0 es]; [discriminate|].
    destruct (entry_lookup x es) as [c|]; [|discriminate].
    destruct (IH c Hd Hnd) as [c' Hc]. rewrite Hc. simpl. eauto.
Qed.

Lemma write_file_ok now r f d m t :
  path_isdir r t = true ->
  path_isdir (r ++ [f]) t = false ->
  exists t', write_file now (r ++ [f]) (File d m) t = Ok t'.
Proof.
  unfold path_isdir, write_file. destruct t as [n|]; simpl; [|discriminate].
  intros Hd Hnd.
  destruct (write_node_ok now r f d m n) as [n' Hn].
  - destruct (lookup r n) as [[? ?|? ?]|]; try discriminate; reflexivity.
  - destruct (lookup (r ++ [f]) n) as [[? ?|? ?]|]; try discriminate; reflexivity.
  - rewrite Hn. simpl. eauto.
Qed.

Section MergeReturns.
Variable now : Z.
Variables S C : tree.
Hypothesis S_wf : wf_tree S = true.
Hypothesis no_clash_1 : no_file_over_dir S C = true.
Hypothesis no_clash_2 : no_dir_over_file S C = true.

Lemma merge_clear_not_dir T root f s :
  merge_clear S C T -> file_at (root ++ [f]) S = Some s ->
  path_isdir (root ++ [f]) T = false.
Proof.
  intros [[_ I2] _] Hs. rewrite I2; [|apply snoc_not_nil | congruence].
  apply no_file_over_dir_spec with (S := S); auto;
    [apply snoc_not_nil | congruence].
Qed.

Lemma merge_file_returns root f st d m :
  merge_clear S C (ms_target st) ->
  path_isdir root (ms_target st) = true ->
  file_at (root ++ [f]) S = Some (d, m) ->
  exists st', merge_file now S root f st = (st', Ok tt)
              /\ merge_clear S C (ms_target st')
              /\ path_isdir root (ms_target st') = true.
Proof.
  intros Hclear Hroot Hs.
  pose proof (merge_clear_not_dir _ root f _ Hclear Hs) as Hnd.
  destruct (merge_file now S root f st) as [st' r] eqn:Hrun.
  assert (Hcopy : exists T', copy2 now (tree_lookup (root ++ [f]) S) f (root ++ [f])
                                   (ms_target st) = Ok T').
  { unfold copy2. rewrite Hnd. unfold file_at in Hs.
    destruct (tree_lookup (root ++ [f]) S) as [[d0 m0|? ?]|]; try discriminate.
    now apply write_file_ok. }
  destruct Hcopy as [T' Hcopy].
  assert (Hr : r = Ok tt).
  { revert Hrun.
    unfold merge_file, bind, gets, lift_res, on_target, pbar_update1, modify, ret.
    destruct st as [T bar]. cbn in *.
    rewrite (getmtime_file _ _ _ _ Hs).
    destruct (path_exists (root ++ [f]) T) eqn:Ex; cbn.
    - destruct (exists_not_dir_file _ _ Ex Hnd) as (dt & mt & HfT).
      rewrite (getmtime_file _ _ _ _ HfT). cbn.
      destruct (m >? mt); cbn; [rewrite Hcopy; cbn|]; intros H; now inversion H.
    - rewrite Hcopy. cbn. intros H; now inversion H. }
  subst r. exists st'. split; [reflexivity|].
  destruct Hclear as [Hinv Hfree].
  destruct (merge_file_inv now S C root f st st' (Ok tt) Hinv Hrun) as (Hinv' & _ & _).
  pose proof (merge_file_cases now S root f st st' (Ok tt) Hrun) as Hcases.
  simpl in Hcases.
  destruct Hcases as [[Hr _] | [(_ & HT & _) | (_ & _ & Hc)]].
  - congruence.
  - rewrite HT. split; [split; [exact Hinv | exact Hfree] | exact Hroot].
  - destruct (copy2_frame now S _ _ _ _ Hc) as (d1 & m1 & _ & _ & Hfr & Hdir).
    rewrite Hnd in Hfr. split; [split; [assumption|]|].
    + intros q Hq. rewrite Hfr; [now apply Hfree|].
      intros ->. unfold path_isdir in Hq. unfold file_at in Hs.
      destruct (tree_lookup (root ++ [f]) S) as [[? ?|? ?]|]; discriminate.
    + now rewrite Hdir.
Qed.

Lemma merge_files_return root files : forall st,
  merge_clear S C (ms_target st) ->
  path_isdir root (ms_target st) = true ->
  (forall f, In f files -> exists d m, file_at (root ++ [f]) S = Some (d, m)) ->
  exists st', for_each files (merge_file now S root) st = (st', Ok tt)
              /\ merge_clear S C (ms_target st').
Proof.
  induction files as [|f files IH]; intros st Hclear Hroot Hfiles.
  - exists st. split; [reflexivity | assumption].
  - destruct (Hfiles f (or_introl eq_refl)) as (d & m & Hs).
    destruct (merge_file_returns root f st d m Hclear Hroot Hs)
      as (st1 & Hrun & Hclear1 & Hroot1).
    destruct (IH st1 Hclear1 Hroot1) as (st' & Hrest & Hclear').
    { intros g Hg. apply Hfiles. now right. }
    exists st'. split; [|assumption].
    rewrite for_each_cons, Hrun. exact Hrest.
Qed.

Lemma merge_dir_returns root ds files st :
  In (root, ds, files) (os_walk S) ->
  merge_clear S C (ms_target st) ->
  exists st', merge_dir now S (root, ds, files) st = (st', Ok tt)
              /\ merge_clear S C (ms_target st').
Proof.
  intros Hin [Hinv Hfree].
  assert (Hroot : forall q, is_prefix q root = true -> path_isdir q S = true).
  { destruct S as [n|]; simpl in Hin; [|contradiction].
    destruct (walk_node_roots n [] root ds files S_wf Hin) as (r' & m & es & -> & Hl).
    intros q Hq. unfold path_isdir. simpl.
    pose proof (lookup_prefix_isdir q r' n m es Hl Hq) as H.
    unfold as_dir in H. destruct (lookup q n) as [[? ?|? ?]|]; congruence. }
  destruct (makedirs_ok now root (ms_target st)) as (T1 & Hmk & Hd1);
    [intros q Hq; apply Hfree; auto|].
  unfold merge_dir, bind.
  destruct (on_target (makedirs now root) st) as [st1 r1] eqn:Hm.
  assert (Hprefix : forall q, is_prefix q root = true -> file_at q S = None)
    by (intros q; eapply walked_root_is_dir; eauto).
  destruct (merge_makedirs_inv now S C root st st1 r1 Hprefix Hinv Hm) as [Hinv1 _].
  unfold on_target in Hm. rewrite Hmk in Hm. inversion Hm; subst st1 r1.
  simpl in *.
  apply merge_files_return.
  - split; [assumption|]. simpl. intros q Hq.
    destruct (makedirs_frame now root _ _ Hmk q) as [-> _]. now apply Hfree.
  - assumption.
  - intros f Hf. eapply walked_file; eauto.
Qed.

Lemma merge_walk_returns items : forall st,
  incl items (os_walk S) ->
  merge_clear S C (ms_target st) ->
  exists st', for_each items (merge_dir now S) st = (st', Ok tt).
Proof.
  induction items as [|[[root ds] files] items IH]; intros st Hincl Hclear.
  - exists st. reflexivity.
  - destruct (merge_dir_returns root ds files st) as (st1 & Hrun & Hclear1);
      [apply Hincl; now left | assumption |].
    destruct (IH st1) as (st' & Hrest);
      [intros x Hx; apply Hincl; now right | assumption |].
    exists st'. rewrite for_each_cons, Hrun. exact Hrest.
Qed.

(** A merge from a well-formed source into a target that has no directory
    where the source has a file, and no regular file where the source has
    a directory, returns normally. *)
Lemma merge_directories_returns progress :
  exists T bar, merge_directories now S C progress = (T, bar, Ok tt).
Proof.
  unfold merge_directories, bind.
  set (st0 := mk_merge_state C _).
  destruct (merge_walk_returns (os_walk S) st0 (incl_refl _)) as (st' & Hrun).
  { split; [apply merge_inv_init|]. intros q. now apply no_dir_over_file_spec. }
  rewrite Hrun. simpl. eauto.
Qed.

End MergeReturns.

(** C1 (as amended).  For a merge that returns normally from a source tree
    (no directory of which lists a name twice): every file of the source
    whose counterpart does not exist, or is a strictly older file, is
    copied with its own content and modification time, and a counterpart
    that is a file at least as new is left as it was.  When moreover no
    file of the source has a directory as its counterpart, no file of the
    target has an older timestamp afterwards, nor after any further
    sequence of such merges. *)
Theorem merge_last_modification_wins
  now source target progress target' bar later
  (Hwf : wf_tree source = true)
  (Hrun : merge_directories now source target progress = (target', bar, Ok tt))
  (Hlater : merge_run target' later) :
  (forall root f d m,
      file_at (root ++ [f]) source = Some (d, m) ->
      (path_exists (root ++ [f]) target = false ->
       file_at (root ++ [f]) target' = Some (d, m))
      /\ (forall d' m',
             file_at (root ++ [f]) target = Some (d', m') -> m' < m ->
             file_at (root ++ [f]) target' = Some (d, m))
      /\ (forall d' m',
             file_at (root ++ [f]) target = Some (d', m') -> m <= m' ->
             file_at (root ++ [f]) target' = Some (d', m')))
  /\ (no_file_over_dir source target = true ->
      forall p d m,
        file_at p target = Some (d, m) ->
        exists d' m', file_at p later = Some (d', m') /\ m <= m').
Proof.
  destruct (merge_directories_inv now source target Hwf progress target' bar
              (Ok tt) Hrun) as [Hinv Hset].
  split.
  - intros root f d m Hs. pose proof (Hset eq_refl root f (d, m) Hs) as H.
    repeat split.
    + intros Hne. apply not_exists_no_file in Hne. destruct Hne as [Hne Hnd].
      rewrite Hne in H. now apply H.
    + intros d' m' Hc Hlt. rewrite Hc in H. simpl in H.
      destruct (m >? m') eqn:E; [|lia].
      apply H. eapply file_is_not_dir; eauto.
    + intros d' m' Hc Hle. rewrite Hc in H. simpl in H.
      destruct (m >? m') eqn:E; [lia|].
      apply H. eapply file_is_not_dir; eauto.
  - intros Hno p d m Hp.
    apply (merge_run_monotone target later) with (d := d); [|assumption].
    eapply merge_run_cons; eauto.
Qed.

Lemma merge_last_modification_wins_witness :
  wf_tree Samples.stage_a = true
  /\ merge_directories 9 Samples.stage_a Samples.merged true
     = (Samples.merged_a, Samples.bar_done 2, Ok tt)
  /\ merge_run Samples.merged_a Samples.merged_ab
  /\ file_at ["x.txt"] Samples.merged_a = Some ("kept", 2000)
  /\ file_at ["d"; "f"] Samples.merged_a = Some ("df", 5)
  /\ exists d' m', file_at ["x.txt"] Samples.merged_ab = Some (d', m') /\ 2000 <= m'.
Proof.
  assert (H1 : wf_tree Samples.stage_a = true) by reflexivity.
  assert (H3 : merge_directories 9 Samples.stage_a Samples.merged true
               = (Samples.merged_a, Samples.bar_done 2, Ok tt)) by reflexivity.
  assert (H4 : merge_run Samples.merged_a Samples.merged_ab).
  { apply (merge_run_cons 9 Samples.stage_b true Samples.merged_a
             Samples.merged_ab (Samples.bar_done 1) (Ok tt));
      [reflexivity | reflexivity | reflexivity | apply merge_run_nil]. }
  destruct (merge_last_modification_wins 9 Samples.stage_a Samples.merged true
              Samples.merged_a (Samples.bar_done 2) Samples.merged_ab
              H1 H3 H4) as [Hrule Hmono].
  split; [exact H1|]. split; [exact H3|].
  split; [exact H4|]. split; [|split].
  - destruct (Hrule [] "x.txt" "from a" 1500 eq_refl) as (_ & _ & Hkeep).
    apply (Hkeep "kept" 2000); [reflexivity | lia].
  - destruct (Hrule ["d"] "f" "df" 5 eq_refl) as (Hnew & _ & _).
    apply Hnew. reflexivity.
  - apply (Hmono eq_refl ["x.txt"] "kept" 2000). reflexivity.
Defined.

(** C1, counterexample to the rule as worded: the source has the file
    [d/f], the target has a regular file called [d], so that the
    counterpart [d/f] does not exist; [os.makedirs] raises
    [FileExistsError] and [d/f] is never copied. *)
Lemma merge_rule_as_stated_fails : ~ merge_rule_as_stated.
Proof.
  intros H.
  specialize (H 9 Samples.stage_dir Samples.merged_file true ["d"] "f" "df" 5
                eq_refl (or_introl eq_refl)).
  vm_compute in H. discriminate H.
Qed.

Lemma merge_rule_failing_run :
  merge_directories 9 Samples.stage_dir Samples.merged_file true
  = (Samples.merged_file, mk_tqdm 1 0 false false, Raise FileExistsError).
Proof. reflexivity. Qed.

(** A timestamp that does go back: the source has the file [x] (time 5),
    the target a directory [x] (time 1) that holds a file [x] (time 100);
    the directory exists and is older than the source file, [copy2] is
    given the directory as destination and overwrites [x/x]. *)
Lemma merge_into_directory_regresses :
  file_at ["x"; "x"] Samples.merged_dir_x = Some ("old", 100)
  /\ merge_directories 9 Samples.stage_file_x Samples.merged_dir_x true
     = (Some (Dir 0 [("x", Dir 1 [("x", File "new" 5)])]),
        Samples.bar_done 1, Ok tt).
Proof. split; reflexivity. Qed.

Lemma last_modified_comm a b c :
  snd a <> snd b ->
  last_modified a (Some (last_modified b c))
  = last_modified b (Some (last_modified a c)).
Proof.
  destruct a as [da ma], b as [db mb]. simpl. intros Hne.
  destruct c as [[dc mc]|]; simpl;
    try (destruct (Z.gtb_spec mb mc); destruct (Z.gtb_spec ma mc); simpl);
    repeat match goal with
           | |- context [?x >? ?y] => destruct (Z.gtb_spec x y); simpl
           end; try reflexivity; lia.
Qed.

Lemma last_modified_newest a b c :
  snd a <> snd b ->
  match c with None => True | Some c' => snd c' < Z.max (snd a) (snd b) end ->
  last_modified a (Some (last_modified b c))
  = if snd a >? snd b then a else b.
Proof.
  destruct a as [da ma], b as [db mb]. simpl. intros Hne Hc.
  destruct c as [[dc mc]|]; simpl in *;
    try (destruct (Z.gtb_spec mb mc); simpl);
    repeat match goal with
           | |- context [?x >? ?y] => destruct (Z.gtb_spec x y); simpl
           end; try reflexivity; lia.
Qed.

Lemma last_modified_incumbent a b c :
  Z.max (snd a) (snd b) <= snd c ->
  last_modified a (Some (last_modified b (Some c))) = c.
Proof.
  destruct a as [da ma], b as [db mb], c as [dc mc]. simpl. intros Hc.
  destruct (Z.gtb_spec mb mc); simpl;
  repeat match goal with
         | |- context [?x >? ?y] => destruct (Z.gtb_spec x y); simpl
         end; try reflexivity; lia.
Qed.

(** C3 (as amended).  Two source trees (no directory of which lists a name
    twice) are merged in either order into the same target, all four
    merges returning normally.  A path that both sources hold as a file,
    with different timestamps, and that is not a directory of the target,
    ends with the same content and timestamp in both orders: those of the
    newer of the two copies when the target had no file there or a
    strictly older one, and those of the target's own file when it was at
    least as new as both. *)
Theorem merge_order_irrelevant
  n1 n2 n3 n4 A B C progress CB CAB CA CBA b1 b2 b3 b4 root f da ma db mb
  (HwfA : wf_tree A = true) (HwfB : wf_tree B = true)
  (HB : merge_directories n1 B C progress = (CB, b1, Ok tt))
  (HAB : merge_directories n2 A CB progress = (CAB, b2, Ok tt))
  (HA : merge_directories n3 A C progress = (CA, b3, Ok tt))
  (HBA : merge_directories n4 B CA progress = (CBA, b4, Ok tt))
  (Ha : file_at (root ++ [f]) A = Some (da, ma))
  (Hb : file_at (root ++ [f]) B = Some (db, mb))
  (Hne : ma <> mb)
  (Hnd : path_isdir (root ++ [f]) C = false) :
  file_at (root ++ [f]) CAB = file_at (root ++ [f]) CBA
  /\ (path_exists (root ++ [f]) C = false ->
      file_at (root ++ [f]) CAB = Some (if ma >? mb then (da, ma) else (db, mb)))
  /\ (forall dc mc,
         file_at (root ++ [f]) C = Some (dc, mc) -> mc < Z.max ma mb ->
         file_at (root ++ [f]) CAB = Some (if ma >? mb then (da, ma) else (db, mb)))
  /\ (forall dc mc,
         file_at (root ++ [f]) C = Some (dc, mc) -> Z.max ma mb <= mc ->
         file_at (root ++ [f]) CAB = Some (dc, mc)).
Proof.
  destruct (merge_directories_inv n1 B C HwfB progress CB b1 _ HB) as [[_ DB] SB].
  destruct (merge_directories_inv n2 A CB HwfA progress CAB b2 _ HAB) as [_ SAB].
  destruct (merge_directories_inv n3 A C HwfA progress CA b3 _ HA) as [[_ DA] SA].
  destruct (merge_directories_inv n4 B CA HwfB progress CBA b4 _ HBA) as [_ SBA].
  assert (HndB : path_isdir (root ++ [f]) CB = false)
    by (rewrite DB; [assumption | apply snoc_not_nil | congruence]).
  assert (HndA : path_isdir (root ++ [f]) CA = false)
    by (rewrite DA; [assumption | apply snoc_not_nil | congruence]).
  pose proof (SB eq_refl root f _ Hb Hnd) as E1.
  pose proof (SAB eq_refl root f _ Ha HndB) as E2.
  pose proof (SA eq_refl root f _ Ha Hnd) as E3.
  pose proof (SBA eq_refl root f _ Hb HndA) as E4.
  rewrite E1 in E2. rewrite E3 in E4. rewrite E2, E4.
  split; [|split; [|split]].
  - f_equal. now apply last_modified_comm.
  - intros Hnone. apply not_exists_no_file in Hnone. destruct Hnone as [-> _].
    reflexivity.
  - intros dc mc -> Hlt. f_equal.
    now apply (last_modified_newest (da, ma) (db, mb) (Some (dc, mc))).
  - intros dc mc -> Hle. f_equal.
    now apply (last_modified_incumbent (da, ma) (db, mb) (dc, mc)).
Qed.

Lemma merge_order_irrelevant_witness :
  merge_directories 9 Samples.stage_b Samples.merged true
  = (Samples.merged_b, Samples.bar_done 1, Ok tt)
  /\ merge_directories 9 Samples.stage_a Samples.merged_b true
     = (Samples.merged_ab, Samples.bar_done 2, Ok tt)
  /\ merge_directories 9 Samples.stage_a Samples.merged true
     = (Samples.merged_a, Samples.bar_done 2, Ok tt)
  /\ merge_directories 9 Samples.stage_b Samples.merged_a true
     = (Samples.merged_ab, Samples.bar_done 1, Ok tt)
  /\ file_at ["x.txt"] Samples.merged_ab = Some ("from b", 2500).
Proof.
  assert (HB : merge_directories 9 Samples.stage_b Samples.merged true
               = (Samples.merged_b, Samples.bar_done 1, Ok tt)) by reflexivity.
  assert (HAB : merge_directories 9 Samples.stage_a Samples.merged_b true
                = (Samples.merged_ab, Samples.bar_done 2, Ok tt)) by reflexivity.
  assert (HA : merge_directories 9 Samples.stage_a Samples.merged true
               = (Samples.merged_a, Samples.bar_done 2, Ok tt)) by reflexivity.
  assert (HBA : merge_directories 9 Samples.stage_b Samples.merged_a true
                = (Samples.merged_ab, Samples.bar_done 1, Ok tt)) by reflexivity.
  destruct (merge_order_irrelevant 9 9 9 9
              Samples.stage_a Samples.stage_b Samples.merged true
              Samples.merged_b Samples.merged_ab
              Samples.merged_a Samples.merged_ab
              (Samples.bar_done 1) (Samples.bar_done 2)
              (Samples.bar_done 2) (Samples.bar_done 1)
              [] "x.txt" "from a" 1500 "from b" 2500
              eq_refl eq_refl HB HAB HA HBA eq_refl eq_refl
              ltac:(lia) eq_refl)
    as (Hsame & _ & Hnewer & _).
  split; [exact HB|]. split; [exact HAB|]. split; [exact HA|]. split; [exact HBA|].
  apply (Hnewer "kept" 2000); [reflexivity | lia].
Defined.

(** C3, counterexample to the wording: the target already holds [x.txt]
    with timestamp 3000, newer than both staged copies (1500 and 2500); in
    both orders the target keeps its own file, not the copy of the source
    with the greater timestamp. *)
Lemma merge_commutes_as_stated_fails : ~ merge_commutes_as_stated.
Proof.
  intros H.
  destruct (H 9 Samples.stage_a Samples.stage_b Samples.merged_newer true
              ["x.txt"] "from a" 1500 "from b" 2500 eq_refl eq_refl
              ltac:(lia)) as [_ Hwins].
  vm_compute in Hwins. discriminate Hwins.
Qed.

(** C10.  When the source path does not exist, [merge_directories] returns
    normally and leaves the target exactly as it was (and likewise when the
    target does not exist either: nothing is created). *)
Theorem merge_missing_source now target progress :
  merge_directories now None target progress
  = (target, tqdm_close (tqdm_new 0 (negb progress)), Ok tt).
Proof. reflexivity. Qed.

(** ** Nothing a merge does removes a path *)

Lemma keeps_paths_bind {S A B} (proj : S -> tree) (c : M S A) (k : A -> M S B) :
  keeps_paths proj c -> (forall a, keeps_paths proj (k a)) ->
  keeps_paths proj (bind c k).
Proof.
  intros Hc Hk s q Hq. unfold bind. specialize (Hc s q Hq).
  destruct (c s) as [s1 [a|e]]; simpl in *; [|assumption].
  now apply Hk.
Qed.

Lemma keeps_paths_ret {S A} (proj : S -> tree) (a : A) : keeps_paths proj (ret a).
Proof. intros s q Hq. assumption. Qed.

Lemma keeps_paths_for_each {S B} (proj : S -> tree) (l : list B) (body : B -> M S unit) :
  (forall x, keeps_paths proj (body x)) -> keeps_paths proj (for_each l body).
Proof.
  intros Hb. induction l as [|x l IH].
  - apply keeps_paths_ret.
  - change (for_each (x :: l) body) with (bind (body x) (fun _ => for_each l body)).
    apply keeps_paths_bind; auto.
Qed.

Lemma keeps_paths_on_target f :
  (forall t t', f t = Ok t' ->
                forall q, path_exists q t = true -> path_exists q t' = true) ->
  keeps_paths ms_target (on_target f).
Proof.
  intros Hf s q Hq. unfold on_target.
  destruct (f (ms_target s)) as [t'|e] eqn:E; simpl; eauto.
Qed.

Lemma merge_file_keeps now source root f :
  keeps_paths ms_target (merge_file now source root f).
Proof.
  unfold merge_file.
  apply keeps_paths_bind; [intros s q Hq; assumption|]. intros target.
  apply keeps_paths_bind; [|intros _ s q Hq; assumption].
  destruct (path_exists (root ++ [f]) target); simpl.
  - apply keeps_paths_bind; [intros s q Hq; assumption|]. intros ms.
    apply keeps_paths_bind; [intros s q Hq; assumption|]. intros mt.
    destruct (ms >? mt); [|apply keeps_paths_ret].
    apply keeps_paths_on_target. apply copy2_keeps.
  - apply keeps_paths_on_target. apply copy2_keeps.
Qed.

Lemma merge_directories_keeps now source target progress :
  forall q, path_exists q target = true ->
  path_exists q (fst (fst (merge_directories now source target progress))) = true.
Proof.
  intros q Hq. unfold merge_directories.
  match goal with
  | |- context [?c {| ms_target := target; ms_pbar := ?b |}] =>
      assert (K : keeps_paths ms_target c)
  end.
  { apply keeps_paths_bind; [|intros _ s p Hp; assumption].
    apply keeps_paths_for_each. intros [[root ds] files]. unfold merge_dir.
    apply keeps_paths_bind.
    - apply keeps_paths_on_target. apply makedirs_keeps.
    - intros _. apply keeps_paths_for_each. intros f. apply merge_file_keeps. }
  match goal with
  | |- context [?c {| ms_target := target; ms_pbar := ?b |}] =>
      specialize (K {| ms_target := target; ms_pbar := b |} q Hq);
      destruct (c {| ms_target := target; ms_pbar := b |}) as [s r]
  end.
  exact K.
Qed.

(** ** [main]: the staging directories and the merged folder *)

Lemma run_download_keeps tz now limit which progress :
  keeps_paths merged_of (run_download tz now limit which progress).
Proof.
  intros [w f] q Hq. unfold run_download, merged_of in *. simpl in *.
  destruct (download_directory _ _ _ _ _ _ _ _ _ _ _) as [s' r]. simpl.
  destruct which; assumption.
Qed.

Lemma run_upload_keeps tz now progress :
  keeps_paths merged_of (run_upload tz now progress).
Proof.
  intros [w f] q Hq. unfold run_upload, merged_of in *. simpl in *.
  destruct (upload_tree _ _ _ _ _ _ _) as [s' r]. assumption.
Qed.

Lemma run_merge_keeps now which progress :
  keeps_paths w_merged (run_merge now which progress).
Proof.
  intros w q Hq. unfold run_merge.
  pose proof (merge_directories_keeps now (w_temp which w) (w_merged w) progress q Hq) as K.
  destruct (merge_directories now (w_temp which w) (w_merged w) progress) as [[t' bar] r].
  exact K.
Qed.

Lemma on_world_keeps {A} (c : M world A) :
  keeps_paths w_merged c -> keeps_paths merged_of (on_world c).
Proof.
  intros Hc [w f] q Hq. unfold on_world, merged_of in *. simpl in *.
  specialize (Hc w q Hq). destruct (c w) as [w' r]. exact Hc.
Qed.

Lemma with_ftp_connect_keeps address body :
  keeps_paths merged_of body -> keeps_paths w_merged (with_ftp_connect address body).
Proof.
  intros Hb w q Hq. unfold with_ftp_connect.
  destruct (ftp_connect address w) as [ftp|e]; [|assumption].
  match goal with
  | |- context [body ?s] => specialize (Hb s q Hq); destruct (body s) as [[w' f'] r]
  end.
  exact Hb.
Qed.

Lemma remove_staging_keeps : keeps_paths w_merged remove_staging.
Proof. intros w q Hq. exact Hq. Qed.

Lemma main_keeps_merged tz now limit ftp_servers progress :
  keeps_paths w_merged (main tz now limit ftp_servers progress).
Proof.
  unfold main.
  destruct ftp_servers as [|s1 [|s2 [|s3 rest]]]; try apply keeps_paths_ret.
  - apply keeps_paths_bind; [|intros _; apply remove_staging_keeps].
    apply with_ftp_connect_keeps.
    apply keeps_paths_bind; [apply run_download_keeps|]. intros _.
    apply keeps_paths_bind; [apply on_world_keeps, run_merge_keeps|]. intros _.
    apply run_upload_keeps.
  - repeat (apply keeps_paths_bind; [|intros _]);
      try apply remove_staging_keeps; try apply run_merge_keeps;
      apply with_ftp_connect_keeps;
      first [apply run_download_keeps | apply run_upload_keeps].
Qed.

Lemma ends_with_remove_staging (c : M world unit) w w' :
  bind c (fun _ => remove_staging) w = (w', Ok tt) ->
  w_temp1 w' = None /\ w_temp2 w' = None.
Proof.
  unfold bind. destruct (c w) as [w1 [[]|e]]; [|discriminate].
  unfold remove_staging, bind, modify. simpl. intros H. inversion H. auto.
Qed.


Lemma failing_run_leaves_staging :
  main 0 9 10 ["vita"] true (Vita.world_with Vita.one_file None)
  = (mk_world (Some (Dir 9 [])) None None
              [("vita", mk_server (Vita.root_with Vita.one_file) [] [])] [],
     Raise TypeError).
Proof. vm_compute. reflexivity. Qed.

(** ** The pull walk on a directory that lists anything *)

(** Whenever the remote directory can be entered and its listing has at
    least one entry, [download_directory] raises [TypeError]: at the one
    argument call of [is_directory], in the count of the files when the
    call is the outermost one, in the loop otherwise.  Nothing is fetched
    and no sub-directory is entered. *)
Lemma download_nonempty_raises
  tz now n merged remote_dir local_dir merged_dir progress pbar total_files
  s s1 f1 f2 item details items :
  dl_on_local (makedirs now local_dir) s = (s1, Ok tt) ->
  ftp_cwd remote_dir (dl_ftp s1) = (f1, Ok tt) ->
  list_directory_with_details tz f1 = (f2, Ok ((item, details) :: items)) ->
  download_directory tz now (S n) merged remote_dir local_dir merged_dir
                     progress pbar total_files s
  = (mk_dl f2 (dl_local s1) (dl_bars s1), Raise TypeError).
Proof.
  intros H1 H2 H3. simpl. unfold bind at 1. rewrite H1.
  unfold bind at 1. unfold dl_on_ftp at 1, try_except_perm, bind at 1.
  rewrite H2. cbn.
  unfold bind at 1. unfold dl_on_ftp at 1. cbn. rewrite H3. cbn.
  destruct pbar as [h|], total_files as [t|]; reflexivity.
Qed.

(** C2 (the code departs from it).  The server lists one regular file and
    the merged folder has no copy of it: the specification has the file
    fetched into the staging directory with the remote timestamp; the call
    raises [TypeError] instead and the staging directory stays empty. *)
Theorem pull_of_a_file_raises tz now n merged progress :
  download_directory tz now (S n) merged remote_dir [] [] progress None None
                     (mk_dl (Vita.connected Vita.one_file) None [])
  = (mk_dl (Vita.inside Vita.one_file) (Some (Dir now [])) [], Raise TypeError)
  /\ file_at ["top.sav"] (Some (Dir now [])) = None.
Proof.
  split; [|reflexivity].
  apply (download_nonempty_raises tz now n merged remote_dir [] [] progress
           None None _ (mk_dl (Vita.connected Vita.one_file) (Some (Dir now [])) [])
           (Vita.inside Vita.one_file) (Vita.inside Vita.one_file)
           "top.sav" (-2208598200 - tz) []); reflexivity.
Qed.

(** ** The probe *)

Lemma resolve_pwd c st : resolve c (ftp_pwd st) = resolve [] (ftp_pwd st).
Proof. reflexivity. Qed.

(** In such a session the probe answers whether the name is a directory
    that can be entered, and leaves the session as it found it. *)
Lemma is_directory_probe item st :
  session_ok st ->
  is_directory item st
  = (st, Ok (as_dir (lookup (resolve (ftp_cwd_path st) item) (srv_root st))
             && negb (path_in (resolve (ftp_cwd_path st) item) (srv_denied st)))).
Proof.
  intros (Hpwd & Hdir & Hok). destruct st as [root denied unl cwd].
  cbn [ftp_cwd_path srv_root srv_denied] in *.
  unfold is_directory, bind, gets, try_except_perm, ret.
  unfold ftp_cwd at 1. cbn [ftp_cwd_path srv_root srv_denied srv_unlistable].
  destruct (as_dir (lookup (resolve cwd item) root)
            && negb (path_in (resolve cwd item) denied)); [|reflexivity].
  unfold ftp_cwd. cbn [ftp_cwd_path srv_root srv_denied srv_unlistable].
  rewrite (resolve_pwd (resolve cwd item)), Hpwd, Hdir, Hok. reflexivity.
Qed.

(** C4 (the code departs from it).  In the save-data directory the probe
    classifies [game] as a directory and [top.sav] as a file and leaves
    the session where it was; but the pull never consults it: it calls
    [is_directory] with one argument, raises [TypeError] and enters no
    directory. *)
Theorem pull_never_recurses tz now n merged progress :
  is_directory "game" (Vita.inside Vita.game_and_file)
  = (Vita.inside Vita.game_and_file, Ok true)
  /\ is_directory "top.sav" (Vita.inside Vita.game_and_file)
     = (Vita.inside Vita.game_and_file, Ok false)
  /\ download_directory tz now (S n) merged remote_dir [] [] progress None None
                        (mk_dl (Vita.connected Vita.game_and_file) None [])
     = (mk_dl (Vita.inside Vita.game_and_file) (Some (Dir now [])) [],
        Raise TypeError).
Proof.
  split; [reflexivity|]. split; [reflexivity|].
  apply (download_nonempty_raises tz now n merged remote_dir [] [] progress
           None None _
           (mk_dl (Vita.connected Vita.game_and_file) (Some (Dir now [])) [])
           (Vita.inside Vita.game_and_file) (Vita.inside Vita.game_and_file)
           "game" (-2208987840 - tz) [("top.sav", -2208598200 - tz)]); reflexivity.
Qed.

(** C8 (the code departs from it).  The remote tree holds three files, as
    [count_files] finds; the pull never calls [count_files], it counts the
    entries of the top directory only, through the one argument call of
    [is_directory], and raises [TypeError] before any progress bar
    exists. *)
Theorem pull_total_is_not_the_tree_count tz now n merged progress :
  snd (count_files tz 10 remote_dir (Vita.connected Vita.game_and_file)) = Ok 3
  /\ download_directory tz now (S n) merged remote_dir [] [] progress None None
                        (mk_dl (Vita.connected Vita.game_and_file) None [])
     = (mk_dl (Vita.inside Vita.game_and_file) (Some (Dir now [])) [],
        Raise TypeError).
Proof.
  split; [reflexivity|].
  apply (download_nonempty_raises tz now n merged remote_dir [] [] progress
           None None _
           (mk_dl (Vita.connected Vita.game_and_file) (Some (Dir now [])) [])
           (Vita.inside Vita.game_and_file) (Vita.inside Vita.game_and_file)
           "game" (-2208987840 - tz) [("top.sav", -2208598200 - tz)]); reflexivity.
Qed.

(** C6 (the code departs from it).  The merged folder holds [top.sav] and
    so does the listing of the remote directory: the specification has the
    two timestamps compared; the call raises [AttributeError] on the
    listed timestamp instead, and nothing is sent.  (A file the listing
    lacks is sent, and its remote timestamp then set to the local one.) *)
Theorem push_of_a_listed_file_raises tz now progress :
  upload_directory tz now Vita.local_same_file remote_dir progress None
                   (mk_ul (Vita.connected Vita.one_file) [])
  = (mk_ul (Vita.inside Vita.one_file) [tqdm_new 1 (negb progress)],
     Raise AttributeError)
  /\ file_at (Vita.savedata ++ ["top.sav"])
       (Some (srv_root (ul_ftp (fst
          (upload_directory tz now Vita.local_same_file remote_dir progress None
                            (mk_ul (Vita.connected []) []))))))
     = Some ("T", 1704457800).
Proof. split; reflexivity. Qed.

(** C7 (the code departs from it).  The push walk starts in the save-data
    directory with a merged folder that lists the directory [d] before the
    file [new.sav]: it ends inside [d], and [new.sav] has been stored in
    [d] instead of the save-data directory.  The pull walk from the root
    of an empty save-data directory ends in [ux0:/user/00], one level up
    from the directory it entered, not at the root it started from. *)
Theorem walks_leave_cwd_changed :
  ftp_cwd_path (ul_ftp (fst
     (upload_directory 0 9 Vita.local_dir_then_file "/ux0:/user/00/savedata"
                       true None (mk_ul (Vita.inside []) []))))
  = Vita.savedata ++ ["d"]
  /\ file_at (Vita.savedata ++ ["d"; "new.sav"])
       (Some (srv_root (ul_ftp (fst
          (upload_directory 0 9 Vita.local_dir_then_file "/ux0:/user/00/savedata"
                            true None (mk_ul (Vita.inside []) []))))))
     = Some ("N", 1704457800)
  /\ file_at (Vita.savedata ++ ["new.sav"])
       (Some (srv_root (ul_ftp (fst
          (upload_directory 0 9 Vita.local_dir_then_file "/ux0:/user/00/savedata"
                            true None (mk_ul (Vita.inside []) []))))))
     = None
  /\ download_directory 0 9 1 None remote_dir [] [] true None None
                        (mk_dl (Vita.connected []) None [])
     = (mk_dl (mk_ftp (Vita.root_with []) [] [] ["ux0:"; "user"; "00"])
              (Some (Dir 9 [])) [tqdm_new 0 false],
        Ok tt).
Proof. repeat split; reflexivity. Qed.

(** ** The listing *)

Lemma dict_get_set_same k v d : dict_get k (dict_set k v d) = Some v.
Proof.
  induction d as [|[k' v'] d IH]; simpl.
  - now rewrite String.eqb_refl.
  - destruct (String.eqb k' k) eqn:E; simpl; rewrite E; auto.
Qed.

Lemma dict_get_set_other k k' v d :
  k <> k' -> dict_get k' (dict_set k v d) = dict_get k' d.
Proof.
  intros Hne. induction d as [|[k0 v0] d IH]; simpl.
  - destruct (String.eqb_spec k k'); [contradiction | reflexivity].
  - destruct (String.eqb_spec k0 k) as [->|Hk]; simpl.
    + destruct (String.eqb_spec k k'); [contradiction | reflexivity].
    + destruct (String.eqb k0 k'); auto.
Qed.

(** A line with fewer than nine fields adds nothing and fails nothing. *)
Lemma parse_line_short tz items line :
  (List.length (split_ws line) < 9)%nat -> parse_line tz items line = items.
Proof.
  intros H. unfold parse_line.
  destruct (Nat.leb_spec 9 (List.length (split_ws line))); [lia | reflexivity].
Qed.

(** A line with nine fields or more records its last field, with the
    timestamp parsed from fields 5 to 7, or zero when they do not parse. *)
Lemma parse_line_entry tz items line :
  (9 <= List.length (split_ws line))%nat ->
  dict_get (last (split_ws line) "") (parse_line tz items line)
  = Some match strptime_b_d_HM (join " " (firstn 3 (skipn 5 (split_ws line)))) with
         | Some t => mktime tz t
         | None => 0
         end.
Proof.
  intros H. unfold parse_line.
  destruct (Nat.leb_spec 9 (List.length (split_ws line))); [|lia].
  destruct (strptime_b_d_HM _); apply dict_get_set_same.
Qed.

(** The year of every timestamp the listing parses is 1900. *)
Lemma strptime_year s t : strptime_b_d_HM s = Some t -> tm_year t = 1900.
Proof.
  unfold strptime_b_d_HM.
  destruct (starts_with_space s || ends_with_space s); [discriminate|].
  destruct (split_ws s) as [|b [|d [|hm [|x l]]]]; try discriminate.
  destruct (parse_month b) as [mon|]; [|discriminate].
  destruct (parse_field 1 31 d) as [day|]; [|discriminate].
  destruct (parse_hour_minute hm) as [[h mi]|]; [|discriminate].
  destruct (day <=? days_in_month _ mon); [|discriminate].
  intros H. inversion H. reflexivity.
Qed.

(** C5 (the code departs from it).  A well-formed listing line for a file
    modified on 5 January at 12:30: the specification has the entry carry
    that time of the current year (1704457800 in 2024); the entry carries
    that time of the year 1900.  Lines of fewer than nine fields are
    skipped and unparseable times recorded as zero, as the specification
    says. *)
Theorem listing_time_is_in_1900 tz :
  parse_line tz [] "-rw-r--r-- 1 vita vita 123 Jan 5 12:30 save.dat"
  = [("save.dat", mktime tz (mk_struct_time 1900 1 5 12 30 0))]
  /\ mktime tz (mk_struct_time 1900 1 5 12 30 0) = -2208598200 - tz
  /\ mktime tz (mk_struct_time 2024 1 5 12 30 0) = 1704457800 - tz
  /\ parse_line tz [] "total 7 files in this directory" = []
  /\ parse_line tz [] "-rw-r--r-- 1 vita vita 123 Jan 5 2020 old.dat"
     = [("old.dat", 0)].
Proof. repeat split; reflexivity. Qed.

(** * Further properties of the functions *)

(** ** [merge_directories] *)

(** X1.  A merge changes no file that the source does not have: when no
    file of the (well-formed) source faces a directory of the target, every
    path that is not a file of the source names the same file, or none,
    before and after, whether the merge returns normally or not. *)
Theorem merge_touches_source_files_only
  now source target progress target' bar r
  (Hwf : wf_tree source = true)
  (Hno : no_file_over_dir source target = true)
  (Hrun : merge_directories now source target progress = (target', bar, r)) :
  forall p, file_at p source = None -> file_at p target' = file_at p target.
Proof.
  destruct (merge_directories_inv now source target Hwf progress target' bar r Hrun)
    as [[I1 _] _].
  intros p Hp.
  destruct (I1 p) as [Hsame | [(s & Hs & _) | (q & f & -> & Hne & Hq & Hd)]].
  - exact Hsame.
  - congruence.
  - rewrite (no_file_over_dir_spec source target q Hno Hne Hq) in Hd. discriminate.
Qed.

Lemma merge_touches_source_files_only_witness :
  file_at ["other.txt"] Samples.stage_a = None
  /\ file_at ["x.txt"] Samples.merged_a = file_at ["x.txt"] Samples.merged
  /\ file_at ["other.txt"] Samples.merged_a = file_at ["other.txt"] Samples.merged.
Proof.
  pose proof (merge_touches_source_files_only 9 Samples.stage_a Samples.merged true
                Samples.merged_a (Samples.bar_done 2) (Ok tt)
                eq_refl eq_refl eq_refl) as H.
  split; [reflexivity|]. split; [reflexivity|].
  apply H. reflexivity.
Defined.

Lemma last_modified_idem s c :
  last_modified s (Some (last_modified s c)) = last_modified s c.
Proof.
  destruct s as [d m], c as [[dc mc]|]; simpl.
  - destruct (Z.gtb_spec m mc); simpl;
      destruct (Z.gtb_spec m m); destruct (Z.gtb_spec m mc);
        try reflexivity; lia.
  - destruct (Z.gtb_spec m m); [lia | reflexivity].
Qed.

(** X2.  Merging the same source a second time changes no file: after a
    merge that returned normally (well-formed source, no file of which
    faces a directory of the target), a further merge of the same source
    leaves every file of the target with the content and timestamp the
    first merge gave it. *)
Theorem merge_twice_changes_nothing
  n1 n2 source target progress target1 bar1 target2 bar2 r2
  (Hwf : wf_tree source = true)
  (Hno : no_file_over_dir source target = true)
  (Hrun1 : merge_directories n1 source target progress = (target1, bar1, Ok tt))
  (Hrun2 : merge_directories n2 source target1 progress = (target2, bar2, r2)) :
  forall p, file_at p target2 = file_at p target1.
Proof.
  destruct (merge_directories_inv n1 source target Hwf progress target1 bar1 _ Hrun1)
    as [[_ D1] S1].
  destruct (merge_directories_inv n2 source target1 Hwf progress target2 bar2 _ Hrun2)
    as [[I2 _] _].
  intros p.
  destruct (I2 p) as [Hsame | [(s & Hs & HT) | (q & f & -> & Hne & Hq & Hd)]].
  - exact Hsame.
  - destruct p as [|x p'].
    + destruct source as [[d m|m es]|]; try discriminate.
      unfold merge_directories in Hrun2. simpl in Hrun2. now inversion Hrun2.
    + assert (Hne : x :: p' <> []) by discriminate.
      destruct (exists_last Hne) as (root & f & Hp). rewrite Hp in *.
      rewrite HT. rewrite (S1 eq_refl root f s Hs).
      * now rewrite last_modified_idem.
      * apply (no_file_over_dir_spec source target); [assumption | | congruence].
        apply snoc_not_nil.
  - rewrite D1 in Hd by assumption.
    rewrite (no_file_over_dir_spec source target q Hno Hne Hq) in Hd. discriminate.
Qed.

Lemma merge_twice_changes_nothing_witness :
  merge_directories 9 Samples.stage_b Samples.merged true
  = (Samples.merged_b, Samples.bar_done 1, Ok tt)
  /\ merge_directories 10 Samples.stage_b Samples.merged_b true
     = (Samples.merged_b, Samples.bar_done 1, Ok tt)
  /\ forall p, file_at p Samples.merged_b = file_at p Samples.merged_b.
Proof.
  split; [reflexivity|]. split; [reflexivity|].
  exact (merge_twice_changes_nothing 9 10 Samples.stage_b Samples.merged true
           Samples.merged_b (Samples.bar_done 1) Samples.merged_b
           (Samples.bar_done 1) (Ok tt) eq_refl eq_refl eq_refl eq_refl).
Defined.

Lemma nothing_clashes_with_absent_target source :
  no_file_over_dir source None = true /\ no_dir_over_file source None = true.
Proof.
  split; apply forallb_forall; intros x _; [reflexivity|].
  destruct x as [[root ds] fs]. reflexivity.
Qed.

(** X3.  A merge into a target that does not exist returns normally and
    the new target holds exactly the files of the (well-formed) source:
    the same paths, contents and modification times. *)
Theorem merge_into_absent_target now source progress
  (Hwf : wf_tree source = true) :
  exists target' bar,
    merge_directories now source None progress = (target', bar, Ok tt)
    /\ forall root f,
         file_at (root ++ [f]) target' = file_at (root ++ [f]) source.
Proof.
  destruct (nothing_clashes_with_absent_target source) as [H1 H2].
  destruct (merge_directories_returns now source None Hwf H1 H2 progress)
    as (T & bar & Hrun).
  exists T, bar. split; [exact Hrun|].
  destruct (merge_directories_inv now source None Hwf progress T bar _ Hrun)
    as [[I1 _] Hset].
  intros root f. destruct (file_at (root ++ [f]) source) as [s|] eqn:Hs.
  - now rewrite (Hset eq_refl root f s Hs eq_refl).
  - destruct (I1 (root ++ [f]))
      as [Hsame | [(s & Hs' & _) | (q & g & _ & _ & _ & Hd)]].
    + exact Hsame.
    + congruence.
    + discriminate.
Qed.

Lemma merge_into_absent_target_witness :
  exists target' bar,
    merge_directories 9 Samples.stage_a None true = (target', bar, Ok tt)
    /\ forall root f,
         file_at (root ++ [f]) target' = file_at (root ++ [f]) Samples.stage_a.
Proof. exact (merge_into_absent_target 9 Samples.stage_a true eq_refl). Defined.

Lemma tree_grows_refl t : tree_grows t t.
Proof. intros q. auto. Qed.

Lemma tree_grows_trans t1 t2 t3 :
  tree_grows t1 t2 -> tree_grows t2 t3 -> tree_grows t1 t3.
Proof.
  intros H12 H23 q. destruct (H12 q), (H23 q). auto.
Qed.

Lemma write_file_grows now p d m t t' :
  write_file now p (File d m) t = Ok t' -> tree_grows t t'.
Proof.
  intros H q. destruct (write_file_frame now p d m t t' H) as (Hp & Hf & Hd).
  split.
  - intros Hq. destruct (path_eq_dec q p) as [->|Hne]; [congruence|].
    now rewrite Hf.
  - intros Hq. now rewrite Hd.
Qed.

Lemma makedirs_grows now p t t' : makedirs now p t = Ok t' -> tree_grows t t'.
Proof.
  intros H q. split.
  - destruct (makedirs_frame now p t t' H q) as [-> _]. auto.
  - now apply (makedirs_keeps_dirs now p t t' H).
Qed.

Lemma copy2_grows now src name dst t t' :
  copy2 now src name dst t = Ok t' -> tree_grows t t'.
Proof.
  unfold copy2. destruct src as [[d m|m es]|]; try discriminate.
  apply write_file_grows.
Qed.

Lemma only_grows_bind {S A B} (proj : S -> tree) (c : M S A) (k : A -> M S B) :
  only_grows proj c -> (forall a, only_grows proj (k a)) ->
  only_grows proj (bind c k).
Proof.
  intros Hc Hk s. unfold bind. specialize (Hc s).
  destruct (c s) as [s1 [a|e]]; simpl in *; [|assumption].
  eapply tree_grows_trans; [exact Hc | apply Hk].
Qed.

Lemma only_grows_same {S A} (proj : S -> tree) (c : M S A) :
  (forall s, proj (fst (c s)) = proj s) -> only_grows proj c.
Proof. intros H s. rewrite H. apply tree_grows_refl. Qed.

Lemma only_grows_for_each {S B} (proj : S -> tree) (l : list B) (body : B -> M S unit) :
  (forall x, only_grows proj (body x)) -> only_grows proj (for_each l body).
Proof.
  intros Hb. induction l as [|x l IH].
  - apply only_grows_same. reflexivity.
  - change (for_each (x :: l) body) with (bind (body x) (fun _ => for_each l body)).
    apply only_grows_bind; auto.
Qed.

Lemma only_grows_on_target f :
  (forall t t', f t = Ok t' -> tree_grows t t') ->
  only_grows ms_target (on_target f).
Proof.
  intros Hf s. unfold on_target.
  destruct (f (ms_target s)) as [t'|e] eqn:E; simpl;
    [eauto | apply tree_grows_refl].
Qed.

Lemma merge_file_grows now source root f :
  only_grows ms_target (merge_file now source root f).
Proof.
  unfold merge_file.
  apply only_grows_bind; [apply only_grows_same; reflexivity|]. intros target.
  apply only_grows_bind; [|intros _; apply only_grows_same; reflexivity].
  destruct (path_exists (root ++ [f]) target); simpl.
  - apply only_grows_bind; [apply only_grows_same; reflexivity|]. intros ms.
    apply only_grows_bind; [apply only_grows_same; reflexivity|]. intros mt.
    destruct (ms >? mt); [|apply only_grows_same; reflexivity].
    apply only_grows_on_target. apply copy2_grows.
  - apply only_grows_on_target. apply copy2_grows.
Qed.

(** X4.  A merge deletes nothing and turns nothing into something else:
    whatever the source and however the call ends, every regular file of
    the target is still a regular file afterwards and every directory
    still a directory. *)
Theorem merge_never_deletes now source target progress :
  tree_grows target (fst (fst (merge_directories now source target progress))).
Proof.
  unfold merge_directories.
  match goal with
  | |- context [?c {| ms_target := target; ms_pbar := ?b |}] =>
      assert (K : only_grows ms_target c)
  end.
  { apply only_grows_bind; [|intros _; apply only_grows_same; reflexivity].
    apply only_grows_for_each. intros [[root ds] files]. unfold merge_dir.
    apply only_grows_bind.
    - apply only_grows_on_target. apply makedirs_grows.
    - intros _. apply only_grows_for_each. intros f. apply merge_file_grows. }
  match goal with
  | |- context [?c {| ms_target := target; ms_pbar := ?b |}] =>
      specialize (K {| ms_target := target; ms_pbar := b |});
      destruct (c {| ms_target := target; ms_pbar := b |}) as [s r]
  end.
  exact K.
Qed.

(** ** [list_directory_with_details], [is_directory] *)

Lemma ftp_cwd_effect dirname st st' r :
  ftp_cwd dirname st = (st', r) ->
  srv_root st' = srv_root st
  /\ srv_denied st' = srv_denied st
  /\ srv_unlistable st' = srv_unlistable st
  /\ (r = Ok tt \/ (r = Raise error_perm /\ st' = st)).
Proof.
  unfold ftp_cwd.
  destruct (as_dir _ && negb _); intros H; inversion H; subst; simpl; auto 6.
Qed.

(** The listing never raises and never moves the session; a refused
    [LIST] gives the empty snapshot. *)
Lemma list_directory_with_details_returns tz st :
  exists items, list_directory_with_details tz st = (st, Ok items).
Proof.
  unfold list_directory_with_details, try_except_perm, bind, ftp_list, ret.
  destruct (lookup (ftp_cwd_path st) (srv_root st)) as [[? ?|? es]|]; eauto.
  destruct (path_in (ftp_cwd_path st) (srv_unlistable st)); eauto.
Qed.

(** ** [download_directory] *)

(** What a call of [download_directory] can have done to the staging tree
    and to the server. *)
Lemma download_directory_effects
  tz now limit merged remote_dir local_dir merged_dir progress pbar total_files
  s s' r :
  download_directory tz now limit merged remote_dir local_dir merged_dir
                     progress pbar total_files s = (s', r) ->
  ((limit = O /\ dl_local s' = dl_local s)
   \/ (exists e, makedirs now local_dir (dl_local s) = Raise e
                 /\ dl_local s' = dl_local s)
   \/ makedirs now local_dir (dl_local s) = Ok (dl_local s'))
  /\ srv_root (dl_ftp s') = srv_root (dl_ftp s)
  /\ (r = Ok tt ->
      forall f1, ftp_cwd remote_dir (dl_ftp s) = (f1, Ok tt) ->
                 list_directory_with_details tz f1 = (f1, Ok [])).
Proof.
  destruct limit as [|n].
  { intros H. inversion H; subst. repeat split; auto. discriminate. }
  destruct (dl_on_local (makedirs now local_dir) s) as [s1 r1] eqn:H1.
  assert (Hs1 : (r1 = Ok tt /\ dl_ftp s1 = dl_ftp s /\ dl_bars s1 = dl_bars s
                 /\ makedirs now local_dir (dl_local s) = Ok (dl_local s1))
                \/ (s1 = s /\ exists e, r1 = Raise e
                               /\ makedirs now local_dir (dl_local s) = Raise e)).
  { unfold dl_on_local in H1.
    destruct (makedirs now local_dir (dl_local s)) as [t'|e];
      inversion H1; subst; simpl; eauto 7. }
  destruct Hs1 as [(-> & Hf1 & Hb1 & Hmk) | (-> & e & -> & Hmk)].
  2:{ simpl. unfold bind at 1. rewrite H1. intros H. inversion H; subst.
      split; [right; left; eauto|]. split; [reflexivity|]. discriminate. }
  destruct (ftp_cwd remote_dir (dl_ftp s1)) as [f1 rc] eqn:Hcwd.
  destruct (ftp_cwd_effect _ _ _ _ Hcwd) as (Hroot1 & _ & _ & [-> | [-> ->]]).
  - destruct (list_directory_with_details_returns tz f1) as [items Hlist].
    destruct items as [|[item details] items].
    + (* nothing is listed *)
      simpl. unfold bind at 1. rewrite H1.
      unfold bind at 1. unfold dl_on_ftp at 1, try_except_perm, bind at 1.
      rewrite Hcwd. cbn.
      unfold bind at 1. unfold dl_on_ftp at 1. cbn. rewrite Hlist. cbn.
      intros H.
      assert (Hgoal : dl_local s' = dl_local s1
                      /\ srv_root (dl_ftp s') = srv_root f1).
      { destruct pbar as [h|], total_files as [t|]; cbn in H;
          unfold bind, dl_on_ftp, gets, dl_bar, modify, ret in H; cbn in H;
          destruct (ftp_cwd ".." f1) as [f3 [[]|e3]] eqn:Hup; cbn in H;
          destruct (ftp_cwd_effect _ _ _ _ Hup) as (Hroot3 & _);
          try match type of H with
              | context [if ?b then _ else _] => destruct b
              end; cbn in H;
          inversion H; subst; cbn; auto. }
      destruct Hgoal as [Hl Hr].
      split; [right; right; now rewrite Hl|].
      split; [rewrite Hr, Hroot1; now rewrite Hf1|].
      intros _ f1' Hcwd'. rewrite <- Hf1, Hcwd in Hcwd'.
      inversion Hcwd'; subst. exact Hlist.
    + rewrite (download_nonempty_raises tz now n merged remote_dir local_dir
                 merged_dir progress pbar total_files s s1 f1 f1 item details items
                 H1 Hcwd Hlist).
      intros H. inversion H; subst. simpl.
      split; [now right; right|]. split; [now rewrite Hroot1, Hf1|]. discriminate.
  - (* the directory cannot be entered *)
    simpl. unfold bind at 1. rewrite H1.
    unfold bind at 1. unfold dl_on_ftp at 1, try_except_perm, bind at 1.
    rewrite Hcwd. cbn. intros H. inversion H; subst. cbn.
    split; [now right; right|]. split; [now rewrite Hf1|].
    intros _ f1' Hcwd'. rewrite <- Hf1, Hcwd in Hcwd'. discriminate.
Qed.

(** X5.  [download_directory] never brings a file: whatever the server,
    the arguments and the outcome, every path names the same regular file
    of the staging tree (or none) after the call as before, and the
    server's tree is what it was.  The call returns normally only when the
    remote directory cannot be entered or lists nothing. *)
Theorem download_directory_fetches_nothing
  tz now limit merged remote_dir local_dir merged_dir progress pbar total_files
  s s' r
  (Hrun : download_directory tz now limit merged remote_dir local_dir merged_dir
                             progress pbar total_files s = (s', r)) :
  (forall p, file_at p (dl_local s') = file_at p (dl_local s))
  /\ srv_root (dl_ftp s') = srv_root (dl_ftp s)
  /\ (r = Ok tt ->
      forall f1, ftp_cwd remote_dir (dl_ftp s) = (f1, Ok tt) ->
                 list_directory_with_details tz f1 = (f1, Ok [])).
Proof.
  destruct (download_directory_effects _ _ _ _ _ _ _ _ _ _ _ _ _ Hrun)
    as ([[_ Hl] | [(e & _ & Hl) | Hmk]] & Hroot & Hok).
  - split; [|auto]. intros p. now rewrite Hl.
  - split; [|auto]. intros p. now rewrite Hl.
  - split; [|auto]. intros p.
    now destruct (makedirs_frame now local_dir _ _ Hmk p) as [-> _].
Qed.

Lemma download_directory_fetches_nothing_witness :
  file_at ["top.sav"]
    (dl_local (fst (download_directory 0 9 10 None remote_dir [] [] true None None
                      (mk_dl (Vita.connected Vita.one_file) None [])))) = None
  /\ srv_root (dl_ftp (fst (download_directory 0 9 10 None remote_dir [] [] true
                              None None
                              (mk_dl (Vita.connected Vita.one_file) None []))))
     = Vita.root_with Vita.one_file.
Proof.
  destruct (download_directory_fetches_nothing 0 9 10 None remote_dir [] [] true
              None None (mk_dl (Vita.connected Vita.one_file) None []) _ _
              (surjective_pairing _)) as (Hfiles & Hroot & _).
  split; [apply Hfiles | exact Hroot].
Defined.

(** ** [main] *)

Lemma download_keeps_staging_empty
  tz now limit merged remote_dir merged_dir progress pbar total_files s s' r :
  download_directory tz now limit merged remote_dir [] merged_dir
                     progress pbar total_files s = (s', r) ->
  empty_tree (dl_local s) -> empty_tree (dl_local s').
Proof.
  intros Hrun Hs.
  destruct (download_directory_effects _ _ _ _ _ _ _ _ _ _ _ _ _ Hrun)
    as ([[_ Hl] | [(e & _ & Hl) | Hmk]] & _ & _).
  - now rewrite Hl.
  - now rewrite Hl.
  - destruct Hs as [Hs | [m Hs]]; rewrite Hs in Hmk; simpl in Hmk;
      inversion Hmk; right; eauto.
Qed.

Lemma merge_from_empty_source now source target progress :
  empty_tree source ->
  forall p,
    file_at p (fst (fst (merge_directories now source target progress)))
    = file_at p target.
Proof.
  intros [-> | [m ->]] p; [reflexivity|].
  destruct target as [[d0 m0|m0 es0]|]; try reflexivity.
  destruct p; reflexivity.
Qed.

Lemma preserves_bind {S A B} (I : S -> Prop) (c : M S A) (k : A -> M S B) :
  preserves I c -> (forall a, preserves I (k a)) -> preserves I (bind c k).
Proof.
  intros Hc Hk s Hs. unfold bind. specialize (Hc s Hs).
  destruct (c s) as [s1 [a|e]]; simpl in *; [|assumption].
  now apply Hk.
Qed.

Section MainInvariant.
Variables tz now : Z.
Variable limit : nat.
Variable w0 : world.

Lemma run_download_inv which progress :
  preserves (main_inv_inside w0) (run_download tz now limit which progress).
Proof.
  intros [w f] (E1 & E2 & Hm). unfold main_inv_inside, run_download in *. simpl in *.
  destruct (download_directory tz now limit (w_merged w) remote_dir [] [] progress
              None None (mk_dl f (w_temp which w) (w_bars w))) as [s' r] eqn:Hrun.
  pose proof (download_keeps_staging_empty _ _ _ _ _ _ _ _ _ _ _ _ Hrun) as Hkeep.
  simpl in *. destruct which; simpl in *; repeat split; auto.
Qed.

Lemma run_upload_inv progress : preserves (main_inv_inside w0) (run_upload tz now progress).
Proof.
  intros [w f] Hinv. unfold main_inv_inside, run_upload in *. simpl in *.
  destruct (upload_tree _ _ _ _ _ _ _) as [s' r]. exact Hinv.
Qed.

Lemma run_merge_inv which progress :
  preserves (main_inv w0) (run_merge now which progress).
Proof.
  intros w (E1 & E2 & Hm). unfold run_merge.
  assert (Hsrc : empty_tree (w_temp which w)) by (destruct which; assumption).
  pose proof (merge_from_empty_source now (w_temp which w) (w_merged w) progress
                Hsrc) as Hfiles.
  destruct (merge_directories now (w_temp which w) (w_merged w) progress)
    as [[t' bar] r].
  simpl in *. repeat split; auto. intros p. now rewrite Hfiles.
Qed.

Lemma on_world_inv {A} (c : M world A) :
  preserves (main_inv w0) c -> preserves (main_inv_inside w0) (on_world c).
Proof.
  intros Hc [w f] Hinv. unfold main_inv_inside, on_world in *. simpl in *.
  specialize (Hc w Hinv). destruct (c w) as [w' r]. exact Hc.
Qed.

Lemma with_ftp_connect_inv address body :
  preserves (main_inv_inside w0) body -> preserves (main_inv w0) (with_ftp_connect address body).
Proof.
  intros Hb w Hinv. unfold with_ftp_connect.
  destruct (ftp_connect address w) as [ftp|e]; [|assumption].
  specialize (Hb (w, ftp) Hinv). unfold main_inv_inside in Hb.
  destruct (body (w, ftp)) as [[w' f'] r]. exact Hb.
Qed.

Lemma remove_staging_inv : preserves (main_inv w0) remove_staging.
Proof.
  intros w (_ & _ & Hm). repeat split; [left | left | exact Hm]; reflexivity.
Qed.

Lemma main_inv_kept ftp_servers progress :
  preserves (main_inv w0) (main tz now limit ftp_servers progress).
Proof.
  unfold main.
  destruct ftp_servers as [|s1 [|s2 [|s3 rest]]]; try (intros w Hw; exact Hw).
  - apply preserves_bind; [|intros _; apply remove_staging_inv].
    apply with_ftp_connect_inv.
    apply preserves_bind; [apply run_download_inv|]. intros _.
    apply preserves_bind; [apply on_world_inv, run_merge_inv|]. intros _.
    apply run_upload_inv.
  - apply preserves_bind; [apply with_ftp_connect_inv, run_download_inv|intros _].
    apply preserves_bind; [apply with_ftp_connect_inv, run_download_inv|intros _].
    apply preserves_bind; [apply run_merge_inv|intros _].
    apply preserves_bind; [apply run_merge_inv|intros _].
    apply preserves_bind; [apply with_ftp_connect_inv, run_upload_inv|intros _].
    apply preserves_bind; [apply with_ftp_connect_inv, run_upload_inv|intros _].
    apply remove_staging_inv.
Qed.

End MainInvariant.

(** X6.  No run of [main] changes a file of the merged folder: started
    with staging directories that are absent or empty (as every run leaves
    them), whatever the servers hold and however the run ends, every path
    names the same regular file of the merged folder, or none, after the
    run as before, and the staging directories are still absent or empty:
    nothing a server holds ever reaches the local trees. *)
Theorem main_changes_no_merged_file
  tz now limit ftp_servers progress w w' r
  (H1 : empty_tree (w_temp1 w))
  (H2 : empty_tree (w_temp2 w))
  (Hrun : main tz now limit ftp_servers progress w = (w', r)) :
  (forall p, file_at p (w_merged w') = file_at p (w_merged w))
  /\ empty_tree (w_temp1 w') /\ empty_tree (w_temp2 w').
Proof.
  assert (H0 : main_inv w w) by (repeat split; auto).
  pose proof (main_inv_kept tz now limit w ftp_servers progress w H0) as H.
  rewrite Hrun in H. destruct H as (E1 & E2 & Hm). auto.
Qed.

Lemma main_changes_no_merged_file_witness :
  file_at ["top.sav"]
    (w_merged (fst (main 0 9 10 ["vita"] true
                      (Vita.world_with Vita.game_and_file
                                       (Some (Dir 0 [("top.sav", File "old" 5)]))))))
  = Some ("old", 5).
Proof.
  destruct (main_changes_no_merged_file 0 9 10 ["vita"] true
              (Vita.world_with Vita.game_and_file
                               (Some (Dir 0 [("top.sav", File "old" 5)])))
              _ _ (or_introl eq_refl) (or_introl eq_refl)
              (surjective_pairing _)) as [Hfiles _].
  rewrite Hfiles. reflexivity.
Defined.

(** X7.  When nobody answers at the address of the first server, [main]
    (with one or two servers) ends with the connection error before
    anything is created, transferred or removed: the world is left exactly
    as it was. *)
Theorem main_first_server_unreachable
  tz now limit ftp_server rest progress w
  (Hdown : server_lookup ftp_server (w_servers w) = None)
  (Hcount : (List.length rest <= 1)%nat) :
  main tz now limit (ftp_server :: rest) progress w
  = (w, Raise ConnectionRefusedError).
Proof.
  destruct rest as [|s2 [|s3 rest]]; simpl in Hcount; try lia;
    unfold main, bind, with_ftp_connect, ftp_connect; now rewrite Hdown.
Qed.

Lemma main_first_server_unreachable_witness :
  main 0 9 10 ["nobody"; "vita"] true (Vita.world_with Vita.one_file None)
  = (Vita.world_with Vita.one_file None, Raise ConnectionRefusedError).
Proof.
  apply main_first_server_unreachable; [reflexivity | simpl; lia].
Defined.

(** ** Words and fields *)

Lemma string_app_nil_r (s : string) : (s ++ "")%string = s.
Proof. induction s as [|c s IH]; simpl; [reflexivity | now rewrite IH]. Qed.

Lemma string_app_assoc (a b c : string) :
  ((a ++ b) ++ c)%string = (a ++ (b ++ c))%string.
Proof. induction a as [|x a IH]; simpl; [reflexivity | now rewrite IH]. Qed.

Lemma string_app_not_empty (a : string) c b :
  String.eqb (a ++ String c b) "" = false.
Proof. destruct a; reflexivity. Qed.

Lemma no_space_app a b : no_space (a ++ b) = no_space a && no_space b.
Proof.
  induction a as [|c a IH]; simpl; [reflexivity|].
  rewrite IH. now rewrite andb_assoc.
Qed.

Lemma one_word_snoc a c :
  no_space a = true -> is_space c = false -> one_word (a ++ String c "") = true.
Proof.
  intros Ha Hc. unfold one_word.
  rewrite string_app_not_empty, no_space_app, Ha. simpl. now rewrite Hc.
Qed.

Lemma one_word_no_space x : one_word x = true -> no_space x = true.
Proof. unfold one_word. intros H. now apply andb_true_iff in H. Qed.

Lemma split_ws_aux_word x : forall s w,
  no_space x = true -> split_ws_aux (x ++ s) w = split_ws_aux s (w ++ x).
Proof.
  induction x as [|c x IH]; intros s w H.
  - now rewrite string_app_nil_r.
  - cbn [no_space] in H. apply andb_true_iff in H. destruct H as [Hc Hx].
    apply negb_true_iff in Hc.
    cbn [append split_ws_aux]. rewrite Hc, (IH _ _ Hx).
    now rewrite string_app_assoc.
Qed.

(** A word followed by a blank is the next field. *)
Lemma split_ws_field x s :
  one_word x = true -> split_ws (x ++ String " " s) = x :: split_ws s.
Proof.
  intros H. unfold split_ws.
  rewrite (split_ws_aux_word x _ _ (one_word_no_space _ H)).
  cbn [split_ws_aux append]. change (is_space " ") with true. cbv iota.
  unfold one_word in H. apply andb_true_iff in H. destruct H as [Hne _].
  apply negb_true_iff in Hne. now rewrite Hne.
Qed.

Lemma split_ws_one_word x : one_word x = true -> split_ws x = [x].
Proof.
  intros H. unfold split_ws.
  rewrite <- (string_app_nil_r x) at 1.
  rewrite (split_ws_aux_word x _ _ (one_word_no_space _ H)).
  cbn [split_ws_aux append].
  unfold one_word in H. apply andb_true_iff in H. destruct H as [Hne _].
  apply negb_true_iff in Hne. now rewrite Hne.
Qed.

Lemma digit_char_not_space d : is_space (digit_char d) = false.
Proof.
  unfold digit_char.
  assert (H : 0 <= d mod 10 < 10) by (apply Z.mod_pos_bound; lia).
  assert (E : d mod 10 = 0 \/ d mod 10 = 1 \/ d mod 10 = 2 \/ d mod 10 = 3
              \/ d mod 10 = 4 \/ d mod 10 = 5 \/ d mod 10 = 6 \/ d mod 10 = 7
              \/ d mod 10 = 8 \/ d mod 10 = 9) by lia.
  repeat (destruct E as [E|E]; [rewrite E; reflexivity|]).
  rewrite E; reflexivity.
Qed.

Lemma zero_padded_no_space w : forall n, no_space (zero_padded w n) = true.
Proof.
  induction w as [|w IH]; intros n; simpl; [reflexivity|].
  rewrite no_space_app, IH. simpl. now rewrite digit_char_not_space.
Qed.

Lemma zero_padded_one_word w n : one_word (zero_padded (S w) n) = true.
Proof.
  simpl. apply one_word_snoc;
    [apply zero_padded_no_space | apply digit_char_not_space].
Qed.

Lemma decimal_aux_one_word fuel : forall n, one_word (decimal_aux (S fuel) n) = true.
Proof.
  induction fuel as [|k IH]; intros n; cbn [decimal_aux].
  - destruct (n <? 10).
    + unfold one_word. simpl. now rewrite digit_char_not_space.
    + simpl. unfold one_word. simpl. now rewrite digit_char_not_space.
  - destruct (n <? 10).
    + unfold one_word. simpl. now rewrite digit_char_not_space.
    + apply one_word_snoc;
        [apply one_word_no_space, IH | apply digit_char_not_space].
Qed.

Lemma decimal_one_word n : one_word (decimal n) = true.
Proof. apply decimal_aux_one_word. Qed.

Lemma month_abbr_one_word i : one_word (nth i month_abbr "Jan") = true.
Proof. do 12 (destruct i as [|i]; [reflexivity|]). destruct i; reflexivity. Qed.

Lemma hour_minute_one_word h mi :
  one_word (zero_padded 2 h ++ ":" ++ zero_padded 2 mi) = true.
Proof.
  change (zero_padded 2 h ++ ":" ++ zero_padded 2 mi)%string
    with (zero_padded 2 h ++ (String ":" (zero_padded 1 (mi / 10))
                              ++ String (digit_char mi) ""))%string.
  rewrite <- string_app_assoc. apply one_word_snoc; [|apply digit_char_not_space].
  rewrite no_space_app, zero_padded_no_space. simpl.
  now rewrite digit_char_not_space.
Qed.

Lemma split_ws_three_fields a b c rest :
  one_word a = true -> one_word b = true -> one_word c = true ->
  split_ws ((a ++ " " ++ b ++ " " ++ c) ++ String " " rest)
  = [a; b; c] ++ split_ws rest.
Proof.
  intros Ha Hb Hc.
  replace ((a ++ " " ++ b ++ " " ++ c) ++ String " " rest)%string
    with (a ++ String " " (b ++ String " " (c ++ String " " rest)))%string.
  - now rewrite (split_ws_field _ _ Ha), (split_ws_field _ _ Hb),
      (split_ws_field _ _ Hc).
  - rewrite string_app_assoc. cbn [append]. rewrite string_app_assoc.
    cbn [append]. reflexivity.
Qed.

Lemma split_ws_list_time m rest :
  exists a b c,
    split_ws (list_time m ++ String " " rest) = [a; b; c] ++ split_ws rest.
Proof.
  do 3 eexists. unfold list_time. cbv zeta.
  apply split_ws_three_fields;
    [apply month_abbr_one_word | apply (zero_padded_one_word 1)
     | apply hour_minute_one_word].
Qed.

(** The eight fields a listing line has before the name. *)
Lemma split_ws_list_line name n :
  exists fields,
    List.length fields = 8%nat
    /\ split_ws (list_line (name, n)) = fields ++ split_ws name.
Proof.
  destruct n as [d m|m es]; cbn [list_line].
  - destruct (split_ws_list_time m name) as (a & b & c & Htime).
    exists ["-rw-r--r--"; "1"; "vita"; "vita";
            decimal (Z.of_nat (String.length d)); a; b; c].
    split; [reflexivity|].
    change (split_ws ("-rw-r--r-- 1 vita vita " ++ ?r))
      with (["-rw-r--r--"; "1"; "vita"; "vita"] ++ split_ws r).
    change (" " ++ name)%string with (String " " name).
    change (" " ++ ?x)%string with (String " " x).
    rewrite (split_ws_field _ _ (decimal_one_word _)), Htime. reflexivity.
  - destruct (split_ws_list_time m name) as (a & b & c & Htime).
    exists ["drwxr-xr-x"; "1"; "vita"; "vita"; "0"; a; b; c].
    split; [reflexivity|].
    change (split_ws ("drwxr-xr-x 1 vita vita 0 " ++ ?r))
      with (["drwxr-xr-x"; "1"; "vita"; "vita"; "0"] ++ split_ws r).
    change (" " ++ name)%string with (String " " name).
    rewrite Htime. reflexivity.
Qed.

(** ** What the listing records *)

Lemma dict_keys_set k v d x :
  In x (dict_keys (dict_set k v d)) <-> x = k \/ In x (dict_keys d).
Proof.
  induction d as [|[k' v'] d IH]; simpl.
  - intuition.
  - destruct (String.eqb_spec k' k) as [->|Hne]; simpl; [intuition|].
    rewrite IH. intuition.
Qed.

Lemma dict_keys_set_fresh k v d :
  ~ In k (dict_keys d) -> dict_keys (dict_set k v d) = dict_keys d ++ [k].
Proof.
  induction d as [|[k' v'] d IH]; simpl; intros Hk; [reflexivity|].
  destruct (String.eqb_spec k' k) as [->|Hne]; [tauto|].
  simpl. rewrite IH; [reflexivity | tauto].
Qed.

Lemma dict_values_set (P : Z -> Prop) k v d :
  P v -> Forall P (dict_values d) -> Forall P (dict_values (dict_set k v d)).
Proof.
  intros Hv. induction d as [|[k' v'] d IH]; simpl; intros Hd.
  - constructor; [assumption | constructor].
  - inversion Hd; subst.
    destruct (String.eqb k' k); simpl; constructor; auto.
Qed.

Lemma dict_get_value k v d : dict_get k d = Some v -> In v (dict_values d).
Proof.
  induction d as [|[k' v'] d IH]; simpl; [discriminate|].
  destruct (String.eqb k' k); intros H; [inversion H; now left | right; auto].
Qed.

(** A timestamp the listing can record: the default, or a time of the
    year 1900. *)
Lemma index_of_range x : forall l i k,
  index_of x l i = Some k -> i <= k < i + Z.of_nat (List.length l).
Proof.
  induction l as [|y l IH]; intros i k; cbn [index_of List.length]; [discriminate|].
  destruct (String.eqb x y).
  - intros H. inversion H. lia.
  - intros H. apply IH in H. lia.
Qed.

Lemma parse_field_range lo hi s v : parse_field lo hi s = Some v -> lo <= v <= hi.
Proof.
  unfold parse_field.
  destruct (String.length s <=? 2)%nat; [|discriminate].
  destruct (digits_value s) as [x|]; [|discriminate].
  destruct ((lo <=? x) && (x <=? hi)) eqn:E; [|discriminate].
  intros H. inversion H; subst.
  apply andb_true_iff in E. destruct E as [E1 E2].
  apply Z.leb_le in E1. apply Z.leb_le in E2. lia.
Qed.

Lemma parse_hour_minute_range s h mi :
  parse_hour_minute s = Some (h, mi) -> 0 <= h <= 23 /\ 0 <= mi <= 59.
Proof.
  unfold parse_hour_minute.
  destruct (split_on ":" s) as [|a [|b [|c l]]]; try discriminate.
  destruct (parse_field 0 23 a) as [hv|] eqn:Ha; [|discriminate].
  destruct (parse_field 0 59 b) as [mv|] eqn:Hb; [|discriminate].
  intros H. inversion H; subst.
  split; eapply parse_field_range; eassumption.
Qed.

(** The fields [strptime] returns for the format without a year. *)
Lemma strptime_fields s t :
  strptime_b_d_HM s = Some t ->
  tm_year t = 1900
  /\ 1 <= tm_mon t <= 12
  /\ 1 <= tm_mday t
     <= days_in_month (if (tm_mon t =? 2) && (tm_mday t =? 29) then 1904 else 1900)
                      (tm_mon t)
  /\ 0 <= tm_hour t <= 23 /\ 0 <= tm_min t <= 59 /\ tm_sec t = 0.
Proof.
  unfold strptime_b_d_HM.
  destruct (starts_with_space s || ends_with_space s); [discriminate|].
  destruct (split_ws s) as [|b [|d [|hm [|x l]]]]; try discriminate.
  destruct (parse_month b) as [mon|] eqn:Hmon; [|discriminate].
  destruct (parse_field 1 31 d) as [day|] eqn:Hday; [|discriminate].
  destruct (parse_hour_minute hm) as [[h mi]|] eqn:Hhm; [|discriminate].
  destruct (day <=? days_in_month _ mon) eqn:Hle; [|discriminate].
  intros H. inversion H; subst. cbn [tm_year tm_mon tm_mday tm_hour tm_min tm_sec].
  apply index_of_range in Hmon. cbn [month_names List.length] in Hmon.
  apply parse_field_range in Hday. apply parse_hour_minute_range in Hhm.
  apply Z.leb_le in Hle.
  repeat split; try lia.
Qed.

Lemma days_from_civil_day y m d :
  days_from_civil y m d = days_from_civil y m 0 + d.
Proof. unfold days_from_civil. cbv zeta. lia. Qed.

(** Such a time lies between the first second of 1900 and the first
    second of 1901, in the local zone. *)
Lemma mktime_within_1900 tz t :
  tm_year t = 1900 ->
  1 <= tm_mon t <= 12 ->
  1 <= tm_mday t
    <= days_in_month (if (tm_mon t =? 2) && (tm_mday t =? 29) then 1904 else 1900)
                     (tm_mon t) ->
  0 <= tm_hour t <= 23 -> 0 <= tm_min t <= 59 -> tm_sec t = 0 ->
  mktime tz (mk_struct_time 1900 1 1 0 0 0) <= mktime tz t
  < mktime tz (mk_struct_time 1901 1 1 0 0 0).
Proof.
  destruct t as [y mon day h mi sec].
  cbn [tm_year tm_mon tm_mday tm_hour tm_min tm_sec].
  intros -> Hmon Hday Hh Hmi ->.
  unfold mktime. cbn [tm_year tm_mon tm_mday tm_hour tm_min tm_sec].
  change (days_from_civil 1900 1 1) with (-25567).
  change (days_from_civil 1901 1 1) with (-25202).
  assert (Hm : mon = 1 \/ mon = 2 \/ mon = 3 \/ mon = 4 \/ mon = 5 \/ mon = 6
               \/ mon = 7 \/ mon = 8 \/ mon = 9 \/ mon = 10 \/ mon = 11
               \/ mon = 12) by lia.
  assert (Hdays : -25567 <= days_from_civil 1900 mon day <= -25203).
  { rewrite days_from_civil_day.
    destruct Hm as [-> | [-> | [-> | [-> | [-> | [-> | [-> | [-> | [-> | [-> | [-> | ->]]]]]]]]]]];
      try (change (days_in_month _ _) with 31 in Hday
           || change (days_in_month _ _) with 30 in Hday);
      match goal with
      | |- context [days_from_civil 1900 ?m 0] =>
          let c := eval vm_compute in (days_from_civil 1900 m 0) in
          change (days_from_civil 1900 m 0) with c
      end; try lia.
    destruct (Z.eqb_spec day 29) as [->|Hne]; [lia|].
    change (days_in_month _ _) with 28 in Hday. lia. }
  lia.
Qed.

Lemma parse_line_values tz items line :
  Forall (fun v => v = 0
                   \/ mktime tz (mk_struct_time 1900 1 1 0 0 0) <= v
                      < mktime tz (mk_struct_time 1901 1 1 0 0 0))
         (dict_values items) ->
  Forall (fun v => v = 0
                   \/ mktime tz (mk_struct_time 1900 1 1 0 0 0) <= v
                      < mktime tz (mk_struct_time 1901 1 1 0 0 0))
         (dict_values (parse_line tz items line)).
Proof.
  intros H. unfold parse_line.
  destruct (9 <=? List.length (split_ws line))%nat; [|assumption].
  destruct (strptime_b_d_HM _) as [t|] eqn:Ht.
  - apply dict_values_set; [|assumption].
    right. destruct (strptime_fields _ _ Ht) as (Hy & Hmon & Hday & Hh & Hmi & Hs).
    now apply mktime_within_1900.
  - apply dict_values_set; [now left | assumption].
Qed.

Lemma last_app_nonempty {A} (l l' : list A) d :
  l' <> [] -> last (l ++ l') d = last l' d.
Proof.
  intros Hne. induction l as [|x l IH]; [reflexivity|].
  simpl. destruct (l ++ l') eqn:E; [|exact IH].
  apply app_eq_nil in E. destruct E; contradiction.
Qed.

(** The line of an entry is recorded under the last word of its name, and
    skipped when the name has no word. *)
Lemma parse_line_list_line tz items name n :
  exists v,
    parse_line tz items (list_line (name, n))
    = match listed_as name with
      | Some k => dict_set k v items
      | None => items
      end.
Proof.
  destruct (split_ws_list_line name n) as (fields & Hlen & Hsplit).
  unfold parse_line, listed_as. rewrite Hsplit, length_app, Hlen.
  destruct (split_ws name) as [|w ws] eqn:Hw.
  - exists 0. reflexivity.
  - rewrite last_app_nonempty by discriminate.
    replace (9 <=? 8 + List.length (w :: ws))%nat with true
      by (symmetry; apply Nat.leb_le; simpl; lia).
    destruct (strptime_b_d_HM _) as [t|]; eexists; reflexivity.
Qed.

Lemma listing_keys tz k : forall es d,
  In k (dict_keys (fold_left (parse_line tz) (map list_line es) d))
  <-> In k (dict_keys d)
      \/ exists name, In name (map fst es) /\ listed_as name = Some k.
Proof.
  induction es as [|[name n] es IH]; intros d; cbn [map fold_left fst In].
  - split; [now left | intros [H | (name & [] & _)]; exact H].
  - rewrite IH. destruct (parse_line_list_line tz d name n) as [v ->].
    destruct (listed_as name) as [k'|] eqn:Hk'.
    + rewrite dict_keys_set. split.
      * intros [[-> | H] | (x & Hx & Hl)]; eauto 6.
      * intros [H | (x & [<- | Hx] & Hl)]; eauto 6.
        left. left. congruence.
    + split.
      * intros [H | (x & Hx & Hl)]; eauto 6.
      * intros [H | (x & [<- | Hx] & Hl)]; eauto 6. congruence.
Qed.

Lemma names_distinct_NoDup l : names_distinct l = true -> NoDup l.
Proof.
  induction l as [|x l IH]; simpl; intros H; [constructor|].
  apply andb_true_iff in H. destruct H as [Hx Hl].
  constructor; [|auto].
  intros Hin. apply negb_true_iff in Hx.
  assert (existsb (String.eqb x) l = true)
    by (apply existsb_exists; exists x; split; [assumption | apply String.eqb_refl]).
  congruence.
Qed.

Lemma listed_as_one_word name : one_word name = true -> listed_as name = Some name.
Proof. intros H. unfold listed_as. now rewrite (split_ws_one_word _ H). Qed.

(** Names that are one word each, and distinct, are the keys, in order. *)
Lemma listing_keys_plain tz : forall es d,
  forallb (fun e => one_word (fst e)) es = true ->
  NoDup (dict_keys d ++ map fst es) ->
  dict_keys (fold_left (parse_line tz) (map list_line es) d)
  = dict_keys d ++ map fst es.
Proof.
  induction es as [|[name n] es IH]; intros d Hw Hnd; cbn [map fold_left fst].
  - now rewrite app_nil_r.
  - simpl in Hw. apply andb_true_iff in Hw. destruct Hw as [Hname Hw].
    destruct (parse_line_list_line tz d name n) as [v ->].
    rewrite (listed_as_one_word _ Hname).
    simpl in Hnd.
    assert (Hfresh : ~ In name (dict_keys d)).
    { intros Hin. apply NoDup_remove_2 in Hnd. apply Hnd.
      apply in_or_app. now left. }
    rewrite IH.
    + rewrite (dict_keys_set_fresh _ _ _ Hfresh). now rewrite <- app_assoc.
    + assumption.
    + rewrite (dict_keys_set_fresh _ _ _ Hfresh). now rewrite <- app_assoc.
Qed.

(** X8.  Whatever the server holds, [list_directory_with_details] returns
    normally with the session where it was, and every timestamp it records
    is the default 0 or a time of the year 1900 in the local zone, from
    the first second of 1 January 1900 to before the first second of
    1 January 1901: no entry ever carries the year in which the file was
    modified. *)
Theorem listing_times_are_in_1900_or_zero tz st :
  exists items,
    list_directory_with_details tz st = (st, Ok items)
    /\ forall k v,
         dict_get k items = Some v ->
         v = 0
         \/ mktime tz (mk_struct_time 1900 1 1 0 0 0) <= v
            < mktime tz (mk_struct_time 1901 1 1 0 0 0).
Proof.
  assert (Hfold : forall lines d,
             Forall (fun v => v = 0
                              \/ mktime tz (mk_struct_time 1900 1 1 0 0 0) <= v
                                 < mktime tz (mk_struct_time 1901 1 1 0 0 0))
                    (dict_values d) ->
             Forall (fun v => v = 0
                              \/ mktime tz (mk_struct_time 1900 1 1 0 0 0) <= v
                                 < mktime tz (mk_struct_time 1901 1 1 0 0 0))
                    (dict_values (fold_left (parse_line tz) lines d))).
  { induction lines as [|l lines IH]; intros d Hd; simpl; [assumption|].
    apply IH, parse_line_values, Hd. }
  assert (Hget : forall items,
             Forall (fun v => v = 0
                              \/ mktime tz (mk_struct_time 1900 1 1 0 0 0) <= v
                                 < mktime tz (mk_struct_time 1901 1 1 0 0 0))
                    (dict_values items) ->
             forall k v, dict_get k items = Some v ->
                         v = 0
                         \/ mktime tz (mk_struct_time 1900 1 1 0 0 0) <= v
                            < mktime tz (mk_struct_time 1901 1 1 0 0 0)).
  { intros items H k v Hk. rewrite Forall_forall in H.
    apply H, (dict_get_value k), Hk. }
  unfold list_directory_with_details, try_except_perm, bind, ftp_list, ret.
  destruct (lookup (ftp_cwd_path st) (srv_root st)) as [[? ?|? es]|];
    try (exists []; split; [reflexivity | discriminate]).
  destruct (path_in (ftp_cwd_path st) (srv_unlistable st));
    [exists []; split; [reflexivity | discriminate]|].
  eexists. split; [reflexivity|].
  apply Hget, Hfold. constructor.
Qed.

(** X9.  In a directory the server lets the session list, the names the
    listing records are the last words of the entries' names: a name with
    blanks in it is recorded under its last word only, and an entry whose
    name has no word at all is left out. *)
Theorem listing_keys_are_last_words tz st m es
  (Hdir : lookup (ftp_cwd_path st) (srv_root st) = Some (Dir m es))
  (Hlist : path_in (ftp_cwd_path st) (srv_unlistable st) = false) :
  exists items,
    list_directory_with_details tz st = (st, Ok items)
    /\ forall k,
         In k (dict_keys items)
         <-> exists name, In name (map fst es) /\ listed_as name = Some k.
Proof.
  unfold list_directory_with_details, try_except_perm, bind, ftp_list, ret.
  rewrite Hdir, Hlist. eexists. split; [reflexivity|].
  intros k. rewrite listing_keys. simpl. tauto.
Qed.

Lemma listing_keys_are_last_words_witness :
  exists items,
    list_directory_with_details 0
      (mk_ftp (Dir 0 [("my save.dat", File "S" 1000); ("notes", Dir 5 [])]) [] [] [])
    = (mk_ftp (Dir 0 [("my save.dat", File "S" 1000); ("notes", Dir 5 [])]) [] [] [],
       Ok items)
    /\ forall k,
         In k (dict_keys items)
         <-> exists name,
               In name (map fst [("my save.dat", File "S" 1000); ("notes", Dir 5 [])])
               /\ listed_as name = Some k.
Proof.
  apply (listing_keys_are_last_words 0
           (mk_ftp (Dir 0 [("my save.dat", File "S" 1000); ("notes", Dir 5 [])])
                   [] [] [])
           0 [("my save.dat", File "S" 1000); ("notes", Dir 5 [])]);
    reflexivity.
Defined.

(** ** Paths on the server *)

Lemma split_on_aux_no_sep s : forall piece,
  no_slash s = true -> split_on_aux "/" s piece = [(piece ++ s)%string].
Proof.
  induction s as [|c s IH]; intros piece H.
  - now rewrite string_app_nil_r.
  - cbn [no_slash] in H. apply andb_true_iff in H. destruct H as [Hc Hs].
    apply negb_true_iff in Hc. cbn [split_on_aux]. rewrite Hc, (IH _ Hs).
    now rewrite string_app_assoc.
Qed.

Lemma split_on_aux_piece x : forall rest piece,
  no_slash x = true ->
  split_on_aux "/" (x ++ String "/" rest) piece
  = (piece ++ x)%string :: split_on_aux "/" rest "".
Proof.
  induction x as [|c x IH]; intros rest piece H.
  - rewrite string_app_nil_r. cbn [append split_on_aux].
    change (Ascii.eqb "/" "/") with true. reflexivity.
  - cbn [no_slash] in H. apply andb_true_iff in H. destruct H as [Hc Hx].
    apply negb_true_iff in Hc. cbn [append split_on_aux].
    rewrite Hc, (IH _ _ Hx). now rewrite string_app_assoc.
Qed.

Lemma plain_name_parts s :
  plain_name s = true ->
  one_word s = true /\ no_slash s = true /\ s <> "" /\ s <> "." /\ s <> "..".
Proof.
  unfold plain_name. intros H.
  apply andb_true_iff in H. destruct H as [H H4].
  apply andb_true_iff in H. destruct H as [H H3].
  apply andb_true_iff in H. destruct H as [H1 H2].
  repeat split; try assumption.
  - intros ->. discriminate.
  - intros ->. discriminate.
  - intros ->. discriminate.
Qed.

Lemma resolve_step_plain acc s : plain_name s = true -> resolve_step acc s = acc ++ [s].
Proof.
  intros H. destruct (plain_name_parts s H) as (_ & _ & H0 & H1 & H2).
  unfold resolve_step.
  destruct (String.eqb_spec s ""); [contradiction|].
  destruct (String.eqb_spec s "."); [contradiction|].
  destruct (String.eqb_spec s ".."); [contradiction|]. reflexivity.
Qed.

Lemma no_slash_start s : no_slash s = true -> starts_with_slash s = false.
Proof.
  destruct s as [|c s]; [reflexivity|]. cbn [no_slash starts_with_slash].
  intros H. apply andb_true_iff in H. destruct H as [Hc _].
  now apply negb_true_iff in Hc.
Qed.

(** A plain name names the entry of the working directory. *)
Lemma resolve_plain c item : plain_name item = true -> resolve c item = c ++ [item].
Proof.
  intros H. destruct (plain_name_parts item H) as (_ & Hs & _).
  unfold resolve, split_on.
  rewrite (no_slash_start _ Hs), (split_on_aux_no_sep _ _ Hs).
  cbn [fold_left append]. now apply resolve_step_plain.
Qed.

Lemma resolve_dotdot c : resolve c ".." = removelast c.
Proof. reflexivity. Qed.

Lemma fold_resolve_plain c : forall acc,
  forallb plain_name c = true -> fold_left resolve_step c acc = acc ++ c.
Proof.
  induction c as [|x c IH]; intros acc H; cbn [fold_left].
  - now rewrite app_nil_r.
  - cbn [forallb] in H. apply andb_true_iff in H. destruct H as [Hx Hc].
    rewrite (resolve_step_plain _ _ Hx), (IH _ Hc), <- app_assoc. reflexivity.
Qed.

Lemma split_on_join c :
  forallb plain_name c = true -> c <> [] -> split_on "/" (join "/" c) = c.
Proof.
  unfold split_on. induction c as [|x c IH]; intros H Hne; [contradiction|].
  cbn [forallb] in H. apply andb_true_iff in H. destruct H as [Hx Hc].
  destruct (plain_name_parts x Hx) as (_ & Hs & _).
  destruct c as [|y c].
  - cbn [join]. now rewrite (split_on_aux_no_sep _ _ Hs).
  - change (join "/" (x :: y :: c)) with (x ++ String "/" (join "/" (y :: c)))%string.
    rewrite (split_on_aux_piece _ _ _ Hs), IH; [reflexivity | assumption | discriminate].
Qed.

(** What [pwd] prints leads back to the working directory. *)
Lemma resolve_pwd_plain root denied unl c d :
  forallb plain_name c = true ->
  resolve d (ftp_pwd (mk_ftp root denied unl c)) = c.
Proof.
  intros H. unfold ftp_pwd, resolve. cbn [ftp_cwd_path append starts_with_slash].
  change (Ascii.eqb "/" "/") with true. cbv iota.
  destruct c as [|x c]; [reflexivity|].
  unfold split_on. cbn [split_on_aux]. change (Ascii.eqb "/" "/") with true.
  cbv iota. fold (split_on "/" (join "/" (x :: c))).
  rewrite (split_on_join _ H) by discriminate.
  change (fold_left resolve_step ("" :: x :: c) [])
    with (fold_left resolve_step (x :: c) []).
  now rewrite (fold_resolve_plain _ _ H).
Qed.

Lemma lookup_parent_isdir t n c :
  lookup t n = Some c -> is_dir_node n = true ->
  as_dir (lookup (removelast t) n) = true.
Proof.
  intros Hl Hn. destruct (list_eq_dec string_dec t []) as [->|Hne].
  - simpl. destruct n; [discriminate | reflexivity].
  - rewrite (app_removelast_last "" Hne) in Hl. rewrite lookup_app in Hl.
    destruct (lookup (removelast t) n) as [[d m|m es]|]; simpl in *;
      [discriminate | reflexivity | discriminate].
Qed.

(** ** [count_files] *)

Lemma bind_ok {S A B} (c : M S A) (k : A -> M S B) s s' a :
  c s = (s', Ok a) -> bind c k s = k a s'.
Proof. intros H. unfold bind. now rewrite H. Qed.

Lemma for_fold_cons {S A B} (x : B) l (acc : A) (body : A -> B -> M S A) :
  for_fold (x :: l) acc body = (acc' <- body acc x ;; for_fold l acc' body).
Proof. reflexivity. Qed.

Lemma for_fold_step {S A B} (x : B) l (acc : A) (body : A -> B -> M S A) s s' a :
  body acc x s = (s', Ok a) ->
  for_fold (x :: l) acc body s = for_fold l a body s'.
Proof. intros H. rewrite for_fold_cons. unfold bind. now rewrite H. Qed.

Lemma depth_entry k c es :
  In (k, c) es ->
  (depth c <= fold_right Nat.max O
                (map (fun e : string * node => match e with (_, c) => depth c end) es))%nat.
Proof.
  induction es as [|[k' c'] es IH]; simpl; [contradiction|].
  intros [H|H]; [inversion H; subst; lia | specialize (IH H); lia].
Qed.

Lemma plain_node_entry k c m es :
  plain_node (Dir m es) = true -> In (k, c) es ->
  plain_name k = true /\ plain_node c = true.
Proof.
  cbn [plain_node]. rewrite forallb_forall. intros H Hin.
  specialize (H _ Hin). cbn in H. now apply andb_true_iff in H.
Qed.

Lemma wf_node_entry k c m es :
  wf_node (Dir m es) = true -> In (k, c) es -> wf_node c = true.
Proof.
  cbn [wf_node]. intros H Hin. apply andb_true_iff in H. destruct H as [_ H].
  rewrite forallb_forall in H. exact (H _ Hin).
Qed.

Lemma count_files_dir tz : forall limit remote_dir root c m es,
  forallb plain_name (resolve c remote_dir) = true ->
  lookup (resolve c remote_dir) root = Some (Dir m es) ->
  plain_node (Dir m es) = true ->
  wf_node (Dir m es) = true ->
  (depth (Dir m es) <= limit)%nat ->
  count_files tz limit remote_dir (mk_ftp root [] [] c)
  = (mk_ftp root [] [] (removelast (resolve c remote_dir)),
     Ok (count_tree (Dir m es))).
Proof.
  induction limit as [|limit IH]; intros remote_dir root c m es Ht Hl Hp Hw Hd.
  { simpl in Hd. lia. }
  remember (resolve c remote_dir) as t eqn:Et.
  remember (mk_ftp root [] [] t) as st1 eqn:Est1.
  assert (Hcwd : ftp_cwd remote_dir (mk_ftp root [] [] c) = (st1, Ok tt)).
  { unfold ftp_cwd. cbn [ftp_cwd_path srv_root srv_denied srv_unlistable].
    rewrite <- Et, Hl, Est1. reflexivity. }
  assert (Hok1 : session_ok st1).
  { rewrite Est1. split; [apply resolve_pwd_plain; exact Ht|].
    cbn [ftp_cwd_path srv_root srv_denied]. rewrite Hl. now split. }
  assert (Hnd : names_distinct (map fst es) = true).
  { cbn [wf_node] in Hw. now apply andb_true_iff in Hw. }
  assert (Hlist : exists items,
             list_directory_with_details tz st1 = (st1, Ok items)
             /\ dict_keys items = map fst es).
  { unfold list_directory_with_details, try_except_perm, bind, ftp_list, ret.
    rewrite Est1. cbn [ftp_cwd_path srv_root srv_unlistable]. rewrite Hl.
    cbn [path_in existsb]. eexists. split; [reflexivity|].
    apply (listing_keys_plain tz es []).
    - apply forallb_forall. intros [k ch] Hin.
      destruct (plain_node_entry _ _ _ _ Hp Hin) as [Hk _].
      now destruct (plain_name_parts _ Hk).
    - now apply names_distinct_NoDup. }
  destruct Hlist as (items & Hlist & Hkeys).
  assert (Hloop : forall l acc,
             incl l es ->
             for_fold (map fst l) acc
               (fun total_files item =>
                  isdir <- is_directory item ;;
                  if isdir then
                    n <- count_files tz limit item ;; ret (total_files + n)
                  else ret (total_files + 1)) st1
             = (st1, Ok (acc + fold_right Z.add 0
                                 (map (fun e : string * node =>
                                         match e with (_, ch) => count_tree ch end) l)))).
  { induction l as [|[k ch] l IHl]; intros acc Hincl.
    - cbn. now rewrite Z.add_0_r.
    - assert (Hin : In (k, ch) es) by (apply Hincl; now left).
      assert (Hincl' : incl l es) by (intros x Hx; apply Hincl; now right).
      destruct (plain_node_entry _ _ _ _ Hp Hin) as [Hk Hpch].
      assert (Hch : lookup (t ++ [k]) root = Some ch).
      { rewrite lookup_app, Hl. cbn [lookup].
        now rewrite (names_distinct_lookup _ _ _ Hnd Hin). }
      assert (Hprobe : is_directory k st1 = (st1, Ok (is_dir_node ch))).
      { rewrite (is_directory_probe k st1 Hok1). rewrite Est1.
        cbn [ftp_cwd_path srv_root srv_denied].
        rewrite (resolve_plain _ _ Hk), Hch. cbn [path_in existsb negb].
        rewrite andb_true_r. destruct ch; reflexivity. }
      cbn [map fst].
      rewrite (for_fold_step k (map fst l) acc _ st1 st1 (acc + count_tree ch)).
      + rewrite (IHl _ Hincl'). cbn [map fold_right]. f_equal. f_equal. lia.
      + cbv beta. rewrite (bind_ok _ _ _ _ _ Hprobe).
        destruct ch as [d0 m0|m' es']; cbn [is_dir_node]; [reflexivity|].
        assert (Hrec : count_files tz limit k st1
                       = (st1, Ok (count_tree (Dir m' es')))).
        { rewrite Est1.
          rewrite (IH k root t m' es').
          - rewrite (resolve_plain _ _ Hk), removelast_last. reflexivity.
          - rewrite (resolve_plain _ _ Hk), forallb_app, Ht. cbn [forallb].
            now rewrite Hk.
          - now rewrite (resolve_plain _ _ Hk).
          - exact Hpch.
          - exact (wf_node_entry _ _ _ _ Hw Hin).
          - pose proof (depth_entry _ _ _ Hin) as Hde.
            cbn [depth] in Hd. lia. }
        rewrite (bind_ok _ _ _ _ _ Hrec). reflexivity. }
  cbn [count_files].
  rewrite (bind_ok _ _ (mk_ftp root [] [] c) st1 true).
  2:{ unfold try_except_perm, bind. now rewrite Hcwd. }
  cbn [negb]. rewrite (bind_ok _ _ _ _ _ Hlist), Hkeys.
  rewrite (bind_ok _ _ _ _ _ (Hloop es 0 (incl_refl es))).
  assert (Hup : ftp_cwd ".." st1 = (mk_ftp root [] [] (removelast t), Ok tt)).
  { unfold ftp_cwd. rewrite Est1.
    cbn [ftp_cwd_path srv_root srv_denied srv_unlistable].
    rewrite resolve_dotdot.
    assert (Hroot : is_dir_node root = true).
    { destruct root as [d0 m0|m0 es0]; [|reflexivity].
      destruct t; simpl in Hl; discriminate. }
    now rewrite (lookup_parent_isdir _ _ _ Hl Hroot). }
  rewrite (bind_ok _ _ _ _ _ Hup). reflexivity.
Qed.

(** X10.  On a server that refuses nothing, [count_files] returns the
    number of regular files below the directory it is given, provided the
    names on the way to it and below it are plain (one word, no slash, not
    a dot name) and distinct in each directory, and the interpreter allows
    as many nested calls as the directory is deep.  The session ends in
    the parent of the counted directory, wherever it began. *)
Theorem count_files_counts_the_tree tz limit remote_dir st m es
  (Hfree : srv_denied st = [] /\ srv_unlistable st = [])
  (Hpath : forallb plain_name (resolve (ftp_cwd_path st) remote_dir) = true)
  (Hdir : lookup (resolve (ftp_cwd_path st) remote_dir) (srv_root st)
          = Some (Dir m es))
  (Hplain : plain_node (Dir m es) = true)
  (Hwf : wf_node (Dir m es) = true)
  (Hlimit : (depth (Dir m es) <= limit)%nat) :
  count_files tz limit remote_dir st
  = (mk_ftp (srv_root st) [] []
            (removelast (resolve (ftp_cwd_path st) remote_dir)),
     Ok (count_tree (Dir m es))).
Proof.
  destruct st as [root denied unl c]. destruct Hfree as [Hd Hu].
  cbn [srv_root srv_denied srv_unlistable ftp_cwd_path] in *. subst denied unl.
  now apply count_files_dir.
Qed.

Lemma count_files_counts_the_tree_witness :
  count_files 0 10 remote_dir (Vita.connected Vita.game_and_file)
  = (mk_ftp (Vita.root_with Vita.game_and_file) [] [] ["ux0:"; "user"; "00"],
     Ok 3).
Proof.
  apply (count_files_counts_the_tree 0 10 remote_dir
           (Vita.connected Vita.game_and_file) 0 Vita.game_and_file);
    [split; reflexivity | reflexivity | reflexivity | reflexivity | reflexivity
     | cbn; lia].
Defined.

(** ** [upload_directory] *)

Lemma for_each_app {S B} (l1 l2 : list B) (body : B -> M S unit) s :
  for_each (l1 ++ l2) body s
  = match for_each l1 body s with
    | (s', Ok _) => for_each l2 body s'
    | (s', Raise e) => (s', Raise e)
    end.
Proof.
  revert s. induction l1 as [|x l1 IH]; intros s; [reflexivity|].
  cbn [app]. rewrite !for_each_cons.
  destruct (body x s) as [s1 [[]|e]]; [apply IH | reflexivity].
Qed.

Lemma srv_write_result now p f st st' r :
  srv_write now p f st = (st', r) ->
  (exists root', write_node now p f (srv_root st) = Ok root'
                 /\ st' = mk_ftp root' (srv_denied st) (srv_unlistable st)
                                 (ftp_cwd_path st)
                 /\ r = Ok tt)
  \/ (st' = st /\ r = Raise error_perm).
Proof.
  unfold srv_write. destruct (write_node now p f (srv_root st)) as [root'|e];
    intros H; inversion H; subst; eauto.
Qed.

(** The loop body on a regular file is [upload_file]. *)
Lemma upload_file_listed now rf pbar item data mt s :
  dict_get item rf <> None ->
  upload_file now rf pbar item data mt s = (s, Raise AttributeError).
Proof.
  intros H. unfold upload_file.
  destruct (dict_get item rf) as [v|]; [reflexivity | contradiction].
Qed.

(** A file the listing does not record is sent, whatever the server
    answers, and the bar advances. *)
Lemma upload_file_unlisted now rf h item data mt s :
  dict_get item rf = None ->
  upload_file now rf (Some h) item data mt s
  = (mk_ul (fst (try_except_perm
                   (ftp_stor now item data ;;;
                    ftp_mfmt now (strftime_YmdHMS (gmtime mt)) item)
                   (ret tt) (ul_ftp s)))
           (bars_update h (tqdm_update 1) (ul_bars s)),
     Ok tt).
Proof.
  intros H. unfold upload_file. rewrite H.
  unfold bind at 1. cbn [ret andb].
  unfold bind, try_except_perm, ul_on_ftp, ul_bar, modify, ret.
  unfold ftp_stor.
  destruct (srv_write now (resolve (ftp_cwd_path (ul_ftp s)) item)
              (File data now) (ul_ftp s)) as [f1 r1] eqn:E1.
  destruct (srv_write_result _ _ _ _ _ _ E1)
    as [(root1 & _ & -> & ->) | [-> ->]]; [|reflexivity].
  cbn [ul_ftp ul_bars].
  match goal with
  | |- context [ftp_mfmt now ?stamp item ?f] =>
      destruct (ftp_mfmt now stamp item f) as [f2 r2] eqn:E2
  end.
  assert (Hr2 : r2 = Ok tt \/ r2 = Raise error_perm).
  { unfold ftp_mfmt in E2.
    destruct (parse_mfmt _); [|inversion E2; now right].
    destruct (as_file _) as [[d0 m0]|]; [|inversion E2; now right].
    destruct (srv_write_result _ _ _ _ _ _ E2) as [(? & _ & _ & ->) | [_ ->]]; auto. }
  destruct Hr2 as [-> | ->]; reflexivity.
Qed.

Lemma for_each_returns {S B} (l : list B) (body : B -> M S unit) :
  (forall x s, In x l -> exists s', body x s = (s', Ok tt)) ->
  forall s, exists s', for_each l body s = (s', Ok tt).
Proof.
  induction l as [|x l IH]; intros Hb s; [now exists s|].
  rewrite for_each_cons.
  destruct (Hb x s (or_introl eq_refl)) as [s1 ->].
  apply IH. intros y s0 Hy. apply Hb. now right.
Qed.

Lemma dict_get_none k d : ~ In k (dict_keys d) -> dict_get k d = None.
Proof.
  induction d as [|[k' v'] d IH]; simpl; intros H; [reflexivity|].
  destruct (String.eqb_spec k' k) as [->|Hne]; [tauto | apply IH; tauto].
Qed.

Lemma dict_get_some k d : In k (dict_keys d) -> dict_get k d <> None.
Proof.
  induction d as [|[k' v'] d IH]; simpl; [contradiction|].
  intros [-> | H]; [now rewrite String.eqb_refl|].
  destruct (String.eqb k' k); [discriminate | auto].
Qed.

(** The remote directory exists and nothing is refused: the walk enters
    it from the root. *)
Lemma upload_enter_existing now remote_dir root c bars mr res :
  lookup (resolve [] remote_dir) root = Some (Dir mr res) ->
  upload_enter now remote_dir (mk_ul (mk_ftp root [] [] c) bars)
  = (mk_ul (mk_ftp root [] [] (resolve [] remote_dir)) bars, Ok true).
Proof.
  intros Hl.
  assert (Hroot : as_dir (Some root) = true).
  { destruct root as [d0 m0|m0 es0]; [|reflexivity].
    destruct (resolve [] remote_dir); simpl in Hl; discriminate. }
  unfold upload_enter, ul_on_ftp, try_except_perm, bind, ftp_cwd.
  cbn [ul_ftp ul_bars ftp_cwd_path srv_root srv_denied srv_unlistable].
  change (resolve c "/") with (@nil string). cbn [lookup path_in existsb negb].
  rewrite Hroot. cbn [andb ftp_cwd_path srv_root srv_denied srv_unlistable].
  rewrite Hl. reflexivity.
Qed.

(** The listing of a directory whose names are one word each and
    distinct has exactly these names. *)
Lemma listing_of_clean_directory tz root t mr res :
  lookup t root = Some (Dir mr res) ->
  forallb (fun e => one_word (fst e)) res = true ->
  names_distinct (map fst res) = true ->
  exists rf,
    list_directory_with_details tz (mk_ftp root [] [] t)
    = (mk_ftp root [] [] t, Ok rf)
    /\ dict_keys rf = map fst res.
Proof.
  intros Hl Hw Hd.
  unfold list_directory_with_details, try_except_perm, bind, ftp_list, ret.
  cbn [ftp_cwd_path srv_root srv_unlistable]. rewrite Hl.
  cbn [path_in existsb]. eexists. split; [reflexivity|].
  apply (listing_keys_plain tz res []); [assumption|].
  now apply names_distinct_NoDup.
Qed.

Lemma entry_lookup_none name es :
  ~ In name (map fst es) -> entry_lookup name es = None.
Proof.
  induction es as [|[k v] es IH]; simpl; intros H; [reflexivity|].
  destruct (String.eqb_spec k name) as [->|Hne]; [tauto | apply IH; tauto].
Qed.

(** What [STOR] and [MFMT] of one new file leave on a server that refuses
    nothing: the file, with the content sent and the time of the stamp. *)
Lemma ftp_push_effect now root t item data mt :
  plain_name item = true ->
  as_dir (lookup t root) = true ->
  as_dir (lookup (t ++ [item]) root) = false ->
  exists root',
    fst (try_except_perm
           (ftp_stor now item data ;;;
            ftp_mfmt now (strftime_YmdHMS (gmtime mt)) item)
           (ret tt) (mk_ftp root [] [] t))
    = mk_ftp root' [] [] t
    /\ as_file (lookup (t ++ [item]) root') = Some (data, mfmt_time now mt)
    /\ (forall q, q <> t ++ [item] ->
                  as_file (lookup q root') = as_file (lookup q root))
    /\ (forall q, as_dir (lookup q root') = as_dir (lookup q root)).
Proof.
  intros Hk Ht Hnd.
  destruct (write_node_ok now t item data now root Ht Hnd) as [root1 Hw1].
  destruct (write_node_frame now _ _ _ _ _ Hw1) as (Hf1 & Ho1 & Hd1).
  unfold try_except_perm, bind, ftp_stor, srv_write.
  cbn [ftp_cwd_path srv_root srv_denied srv_unlistable].
  rewrite (resolve_plain _ _ Hk), Hw1.
  unfold ftp_mfmt, mfmt_time.
  cbn [ftp_cwd_path srv_root srv_denied srv_unlistable].
  rewrite (resolve_plain _ _ Hk), Hf1.
  destruct (parse_mfmt (strftime_YmdHMS (gmtime mt))) as [m|].
  - assert (Ht1 : as_dir (lookup t root1) = true) by now rewrite Hd1.
    assert (Hnd1 : as_dir (lookup (t ++ [item]) root1) = false) by now rewrite Hd1.
    destruct (write_node_ok now t item data m root1 Ht1 Hnd1) as [root2 Hw2].
    destruct (write_node_frame now _ _ _ _ _ Hw2) as (Hf2 & Ho2 & Hd2).
    unfold srv_write. cbn [ftp_cwd_path srv_root srv_denied srv_unlistable].
    rewrite Hw2. exists root2. cbn [fst]. split; [reflexivity|].
    split; [assumption|]. split.
    + intros q Hq. now rewrite (Ho2 q Hq), (Ho1 q Hq).
    + intros q. now rewrite Hd2, Hd1.
  - exists root1. cbn [fst ret]. split; [reflexivity|]. auto.
Qed.

Lemma upload_files_loop tz now rf h remote_dir progress t root0 : forall es root bars,
  (forall e, In e es ->
             plain_name (fst e) = true /\ is_dir_node (snd e) = false
             /\ dict_get (fst e) rf = None
             /\ as_dir (lookup (t ++ [fst e]) root0) = false) ->
  names_distinct (map fst es) = true ->
  as_dir (lookup t root0) = true ->
  (forall q, as_dir (lookup q root) = as_dir (lookup q root0)) ->
  exists root' bars',
    for_each es
      (fun entry =>
         let item := fst entry in
         match snd entry with
         | Dir _ _ =>
             upload_directory tz now (snd entry) (path_join remote_dir item)
                              progress (Some h) ;;;
             ul_bar (Some h) (tqdm_update 1)
         | File data local_mtime =>
             upload_file now rf (Some h) item data local_mtime
         end) (mk_ul (mk_ftp root [] [] t) bars)
    = (mk_ul (mk_ftp root' [] [] t) bars', Ok tt)
    /\ (forall name data mtime,
          In (name, File data mtime) es ->
          as_file (lookup (t ++ [name]) root') = Some (data, mfmt_time now mtime))
    /\ (forall q, (forall name, In name (map fst es) -> q <> t ++ [name]) ->
                  as_file (lookup q root') = as_file (lookup q root))
    /\ (forall q, as_dir (lookup q root') = as_dir (lookup q root0)).
Proof.
  induction es as [|[k ch] es IH]; intros root bars Hes Hnd Ht Hsame.
  - exists root, bars. split; [reflexivity|]. split; [intros ? ? ? []|]. auto.
  - destruct (Hes (k, ch) (or_introl eq_refl)) as (Hk & Hfile & Hrf & Hnodir).
    cbn [fst snd] in *. destruct ch as [d mt|]; [|discriminate].
    cbn [map fst names_distinct] in Hnd. apply andb_true_iff in Hnd.
    destruct Hnd as [Hfresh Hnd].
    assert (Hknew : ~ In k (map fst es)).
    { intros Hin. apply negb_true_iff in Hfresh.
      assert (existsb (String.eqb k) (map fst es) = true)
        by (apply existsb_exists; exists k; split;
            [assumption | apply String.eqb_refl]).
      congruence. }
    destruct (ftp_push_effect now root t k d mt Hk) as (root1 & E1 & Hf1 & Ho1 & Hd1).
    { now rewrite Hsame. }
    { now rewrite Hsame. }
    destruct (IH root1 (bars_update h (tqdm_update 1) bars))
      as (root' & bars' & Hrun & Hfiles & Hothers & Hdirs).
    { intros e He. apply Hes. now right. }
    { assumption. }
    { assumption. }
    { intros q. now rewrite Hd1. }
    exists root', bars'. split; [|split; [|split]].
    + rewrite for_each_cons. cbn [fst snd].
      rewrite (upload_file_unlisted now rf h k d mt _ Hrf).
      cbn [ul_ftp ul_bars]. rewrite E1. exact Hrun.
    + intros name data mtime [Heq | Hin].
      * inversion Heq; subst. rewrite Hothers; [assumption|].
        intros name' Hname Habs. apply app_inv_head in Habs.
        inversion Habs; subst. contradiction.
      * now apply Hfiles.
    + intros q Hq. rewrite Hothers.
      * apply Ho1. apply Hq. now left.
      * intros name Hname. apply Hq. now right.
    + assumption.
Qed.

(** The push of a directory of new files, once the remote directory has
    been entered, on a server that refuses nothing. *)
Lemma upload_directory_sends_entered
  tz now m es remote_dir progress pbar s0 root t bars mr res :
  upload_enter now remote_dir s0 = (mk_ul (mk_ftp root [] [] t) bars, Ok true) ->
  lookup t root = Some (Dir mr res) ->
  forallb (fun e => one_word (fst e)) res = true ->
  names_distinct (map fst res) = true ->
  (forall e, In e es ->
             plain_name (fst e) = true /\ is_dir_node (snd e) = false
             /\ ~ In (fst e) (map fst res)) ->
  names_distinct (map fst es) = true ->
  exists root' bars',
    upload_directory tz now (Dir m es) remote_dir progress pbar s0
    = (mk_ul (mk_ftp root' [] [] t) bars', Ok tt)
    /\ (forall name data mtime,
          In (name, File data mtime) es ->
          as_file (lookup (t ++ [name]) root') = Some (data, mfmt_time now mtime))
    /\ (forall q,
          (forall name, In name (map fst es) -> q <> t ++ [name]) ->
          as_file (lookup q root') = as_file (lookup q root))
    /\ (forall q, as_dir (lookup q root') = as_dir (lookup q root)).
Proof.
  intros Henter Hdir Hwords Hdistinct Hlocal Hnames.
  destruct (listing_of_clean_directory tz root _ mr res Hdir Hwords Hdistinct)
    as (rf & Hlist & Hkeys).
  assert (Hloop : forall h bars0,
             exists root' bars',
               (remote_files <- ul_on_ftp (list_directory_with_details tz) ;;
                for_each es
                  (fun entry =>
                     let item := fst entry in
                     match snd entry with
                     | Dir _ _ =>
                         upload_directory tz now (snd entry)
                                          (path_join remote_dir item)
                                          progress (Some h) ;;;
                         ul_bar (Some h) (tqdm_update 1)
                     | File data local_mtime =>
                         upload_file now remote_files (Some h) item data local_mtime
                     end) ;;;
                here <- gets (fun s => ftp_pwd (ul_ftp s)) ;;
                (if String.eqb remote_dir here
                 then ul_bar (Some h) tqdm_close else ret tt))
                 (mk_ul (mk_ftp root [] [] t) bars0)
               = (mk_ul (mk_ftp root' [] [] t) bars', Ok tt)
               /\ (forall name data mtime,
                     In (name, File data mtime) es ->
                     as_file (lookup (t ++ [name]) root')
                     = Some (data, mfmt_time now mtime))
               /\ (forall q,
                     (forall name, In name (map fst es) -> q <> t ++ [name]) ->
                     as_file (lookup q root') = as_file (lookup q root))
               /\ (forall q, as_dir (lookup q root') = as_dir (lookup q root))).
  { intros h bars0.
    assert (Hl : ul_on_ftp (list_directory_with_details tz)
                   (mk_ul (mk_ftp root [] [] t) bars0)
                 = (mk_ul (mk_ftp root [] [] t) bars0, Ok rf)).
    { unfold ul_on_ftp. cbn [ul_ftp ul_bars]. now rewrite Hlist. }
    rewrite (bind_ok _ _ _ _ _ Hl).
    destruct (upload_files_loop tz now rf h remote_dir progress t root es root bars0)
      as (root' & bars' & Hrun & Hfiles & Hothers & Hdirs).
    { intros e He. destruct (Hlocal e He) as (Hk & Hf & Hnew).
      split; [assumption|]. split; [assumption|]. split.
      - apply dict_get_none. now rewrite Hkeys.
      - rewrite lookup_app, Hdir. cbn [lookup].
        now rewrite (entry_lookup_none _ _ Hnew). }
    { assumption. }
    { now rewrite Hdir. }
    { reflexivity. }
    rewrite (bind_ok _ _ _ _ _ Hrun).
    unfold bind at 1, gets. cbn [ul_ftp].
    destruct (String.eqb remote_dir _).
    - eexists root', _. split; [reflexivity|]. auto.
    - eexists root', _. split; [reflexivity|]. auto. }
  cbn [upload_directory].
  rewrite (bind_ok _ _ _ _ _ Henter).
  cbn [negb].
  destruct pbar as [h|].
  - unfold bind at 1. cbn [ret].
    destruct (Hloop h bars) as (root' & bars' & Hrun & Hrest).
    exists root', bars'. split; [exact Hrun | exact Hrest].
  - unfold bind at 1. unfold bind at 1. unfold ul_new_bar at 1. cbn [ret ul_ftp ul_bars].
    destruct (Hloop (List.length bars)
                    (bars ++ [tqdm_new (Z.of_nat (List.length (map fst es)))
                                       (negb progress)]))
      as (root' & bars' & Hrun & Hrest).
    exists root', bars'. split; [exact Hrun | exact Hrest].
Qed.

Lemma upload_directory_sends
  tz now m es remote_dir progress pbar root c bars mr res :
  lookup (resolve [] remote_dir) root = Some (Dir mr res) ->
  forallb (fun e => one_word (fst e)) res = true ->
  names_distinct (map fst res) = true ->
  (forall e, In e es ->
             plain_name (fst e) = true /\ is_dir_node (snd e) = false
             /\ ~ In (fst e) (map fst res)) ->
  names_distinct (map fst es) = true ->
  exists root' bars',
    upload_directory tz now (Dir m es) remote_dir progress pbar
                     (mk_ul (mk_ftp root [] [] c) bars)
    = (mk_ul (mk_ftp root' [] [] (resolve [] remote_dir)) bars', Ok tt)
    /\ (forall name data mtime,
          In (name, File data mtime) es ->
          as_file (lookup (resolve [] remote_dir ++ [name]) root')
          = Some (data, mfmt_time now mtime))
    /\ (forall q,
          (forall name, In name (map fst es) -> q <> resolve [] remote_dir ++ [name]) ->
          as_file (lookup q root') = as_file (lookup q root))
    /\ (forall q, as_dir (lookup q root') = as_dir (lookup q root)).
Proof.
  intros Hdir.
  apply (upload_directory_sends_entered tz now m es remote_dir progress pbar
           (mk_ul (mk_ftp root [] [] c) bars) root (resolve [] remote_dir) bars
           mr res); [|exact Hdir].
  exact (upload_enter_existing now remote_dir root c bars mr res Hdir).
Qed.

(** X11.  The push stops with [AttributeError] at the first regular file
    whose name the remote directory already has: with the remote directory
    in place on a server that refuses nothing, its names one word each and
    distinct, and the local entries before that file regular files, with
    plain and distinct names the remote directory does not have,
    [upload_directory] raises [AttributeError] (the listing maps names to
    numbers, and the code asks the number for its [get]).  The files
    before it have been sent by then: each is on the server with its
    content and the time of its [MFMT] stamp.  The file itself and the
    entries after it are never sent: no other file of the server has
    changed, and no directory has appeared or gone.  The session is left
    in the remote directory. *)
Theorem upload_of_a_listed_file_raises
  tz now m pre item data mtime post remote_dir progress pbar st mr res
  (Hfree : srv_denied (ul_ftp st) = [] /\ srv_unlistable (ul_ftp st) = [])
  (Hdir : lookup (resolve [] remote_dir) (srv_root (ul_ftp st)) = Some (Dir mr res))
  (Hwords : forallb (fun e => one_word (fst e)) res = true)
  (Hdistinct : names_distinct (map fst res) = true)
  (Hpre : forall e, In e pre ->
                    plain_name (fst e) = true /\ is_dir_node (snd e) = false
                    /\ ~ In (fst e) (map fst res))
  (Hnames : names_distinct (map fst pre) = true)
  (Hitem : In item (map fst res)) :
  exists st',
    upload_directory tz now (Dir m (pre ++ (item, File data mtime) :: post))
                     remote_dir progress pbar st
    = (st', Raise AttributeError)
    /\ ftp_cwd_path (ul_ftp st') = resolve [] remote_dir
    /\ (forall name d mt,
          In (name, File d mt) pre ->
          as_file (lookup (resolve [] remote_dir ++ [name]) (srv_root (ul_ftp st')))
          = Some (d, mfmt_time now mt))
    /\ (forall q,
          (forall name, In name (map fst pre) -> q <> resolve [] remote_dir ++ [name]) ->
          as_file (lookup q (srv_root (ul_ftp st')))
          = as_file (lookup q (srv_root (ul_ftp st))))
    /\ (forall q, as_dir (lookup q (srv_root (ul_ftp st')))
                  = as_dir (lookup q (srv_root (ul_ftp st)))).
Proof.
  destruct st as [[root denied unl c] bars]. destruct Hfree as [Hd Hu].
  cbn [ul_ftp srv_root srv_denied srv_unlistable] in *. subst denied unl.
  destruct (listing_of_clean_directory tz root _ mr res Hdir Hwords Hdistinct)
    as (rf & Hlist & Hkeys).
  cbn [upload_directory].
  rewrite (bind_ok _ _ _ _ _ (upload_enter_existing now remote_dir root c bars mr res Hdir)).
  cbn [negb].
  assert (Hloop : forall h bars0,
             exists root' bars',
               (remote_files <- ul_on_ftp (list_directory_with_details tz) ;;
                for_each (pre ++ (item, File data mtime) :: post)
                  (fun entry =>
                     let item := fst entry in
                     match snd entry with
                     | Dir _ _ =>
                         upload_directory tz now (snd entry)
                                          (path_join remote_dir item)
                                          progress (Some h) ;;;
                         ul_bar (Some h) (tqdm_update 1)
                     | File data local_mtime =>
                         upload_file now remote_files (Some h) item data local_mtime
                     end) ;;;
                here <- gets (fun s => ftp_pwd (ul_ftp s)) ;;
                (if String.eqb remote_dir here
                 then ul_bar (Some h) tqdm_close else ret tt))
                 (mk_ul (mk_ftp root [] [] (resolve [] remote_dir)) bars0)
               = (mk_ul (mk_ftp root' [] [] (resolve [] remote_dir)) bars',
                  Raise AttributeError)
               /\ (forall name d mt,
                     In (name, File d mt) pre ->
                     as_file (lookup (resolve [] remote_dir ++ [name]) root')
                     = Some (d, mfmt_time now mt))
               /\ (forall q,
                     (forall name, In name (map fst pre) ->
                                   q <> resolve [] remote_dir ++ [name]) ->
                     as_file (lookup q root') = as_file (lookup q root))
               /\ (forall q, as_dir (lookup q root') = as_dir (lookup q root))).
  { intros h bars0.
    assert (Hl : ul_on_ftp (list_directory_with_details tz)
                   (mk_ul (mk_ftp root [] [] (resolve [] remote_dir)) bars0)
                 = (mk_ul (mk_ftp root [] [] (resolve [] remote_dir)) bars0, Ok rf)).
    { unfold ul_on_ftp. cbn [ul_ftp ul_bars]. now rewrite Hlist. }
    rewrite (bind_ok _ _ _ _ _ Hl).
    destruct (upload_files_loop tz now rf h remote_dir progress
                (resolve [] remote_dir) root pre root bars0)
      as (root' & bars' & Hrun & Hfiles & Hothers & Hdirs).
    { intros e He. destruct (Hpre e He) as (Hk & Hf & Hnew).
      split; [assumption|]. split; [assumption|]. split.
      - apply dict_get_none. now rewrite Hkeys.
      - rewrite lookup_app, Hdir. cbn [lookup].
        now rewrite (entry_lookup_none _ _ Hnew). }
    { assumption. }
    { now rewrite Hdir. }
    { reflexivity. }
    exists root', bars'. split; [|auto].
    unfold bind at 1. cbv zeta in Hrun. rewrite for_each_app, Hrun, for_each_cons.
    cbn [fst snd].
    rewrite upload_file_listed; [reflexivity|].
    apply dict_get_some. now rewrite Hkeys. }
  destruct pbar as [h|].
  - unfold bind at 1. cbn [ret].
    destruct (Hloop h bars) as (root' & bars' & Hrun & Hrest).
    exists (mk_ul (mk_ftp root' [] [] (resolve [] remote_dir)) bars').
    split; [exact Hrun|]. cbn [ul_ftp ftp_cwd_path srv_root]. auto.
  - unfold bind at 1. unfold bind at 1. unfold ul_new_bar at 1. cbn [ret ul_ftp ul_bars].
    destruct (Hloop (List.length bars)
                    (bars ++ [tqdm_new
                                (Z.of_nat (List.length
                                   (map fst (pre ++ (item, File data mtime) :: post))))
                                (negb progress)]))
      as (root' & bars' & Hrun & Hrest).
    exists (mk_ul (mk_ftp root' [] [] (resolve [] remote_dir)) bars').
    split; [exact Hrun|]. cbn [ul_ftp ftp_cwd_path srv_root]. auto.
Qed.

Lemma upload_of_a_listed_file_raises_witness :
  exists st',
    upload_directory 0 9
      (Dir 0 [("new.sav", File "N" 1704457800); ("top.sav", File "T2" 1704461400);
              ("late.sav", File "L" 1704457800); ("sub", Dir 0 [])])
      remote_dir true None (mk_ul (Vita.connected Vita.one_file) [])
    = (st', Raise AttributeError)
    /\ as_file (lookup (Vita.savedata ++ ["new.sav"]) (srv_root (ul_ftp st')))
       = Some ("N", 1704457800)
    /\ as_file (lookup (Vita.savedata ++ ["top.sav"]) (srv_root (ul_ftp st')))
       = Some ("T", 1704457800)
    /\ as_file (lookup (Vita.savedata ++ ["late.sav"]) (srv_root (ul_ftp st')))
       = None
    /\ as_dir (lookup (Vita.savedata ++ ["sub"]) (srv_root (ul_ftp st'))) = false.
Proof.
  destruct (upload_of_a_listed_file_raises 0 9 0
              [("new.sav", File "N" 1704457800)] "top.sav" "T2" 1704461400
              [("late.sav", File "L" 1704457800); ("sub", Dir 0 [])]
              remote_dir true None (mk_ul (Vita.connected Vita.one_file) [])
              0 Vita.one_file)
    as (st' & Hrun & _ & Hfiles & Hothers & Hdirs).
  - split; reflexivity.
  - reflexivity.
  - reflexivity.
  - reflexivity.
  - intros e [<- | []].
    split; [reflexivity|]. split; [reflexivity|].
    intros [H | []]. discriminate H.
  - reflexivity.
  - now left.
  - exists st'. split; [exact Hrun|].
    split; [exact (Hfiles "new.sav" "N" 1704457800 (or_introl eq_refl))|].
    split; [|split].
    + rewrite Hothers; [reflexivity|].
      intros name [<- | []]. discriminate.
    + rewrite Hothers; [reflexivity|].
      intros name [<- | []]. discriminate.
    + rewrite Hdirs. reflexivity.
Defined.

(** X12.  The push of new files: with the remote directory in place on a
    server that refuses nothing, its names one word each and distinct, a
    local directory that holds only regular files, with plain and distinct
    names that the remote directory does not have, is sent whole.
    [upload_directory] returns normally in the remote directory, every
    local file is on the server with its content and the time of its
    [MFMT] stamp, no other file of the server has changed and no directory
    has appeared or gone. *)
Theorem upload_of_new_files
  tz now m es remote_dir progress pbar st mr res
  (Hfree : srv_denied (ul_ftp st) = [] /\ srv_unlistable (ul_ftp st) = [])
  (Hdir : lookup (resolve [] remote_dir) (srv_root (ul_ftp st)) = Some (Dir mr res))
  (Hwords : forallb (fun e => one_word (fst e)) res = true)
  (Hdistinct : names_distinct (map fst res) = true)
  (Hlocal : forall e, In e es ->
                      plain_name (fst e) = true /\ is_dir_node (snd e) = false
                      /\ ~ In (fst e) (map fst res))
  (Hnames : names_distinct (map fst es) = true) :
  exists st',
    upload_directory tz now (Dir m es) remote_dir progress pbar st = (st', Ok tt)
    /\ ftp_cwd_path (ul_ftp st') = resolve [] remote_dir
    /\ (forall name data mtime,
          In (name, File data mtime) es ->
          as_file (lookup (resolve [] remote_dir ++ [name]) (srv_root (ul_ftp st')))
          = Some (data, mfmt_time now mtime))
    /\ (forall q,
          (forall name, In name (map fst es) -> q <> resolve [] remote_dir ++ [name]) ->
          as_file (lookup q (srv_root (ul_ftp st')))
          = as_file (lookup q (srv_root (ul_ftp st))))
    /\ (forall q, as_dir (lookup q (srv_root (ul_ftp st')))
                  = as_dir (lookup q (srv_root (ul_ftp st)))).
Proof.
  destruct st as [[root denied unl c] bars]. destruct Hfree as [Hd Hu].
  cbn [ul_ftp srv_root srv_denied srv_unlistable] in *. subst denied unl.
  destruct (upload_directory_sends tz now m es remote_dir progress pbar root c bars
              mr res Hdir Hwords Hdistinct Hlocal Hnames)
    as (root' & bars' & Hrun & Hfiles & Hothers & Hdirs).
  exists (mk_ul (mk_ftp root' [] [] (resolve [] remote_dir)) bars').
  split; [exact Hrun|]. cbn [ul_ftp ftp_cwd_path srv_root]. auto.
Qed.

Lemma upload_of_new_files_witness :
  exists st',
    upload_directory 0 9 Vita.local_same_file remote_dir true None
                     (mk_ul (Vita.connected []) []) = (st', Ok tt)
    /\ as_file (lookup (Vita.savedata ++ ["top.sav"]) (srv_root (ul_ftp st')))
       = Some ("T", 1704457800).
Proof.
  destruct (upload_of_new_files 0 9 0 [("top.sav", File "T" 1704457800)]
              remote_dir true None (mk_ul (Vita.connected []) []) 0 [])
    as (st' & Hrun & _ & Hfiles & _).
  - split; reflexivity.
  - reflexivity.
  - reflexivity.
  - reflexivity.
  - intros e [<- | []]. split; [reflexivity | split; [reflexivity | intros []]].
  - reflexivity.
  - exists st'. split; [exact Hrun|].
    exact (Hfiles "top.sav" "T" 1704457800 (or_introl eq_refl)).
Defined.

(** ** The time stamp of [MFMT] *)

Lemma civil_of_day doe :
  0 <= doe < 146097 ->
  0 <= (doe - doe / 1460 + doe / 36524 - doe / 146096) / 365 <= 399
  /\ 0 <= doe - (365 * ((doe - doe / 1460 + doe / 36524 - doe / 146096) / 365)
                 + (doe - doe / 1460 + doe / 36524 - doe / 146096) / 365 / 4
                 - (doe - doe / 1460 + doe / 36524 - doe / 146096) / 365 / 100)
     <= 365.
Proof. intros H. Z.div_mod_to_equations. lia. Qed.

(** The fields of [time.gmtime] are in their ranges. *)
Lemma gmtime_fields secs :
  1 <= tm_mon (gmtime secs) <= 12
  /\ 1 <= tm_mday (gmtime secs) <= 31
  /\ 0 <= tm_hour (gmtime secs) <= 23
  /\ 0 <= tm_min (gmtime secs) <= 59
  /\ 0 <= tm_sec (gmtime secs) <= 59.
Proof.
  unfold gmtime. cbv zeta. cbn [tm_mon tm_mday tm_hour tm_min tm_sec].
  set (z := secs / 86400 + 719468).
  set (doe := z - z / 146097 * 146097).
  assert (Hdoe : 0 <= doe < 146097) by (subst doe; Z.div_mod_to_equations; lia).
  destruct (civil_of_day doe Hdoe) as [Hyoe Hdoy].
  set (yoe := (doe - doe / 1460 + doe / 36524 - doe / 146096) / 365) in *.
  set (doy := doe - (365 * yoe + yoe / 4 - yoe / 100)) in *.
  set (mp := (5 * doy + 2) / 153).
  assert (Hmp : 0 <= mp <= 11) by (subst mp; Z.div_mod_to_equations; lia).
  split; [destruct (Z.ltb_spec mp 10); lia|].
  split; [subst mp; Z.div_mod_to_equations; lia|].
  repeat split; Z.div_mod_to_equations; lia.
Qed.

(** [time.gmtime] read back as a UTC time is the number of seconds it was
    given. *)
Lemma mktime_gmtime secs : mktime 0 (gmtime secs) = secs.
Proof.
  unfold mktime, gmtime, days_from_civil. cbv zeta.
  cbn [tm_year tm_mon tm_mday tm_hour tm_min tm_sec].
  set (z := secs / 86400 + 719468).
  set (era := z / 146097).
  set (doe := z - era * 146097).
  assert (Hdoe : 0 <= doe < 146097)
    by (subst doe era; Z.div_mod_to_equations; lia).
  destruct (civil_of_day doe Hdoe) as [Hyoe Hdoy].
  set (yoe := (doe - doe / 1460 + doe / 36524 - doe / 146096) / 365) in *.
  set (doy := doe - (365 * yoe + yoe / 4 - yoe / 100)) in *.
  set (mp := (5 * doy + 2) / 153).
  assert (Hmp : 0 <= mp <= 11) by (subst mp; Z.div_mod_to_equations; lia).
  set (m := if mp <? 10 then mp + 3 else mp - 9).
  assert (Hm : (m + 9) mod 12 = mp).
  { subst m. destruct (Z.ltb_spec mp 10); Z.div_mod_to_equations; lia. }
  assert (Hy : (if m <=? 2
                then yoe + era * 400 + (if m <=? 2 then 1 else 0) - 1
                else yoe + era * 400 + (if m <=? 2 then 1 else 0))
               = yoe + era * 400).
  { destruct (m <=? 2); lia. }
  rewrite Hy, Hm.
  assert (Hera : (yoe + era * 400) / 400 = era)
    by (Z.div_mod_to_equations; lia).
  rewrite Hera.
  assert (Hday : era * 146097
                 + ((yoe + era * 400 - era * 400) * 365
                    + (yoe + era * 400 - era * 400) / 4
                    - (yoe + era * 400 - era * 400) / 100
                    + ((153 * mp + 2) / 5 + (doy - (153 * mp + 2) / 5 + 1) - 1))
                 - 719468 = secs / 86400).
  { replace (yoe + era * 400 - era * 400) with yoe by lia.
    subst doy doe z. lia. }
  rewrite Hday. Z.div_mod_to_equations. lia.
Qed.

Lemma digit_char_digit d :
  is_digit (digit_char d) = true /\ digit_value (digit_char d) = d mod 10.
Proof.
  unfold digit_char.
  assert (H : 0 <= d mod 10 < 10) by (apply Z.mod_pos_bound; lia).
  assert (E : d mod 10 = 0 \/ d mod 10 = 1 \/ d mod 10 = 2 \/ d mod 10 = 3
              \/ d mod 10 = 4 \/ d mod 10 = 5 \/ d mod 10 = 6 \/ d mod 10 = 7
              \/ d mod 10 = 8 \/ d mod 10 = 9) by lia.
  repeat (destruct E as [E|E]; [rewrite E; split; reflexivity|]).
  rewrite E; split; reflexivity.
Qed.

Lemma digits_value_aux_app a : forall b acc,
  digits_value_aux (a ++ b) acc
  = match digits_value_aux a acc with
    | Some v => digits_value_aux b v
    | None => None
    end.
Proof.
  induction a as [|c a IH]; intros b acc; cbn [append digits_value_aux];
    [reflexivity|].
  destruct (is_digit c); [apply IH | reflexivity].
Qed.

Lemma digits_value_aux_digit d rest acc :
  digits_value_aux (String (digit_char d) rest) acc
  = digits_value_aux rest (10 * acc + d mod 10).
Proof.
  cbn [digits_value_aux]. destruct (digit_char_digit d) as [-> ->]. reflexivity.
Qed.

Lemma string_length_app a b :
  String.length (a ++ b) = (String.length a + String.length b)%nat.
Proof. induction a as [|c a IH]; simpl; [reflexivity | now rewrite IH]. Qed.

(** A field of two digits. *)
Lemma zero_padded_two n acc :
  0 <= n < 100 ->
  digits_value_aux (zero_padded 2 n) acc = Some (100 * acc + n)
  /\ String.length (zero_padded 2 n) = 2%nat.
Proof.
  intros H. split; [|reflexivity].
  cbn [zero_padded append]. rewrite !digits_value_aux_digit.
  cbn [digits_value_aux]. f_equal. Z.div_mod_to_equations. lia.
Qed.

(** A year of four digits. *)
Lemma decimal_four y acc :
  1000 <= y <= 9999 ->
  digits_value_aux (decimal y) acc = Some (10000 * acc + y)
  /\ String.length (decimal y) = 4%nat.
Proof.
  intros H. unfold decimal.
  assert (Hlog : 9 <= Z.log2 y).
  { change 9 with (Z.log2 512). apply Z.log2_le_mono. lia. }
  destruct (Z.to_nat (Z.log2 y)) as [|[|[|k]]] eqn:E; try lia.
  cbn [decimal_aux].
  destruct (Z.ltb_spec y 10); [lia|].
  destruct (Z.ltb_spec (y / 10) 10); [Z.div_mod_to_equations; lia|].
  destruct (Z.ltb_spec (y / 10 / 10) 10); [Z.div_mod_to_equations; lia|].
  destruct (Z.ltb_spec (y / 10 / 10 / 10) 10); [|Z.div_mod_to_equations; lia].
  split; [|reflexivity].
  cbn [append]. rewrite !digits_value_aux_digit. cbn [digits_value_aux].
  f_equal. Z.div_mod_to_equations. lia.
Qed.

(** The stamp of a time whose year has four digits is read back as that
    time. *)
Lemma parse_mfmt_strftime t :
  1000 <= tm_year t <= 9999 ->
  0 <= tm_mon t < 100 -> 0 <= tm_mday t < 100 -> 0 <= tm_hour t < 100 ->
  0 <= tm_min t < 100 -> 0 <= tm_sec t < 100 ->
  String.length (strftime_YmdHMS t) = 14%nat
  /\ parse_mfmt (strftime_YmdHMS t) = Some (mktime 0 t).
Proof.
  intros Hy Hmo Hd Hh Hmi Hs.
  destruct t as [y mo d h mi s]. cbn [tm_year tm_mon tm_mday tm_hour tm_min tm_sec] in *.
  assert (Hlen : String.length
                   (strftime_YmdHMS (mk_struct_time y mo d h mi s)) = 14%nat).
  { unfold strftime_YmdHMS. cbn [tm_year tm_mon tm_mday tm_hour tm_min tm_sec].
    rewrite !string_length_app.
    destruct (decimal_four y 0 Hy) as [_ ->]. reflexivity. }
  split; [exact Hlen|].
  unfold parse_mfmt. rewrite Hlen. cbn [Nat.eqb].
  assert (Hv : digits_value (strftime_YmdHMS (mk_struct_time y mo d h mi s))
               = Some (((((y * 100 + mo) * 100 + d) * 100 + h) * 100 + mi) * 100 + s)).
  { unfold digits_value.
    destruct (strftime_YmdHMS (mk_struct_time y mo d h mi s)) eqn:E;
      [discriminate Hlen|].
    rewrite <- E. unfold strftime_YmdHMS.
    cbn [tm_year tm_mon tm_mday tm_hour tm_min tm_sec].
    rewrite digits_value_aux_app.
    destruct (decimal_four y 0 Hy) as [-> _].
    rewrite digits_value_aux_app.
    destruct (zero_padded_two mo (10000 * 0 + y) Hmo) as [-> _].
    rewrite digits_value_aux_app.
    destruct (zero_padded_two d (100 * (10000 * 0 + y) + mo) Hd) as [-> _].
    rewrite digits_value_aux_app.
    destruct (zero_padded_two h (100 * (100 * (10000 * 0 + y) + mo) + d) Hh) as [-> _].
    rewrite digits_value_aux_app.
    destruct (zero_padded_two mi
                (100 * (100 * (100 * (10000 * 0 + y) + mo) + d) + h) Hmi) as [-> _].
    destruct (zero_padded_two s
                (100 * (100 * (100 * (100 * (10000 * 0 + y) + mo) + d) + h) + mi) Hs)
      as [-> _].
    f_equal. lia. }
  rewrite Hv. f_equal. unfold mktime.
  cbn [tm_year tm_mon tm_mday tm_hour tm_min tm_sec].
  set (v := ((((y * 100 + mo) * 100 + d) * 100 + h) * 100 + mi) * 100 + s).
  assert (E1 : v / 10000000000 = y) by (subst v; Z.div_mod_to_equations; lia).
  assert (E2 : v / 100000000 mod 100 = mo) by (subst v; Z.div_mod_to_equations; lia).
  assert (E3 : v / 1000000 mod 100 = d) by (subst v; Z.div_mod_to_equations; lia).
  assert (E4 : v / 10000 mod 100 = h) by (subst v; Z.div_mod_to_equations; lia).
  assert (E5 : v / 100 mod 100 = mi) by (subst v; Z.div_mod_to_equations; lia).
  assert (E6 : v mod 100 = s) by (subst v; Z.div_mod_to_equations; lia).
  now rewrite E1, E2, E3, E4, E5, E6.
Qed.

(** The stamp of a whole number of seconds reads back as that number. *)
Lemma mfmt_stamp_whole_seconds mtime :
  1000 <= tm_year (gmtime mtime) <= 9999 ->
  String.length (strftime_YmdHMS (gmtime mtime)) = 14%nat
  /\ parse_mfmt (strftime_YmdHMS (gmtime mtime)) = Some mtime.
Proof.
  intros Hyear.
  destruct (gmtime_fields mtime) as (Hmo & Hd & Hh & Hmi & Hs).
  destruct (parse_mfmt_strftime (gmtime mtime) Hyear) as [Hlen Hparse]; try lia.
  rewrite mktime_gmtime in Hparse. auto.
Qed.

(** X13.  The stamp the push sends with [MFMT] carries the whole seconds
    of the local modification time.  [os.path.getmtime] returns a float
    and [time.gmtime] drops its fraction, so for a local modification
    time whose UTC year has four digits the stamp
    [strftime('%Y%m%d%H%M%S', gmtime(local_mtime))] has fourteen digits
    and a server that reads it as a UTC time gets the floor of
    [local_mtime]: the greatest whole number of seconds not above it,
    less than one second before it, and [local_mtime] itself only when it
    has no fraction.  The file ends with that time, not with the time of
    the transfer. *)
Theorem mfmt_stamp_round_trip now (local_mtime : QArith_base.Q)
  (Hyear : 1000 <= tm_year (gmtime_float local_mtime) <= 9999) :
  String.length (mfmt_stamp local_mtime) = 14%nat
  /\ parse_mfmt (mfmt_stamp local_mtime) = Some (Qround.Qfloor local_mtime)
  /\ mfmt_time now (Qround.Qfloor local_mtime) = Qround.Qfloor local_mtime
  /\ QArith_base.Qle (QArith_base.inject_Z (Qround.Qfloor local_mtime)) local_mtime
  /\ QArith_base.Qlt local_mtime
                     (QArith_base.inject_Z (Qround.Qfloor local_mtime + 1))
  /\ (forall secs : Z,
        QArith_base.Qeq local_mtime (QArith_base.inject_Z secs) ->
        parse_mfmt (mfmt_stamp local_mtime) = Some secs).
Proof.
  unfold mfmt_stamp, gmtime_float in *.
  destruct (mfmt_stamp_whole_seconds _ Hyear) as [Hlen Hparse].
  split; [exact Hlen|]. split; [exact Hparse|].
  split; [unfold mfmt_time; now rewrite Hparse|].
  split; [apply Qround.Qfloor_le|].
  split; [apply Qround.Qlt_floor|].
  intros secs Heq. rewrite Hparse. f_equal.
  rewrite (Qround.Qfloor_comp _ _ Heq). apply Qround.Qfloor_Z.
Qed.

(** A file modified at 1704457800.5 is stamped 20240105123000 and ends on
    the server with the time 1704457800, half a second before its own. *)
Lemma mfmt_stamp_round_trip_witness :
  mfmt_stamp (QArith_base.Qmake 3408915601 2) = "20240105123000"
  /\ parse_mfmt (mfmt_stamp (QArith_base.Qmake 3408915601 2)) = Some 1704457800
  /\ mfmt_time 9 1704457800 = 1704457800
  /\ QArith_base.Qlt (QArith_base.inject_Z 1704457800)
                     (QArith_base.Qmake 3408915601 2).
Proof.
  destruct (mfmt_stamp_round_trip 9 (QArith_base.Qmake 3408915601 2))
    as (_ & Hparse & Htime & _).
  - vm_compute. split; discriminate.
  - split; [reflexivity|]. split; [exact Hparse|]. split; [exact Htime|].
    reflexivity.
Defined.

(** ** A first synchronisation *)

(** The pull of an empty remote directory creates the staging directory,
    brings nothing and ends in the parent of the remote directory. *)
Lemma download_of_empty_directory tz now n merged rd progress root c local bars mr :
  lookup (resolve c rd) root = Some (Dir mr []) ->
  empty_tree local ->
  exists m0 bars',
    download_directory tz now (S n) merged rd [] [] progress None None
                       (mk_dl (mk_ftp root [] [] c) local bars)
    = (mk_dl (mk_ftp root [] [] (removelast (resolve c rd))) (Some (Dir m0 [])) bars',
       Ok tt).
Proof.
  intros Hl Hlocal.
  assert (Hmk : exists m0,
             dl_on_local (makedirs now []) (mk_dl (mk_ftp root [] [] c) local bars)
             = (mk_dl (mk_ftp root [] [] c) (Some (Dir m0 [])) bars, Ok tt)).
  { destruct Hlocal as [-> | [m0 ->]]; eexists; reflexivity. }
  destruct Hmk as [m0 Hmk].
  assert (Hcwd : dl_on_ftp (try_except_perm (ftp_cwd rd ;;; ret true) (ret false))
                   (mk_dl (mk_ftp root [] [] c) (Some (Dir m0 [])) bars)
                 = (mk_dl (mk_ftp root [] [] (resolve c rd)) (Some (Dir m0 [])) bars,
                    Ok true)).
  { unfold dl_on_ftp, try_except_perm, bind, ftp_cwd.
    cbn [dl_ftp dl_local dl_bars ftp_cwd_path srv_root srv_denied srv_unlistable].
    rewrite Hl. reflexivity. }
  assert (Hlist : dl_on_ftp (list_directory_with_details tz)
                    (mk_dl (mk_ftp root [] [] (resolve c rd)) (Some (Dir m0 [])) bars)
                  = (mk_dl (mk_ftp root [] [] (resolve c rd)) (Some (Dir m0 [])) bars,
                     Ok [])).
  { unfold dl_on_ftp, list_directory_with_details, try_except_perm, bind, ftp_list.
    cbn [dl_ftp dl_local dl_bars ftp_cwd_path srv_root srv_denied srv_unlistable].
    rewrite Hl. reflexivity. }
  assert (Hroot : is_dir_node root = true).
  { destruct root as [d0 m1|m1 es0]; [|reflexivity].
    destruct (resolve c rd); simpl in Hl; discriminate. }
  assert (Hup : forall l b,
             dl_on_ftp (ftp_cwd "..") (mk_dl (mk_ftp root [] [] (resolve c rd)) l b)
             = (mk_dl (mk_ftp root [] [] (removelast (resolve c rd))) l b, Ok tt)).
  { intros l b. unfold dl_on_ftp, ftp_cwd.
    cbn [dl_ftp dl_local dl_bars ftp_cwd_path srv_root srv_denied srv_unlistable].
    rewrite resolve_dotdot, (lookup_parent_isdir _ _ _ Hl Hroot). reflexivity. }
  cbn [download_directory].
  rewrite (bind_ok _ _ _ _ _ Hmk), (bind_ok _ _ _ _ _ Hcwd). cbn [negb].
  rewrite (bind_ok _ _ _ _ _ Hlist).
  unfold bind at 1. unfold bind at 1. unfold bind at 1.
  cbn [dict_values map for_fold ret]. unfold dl_new_bar at 1.
  cbn [dl_ftp dl_local dl_bars fst snd].
  unfold bind at 1. cbn [for_each ret].
  unfold bind at 1. cbn [ret dl_ftp dl_local dl_bars fst snd].
  rewrite (bind_ok _ _ _ _ _ (Hup _ _)).
  unfold bind at 1, gets. cbn [dl_ftp].
  destruct (String.eqb rd _); eexists m0, _; reflexivity.
Qed.

Lemma merge_of_empty_staging now m0 m es progress :
  exists bar,
    merge_directories now (Some (Dir m0 [])) (Some (Dir m es)) progress
    = (Some (Dir m es), bar, Ok tt).
Proof. eexists. reflexivity. Qed.

Lemma server_lookup_set_same a v l :
  server_lookup a l <> None -> server_lookup a (server_set a v l) = Some v.
Proof.
  induction l as [|[k w] l IH]; simpl; [contradiction|].
  destruct (String.eqb k a) eqn:E; simpl; rewrite E; auto.
Qed.



(** ** The remote directory of a push *)

Lemma makedirs_node_creates now t : forall root,
  lookup t root = None ->
  as_dir (lookup (removelast t) root) = true ->
  exists root',
    makedirs_node now t root = Ok root' /\ lookup t root' = Some (Dir now []).
Proof.
  induction t as [|x t IH]; intros root Hnone Hparent; [discriminate|].
  destruct root as [d0 m0|m es].
  { destruct t; discriminate. }
  cbn [makedirs_node]. cbn [lookup] in Hnone.
  destruct (entry_lookup x es) as [ch|] eqn:Ex.
  - destruct t as [|y t]; [discriminate|].
    change (removelast (x :: y :: t)) with (x :: removelast (y :: t)) in Hparent.
    cbn [lookup] in Hparent. rewrite Ex in Hparent.
    destruct (IH ch Hnone Hparent) as (ch' & Hmk & Hl).
    rewrite Hmk. cbn [res_bind]. eexists. split; [reflexivity|].
    cbn [lookup]. now rewrite entry_lookup_set_same.
  - destruct t as [|y t].
    + eexists. split; [reflexivity|].
      cbn [lookup fresh_dirs]. now rewrite entry_lookup_set_same.
    + change (removelast (x :: y :: t)) with (x :: removelast (y :: t)) in Hparent.
      cbn [lookup] in Hparent. rewrite Ex in Hparent. discriminate.
Qed.

Lemma is_prefix_proper q : forall t,
  is_prefix q t = true -> q <> t -> is_prefix q (removelast t) = true.
Proof.
  induction q as [|y q IH]; intros t Hp Hne; [reflexivity|].
  destruct t as [|x t]; [discriminate|].
  cbn [is_prefix] in Hp. apply andb_true_iff in Hp. destruct Hp as [Hxy Hp].
  destruct t as [|x' t].
  - destruct q; [|discriminate]. apply String.eqb_eq in Hxy. congruence.
  - change (removelast (x :: x' :: t)) with (x :: removelast (x' :: t)).
    cbn [is_prefix]. rewrite Hxy. apply IH; [assumption|].
    apply String.eqb_eq in Hxy. congruence.
Qed.

(** The remote directory is missing and its parent is there: the walk
    creates it and enters it; nothing else changes on the server. *)
Lemma upload_enter_creates now remote_dir root c bars :
  lookup (resolve [] remote_dir) root = None ->
  as_dir (lookup (removelast (resolve [] remote_dir)) root) = true ->
  exists root',
    upload_enter now remote_dir (mk_ul (mk_ftp root [] [] c) bars)
    = (mk_ul (mk_ftp root' [] [] (resolve [] remote_dir)) bars, Ok true)
    /\ lookup (resolve [] remote_dir) root' = Some (Dir now [])
    /\ (forall q, as_file (lookup q root') = as_file (lookup q root))
    /\ (forall q, q <> resolve [] remote_dir ->
                  as_dir (lookup q root') = as_dir (lookup q root)).
Proof.
  intros Hnone Hparent.
  assert (Hroot : as_dir (Some root) = true).
  { destruct root as [d0 m0|m0 es0]; [|reflexivity].
    destruct (removelast (resolve [] remote_dir)); discriminate. }
  destruct (makedirs_node_creates now _ root Hnone Hparent) as (root' & Hmk & Hl).
  exists root'. split; [|split; [exact Hl|split]].
  - unfold upload_enter, ul_on_ftp, try_except_perm, bind, ftp_cwd, ftp_mkd.
    cbn [ul_ftp ul_bars ftp_cwd_path srv_root srv_denied srv_unlistable].
    change (resolve c "/") with (@nil string). cbn [lookup path_in existsb negb].
    rewrite Hroot. cbn [andb ftp_cwd_path srv_root srv_denied srv_unlistable].
    rewrite Hnone. cbn [as_dir andb ftp_cwd_path srv_root srv_denied srv_unlistable].
    rewrite Hnone.
    destruct (lookup (removelast (resolve [] remote_dir)) root) as [[d0 m0|m0 es0]|];
      try discriminate.
    rewrite Hmk. cbn [ftp_cwd_path srv_root srv_denied srv_unlistable].
    rewrite Hl. reflexivity.
  - intros q. now destruct (makedirs_node_frame now _ _ _ Hmk q).
  - intros q Hq.
    destruct (as_dir (lookup q root)) eqn:E.
    + exact (makedirs_node_keeps_dirs now _ _ _ Hmk q E).
    + destruct (as_dir (lookup q root')) eqn:E'; [|reflexivity].
      destruct (makedirs_node_frame now _ _ _ Hmk q) as [_ Hd].
      destruct (Hd E') as [Habs | Hpre]; [congruence|].
      pose proof (is_prefix_proper _ _ Hpre Hq) as Hpre'.
      destruct (lookup (removelast (resolve [] remote_dir)) root)
        as [[d0 m0|m0 es0]|] eqn:Ep; try discriminate.
      rewrite (lookup_prefix_isdir _ _ _ _ _ Ep Hpre') in E. discriminate.
Qed.

(** X15.  The push of new files into a remote directory that does not
    exist yet, on a server that refuses nothing: when the parent of the
    remote directory is there, [upload_directory] creates the directory
    with [MKD], enters it and sends every file of the local directory
    (regular files with plain, distinct names); no file that was on the
    server changes. *)
Theorem upload_creates_the_remote_directory
  tz now m es remote_dir progress pbar st
  (Hfree : srv_denied (ul_ftp st) = [] /\ srv_unlistable (ul_ftp st) = [])
  (Hmissing : lookup (resolve [] remote_dir) (srv_root (ul_ftp st)) = None)
  (Hparent : as_dir (lookup (removelast (resolve [] remote_dir))
                            (srv_root (ul_ftp st))) = true)
  (Hlocal : forall e, In e es ->
                      plain_name (fst e) = true /\ is_dir_node (snd e) = false)
  (Hnames : names_distinct (map fst es) = true) :
  exists st',
    upload_directory tz now (Dir m es) remote_dir progress pbar st = (st', Ok tt)
    /\ ftp_cwd_path (ul_ftp st') = resolve [] remote_dir
    /\ as_dir (lookup (resolve [] remote_dir) (srv_root (ul_ftp st'))) = true
    /\ (forall name data mtime,
          In (name, File data mtime) es ->
          as_file (lookup (resolve [] remote_dir ++ [name]) (srv_root (ul_ftp st')))
          = Some (data, mfmt_time now mtime))
    /\ (forall q,
          (forall name, In name (map fst es) -> q <> resolve [] remote_dir ++ [name]) ->
          as_file (lookup q (srv_root (ul_ftp st')))
          = as_file (lookup q (srv_root (ul_ftp st)))).
Proof.
  destruct st as [[root denied unl c] bars]. destruct Hfree as [Hd Hu].
  cbn [ul_ftp srv_root srv_denied srv_unlistable] in *. subst denied unl.
  destruct (upload_enter_creates now remote_dir root c bars Hmissing Hparent)
    as (root1 & Henter & Hnew & Hfiles1 & Hdirs1).
  destruct (upload_directory_sends_entered tz now m es remote_dir progress pbar
              _ root1 _ bars now [] Henter Hnew eq_refl eq_refl)
    as (root' & bars' & Hrun & Hfiles & Hothers & Hdirs).
  { intros e He. destruct (Hlocal e He). repeat split; auto. }
  { assumption. }
  exists (mk_ul (mk_ftp root' [] [] (resolve [] remote_dir)) bars').
  split; [exact Hrun|]. cbn [ul_ftp ftp_cwd_path srv_root].
  split; [reflexivity|]. split; [now rewrite Hdirs, Hnew|].
  split; [exact Hfiles|].
  intros q Hq. now rewrite (Hothers q Hq).
Qed.

Lemma upload_creates_the_remote_directory_witness :
  exists st',
    upload_directory 0 9 Vita.local_same_file "ux0:/saves" true None
                     (mk_ul (Vita.connected []) []) = (st', Ok tt)
    /\ as_file (lookup ["ux0:"; "saves"; "top.sav"] (srv_root (ul_ftp st')))
       = Some ("T", mfmt_time 9 1704457800).
Proof.
  destruct (upload_creates_the_remote_directory 0 9 0
              [("top.sav", File "T" 1704457800)] "ux0:/saves" true None
              (mk_ul (Vita.connected []) []))
    as (st' & Hrun & _ & _ & Hfiles & _).
  - split; reflexivity.
  - reflexivity.
  - reflexivity.
  - intros e [<- | []]. split; reflexivity.
  - reflexivity.
  - exists st'. split; [exact Hrun|].
    exact (Hfiles "top.sav" "T" 1704457800 (or_introl eq_refl)).
Defined.

(** X16.  A remote directory that can be neither entered nor created is
    skipped without a word: on a server that refuses nothing, when
    [remote_dir] names no directory and [MKD] fails (something that is not
    a directory has the name, or the parent is missing),
    [upload_directory] returns normally whatever the local directory
    holds; nothing is sent, the server's tree is what it was and the
    session is left at the root. *)
Theorem upload_skips_a_directory_it_cannot_make
  tz now local remote_dir progress pbar st
  (Hfree : srv_denied (ul_ftp st) = [] /\ srv_unlistable (ul_ftp st) = [])
  (Hroot : is_dir_node (srv_root (ul_ftp st)) = true)
  (Hnodir : as_dir (lookup (resolve [] remote_dir) (srv_root (ul_ftp st))) = false)
  (Hnomkd : lookup (resolve [] remote_dir) (srv_root (ul_ftp st)) <> None
            \/ as_dir (lookup (removelast (resolve [] remote_dir))
                              (srv_root (ul_ftp st))) = false) :
  upload_directory tz now local remote_dir progress pbar st
  = (mk_ul (mk_ftp (srv_root (ul_ftp st)) [] [] []) (ul_bars st), Ok tt).
Proof.
  destruct st as [[root denied unl c] bars]. destruct Hfree as [Hd Hu].
  cbn [ul_ftp ul_bars srv_root srv_denied srv_unlistable] in *. subst denied unl.
  assert (Henter : upload_enter now remote_dir (mk_ul (mk_ftp root [] [] c) bars)
                   = (mk_ul (mk_ftp root [] [] []) bars, Ok false)).
  { unfold upload_enter, ul_on_ftp, try_except_perm, bind, ftp_cwd, ftp_mkd.
    cbn [ul_ftp ul_bars ftp_cwd_path srv_root srv_denied srv_unlistable].
    change (resolve c "/") with (@nil string). cbn [lookup path_in existsb negb].
    destruct root as [d0 m0|m0 es0]; [discriminate|].
    cbn [as_dir andb ftp_cwd_path srv_root srv_denied srv_unlistable].
    rewrite Hnodir. cbn [andb ftp_cwd_path srv_root srv_denied srv_unlistable].
    destruct (lookup (resolve [] remote_dir) (Dir m0 es0)) as [n|] eqn:E.
    - reflexivity.
    - destruct Hnomkd as [Habs | Hp]; [congruence|].
      destruct (lookup (removelast (resolve [] remote_dir)) (Dir m0 es0))
        as [[d1 m1|m1 es1]|]; try reflexivity. discriminate. }
  destruct local as [d0 m0|m0 es0]; cbn [upload_directory];
    now rewrite (bind_ok _ _ _ _ _ Henter).
Qed.

Lemma upload_skips_a_directory_it_cannot_make_witness :
  upload_directory 0 9 Vita.local_same_file "ux0:/data/saves" true None
                   (mk_ul (Vita.connected []) [])
  = (mk_ul (mk_ftp (Vita.root_with []) [] [] []) [], Ok tt).
Proof.
  apply (upload_skips_a_directory_it_cannot_make 0 9 Vita.local_same_file
           "ux0:/data/saves" true None (mk_ul (Vita.connected []) []));
    [split; reflexivity | reflexivity | reflexivity | right; reflexivity].
Defined.

(** ** A first synchronisation of two servers *)

Lemma server_lookup_set_other a b v l :
  a <> b -> server_lookup b (server_set a v l) = server_lookup b l.
Proof.
  intros Hne. induction l as [|[k w] l IH]; simpl; [reflexivity|].
  destruct (String.eqb_spec k a) as [->|Hk]; simpl.
  - destruct (String.eqb_spec a b); [contradiction | reflexivity].
  - destruct (String.eqb k b); auto.
Qed.

(** One session that pulls an empty save-data directory. *)
Lemma connect_and_download tz now n which progress address w root mr :
  server_lookup address (w_servers w) = Some (mk_server root [] []) ->
  lookup (resolve [] remote_dir) root = Some (Dir mr []) ->
  empty_tree (w_temp which w) ->
  exists m0 bars',
    with_ftp_connect address (run_download tz now (S n) which progress) w
    = (mk_world (w_temp1 (set_temp which (Some (Dir m0 [])) bars' w))
                (w_temp2 (set_temp which (Some (Dir m0 [])) bars' w))
                (w_merged w)
                (server_set address (mk_server root [] []) (w_servers w))
                bars',
       Ok tt).
Proof.
  intros Hs Hl He.
  destruct (download_of_empty_directory tz now n (w_merged w) remote_dir progress
              root [] (w_temp which w) (w_bars w) mr Hl He) as (m0 & bars' & Hdl).
  exists m0, bars'.
  unfold with_ftp_connect, ftp_connect. rewrite Hs.
  cbn [sv_root sv_denied sv_unlistable]. unfold run_download. cbn [fst snd].
  rewrite Hdl. cbn [dl_local dl_bars dl_ftp srv_root srv_denied srv_unlistable].
  destruct which; reflexivity.
Qed.

(** The merge of a staging directory that holds nothing. *)
Lemma run_merge_of_empty_staging now which progress w m0 m es :
  w_temp which w = Some (Dir m0 []) ->
  w_merged w = Some (Dir m es) ->
  exists bar,
    run_merge now which progress w
    = (mk_world (w_temp1 w) (w_temp2 w) (w_merged w) (w_servers w)
                (w_bars w ++ [bar]),
       Ok tt).
Proof.
  intros Ht Hm. destruct (merge_of_empty_staging now m0 m es progress) as [bar Hmerge].
  exists bar. unfold run_merge. now rewrite Ht, Hm, Hmerge.
Qed.

(** One session that pushes a merged folder of new files into an empty
    save-data directory. *)
Lemma connect_and_upload tz now progress address w root mr m es :
  server_lookup address (w_servers w) = Some (mk_server root [] []) ->
  lookup (resolve [] remote_dir) root = Some (Dir mr []) ->
  w_merged w = Some (Dir m es) ->
  (forall e, In e es -> plain_name (fst e) = true /\ is_dir_node (snd e) = false) ->
  names_distinct (map fst es) = true ->
  exists root' bars',
    with_ftp_connect address (run_upload tz now progress) w
    = (mk_world (w_temp1 w) (w_temp2 w) (w_merged w)
                (server_set address (mk_server root' [] []) (w_servers w)) bars',
       Ok tt)
    /\ (forall name data mtime,
          In (name, File data mtime) es ->
          as_file (lookup (resolve [] remote_dir ++ [name]) root')
          = Some (data, mfmt_time now mtime))
    /\ (forall q, as_dir (lookup q root') = as_dir (lookup q root)).
Proof.
  intros Hs Hl Hm Hlocal Hnames.
  destruct (upload_directory_sends tz now m es remote_dir progress None root
              [] (w_bars w) mr [] Hl eq_refl eq_refl)
    as (root' & bars' & Hul & Hfiles & _ & Hdirs).
  { intros e He. destruct (Hlocal e He). repeat split; auto. }
  { assumption. }
  exists root', bars'. split; [|split; assumption].
  unfold with_ftp_connect, ftp_connect. rewrite Hs.
  cbn [sv_root sv_denied sv_unlistable]. unfold run_upload, upload_tree.
  cbn [fst snd]. rewrite Hm, Hul. reflexivity.
Qed.

(** X17.  A first synchronisation of two servers.  Two servers at
    different addresses that refuse nothing and whose save-data
    directories are empty, staging directories absent or empty, a merged
    folder that holds only regular files with plain, distinct names:
    [main] returns normally, the staging directories are removed, the
    merged folder is what it was, and each of the two servers holds every
    file of the merged folder with its content and the time of its [MFMT]
    stamp. *)
Theorem main_first_sync_of_two_servers
  tz now limit address1 address2 progress w root1 root2 mr1 mr2 m es
  (Hlimit : (1 <= limit)%nat)
  (Haddresses : address1 <> address2)
  (Hserver1 : server_lookup address1 (w_servers w) = Some (mk_server root1 [] []))
  (Hserver2 : server_lookup address2 (w_servers w) = Some (mk_server root2 [] []))
  (Hremote1 : lookup (resolve [] remote_dir) root1 = Some (Dir mr1 []))
  (Hremote2 : lookup (resolve [] remote_dir) root2 = Some (Dir mr2 []))
  (Hstaging1 : empty_tree (w_temp1 w))
  (Hstaging2 : empty_tree (w_temp2 w))
  (Hmerged : w_merged w = Some (Dir m es))
  (Hlocal : forall e, In e es ->
                      plain_name (fst e) = true /\ is_dir_node (snd e) = false)
  (Hnames : names_distinct (map fst es) = true) :
  exists w' sv1 sv2,
    main tz now limit [address1; address2] progress w = (w', Ok tt)
    /\ w_temp1 w' = None /\ w_temp2 w' = None
    /\ w_merged w' = w_merged w
    /\ server_lookup address1 (w_servers w') = Some sv1
    /\ server_lookup address2 (w_servers w') = Some sv2
    /\ forall name data mtime,
         In (name, File data mtime) es ->
         as_file (lookup (resolve [] remote_dir ++ [name]) (sv_root sv1))
         = Some (data, mfmt_time now mtime)
         /\ as_file (lookup (resolve [] remote_dir ++ [name]) (sv_root sv2))
            = Some (data, mfmt_time now mtime).
Proof.
  destruct limit as [|n]; [lia|].
  destruct w as [t1 t2 mg servers bars].
  cbn [w_temp1 w_temp2 w_merged w_servers w_bars] in *. subst mg.
  (* the two pulls *)
  destruct (connect_and_download tz now n temp_dir_1 progress address1
              (mk_world t1 t2 (Some (Dir m es)) servers bars) root1 mr1
              Hserver1 Hremote1 Hstaging1) as (m1 & bars1 & Hd1).
  cbn [set_temp w_temp1 w_temp2 w_merged w_servers w_bars] in Hd1.
  set (servers1 := server_set address1 (mk_server root1 [] []) servers) in *.
  assert (Hs2 : server_lookup address2 servers1 = Some (mk_server root2 [] []))
    by (subst servers1; now rewrite server_lookup_set_other).
  destruct (connect_and_download tz now n temp_dir_2 progress address2
              (mk_world (Some (Dir m1 [])) t2 (Some (Dir m es)) servers1 bars1)
              root2 mr2 Hs2 Hremote2 Hstaging2) as (m2 & bars2 & Hd2).
  cbn [set_temp w_temp1 w_temp2 w_merged w_servers w_bars] in Hd2.
  set (servers2 := server_set address2 (mk_server root2 [] []) servers1) in *.
  (* the two merges *)
  destruct (run_merge_of_empty_staging now temp_dir_1 progress
              (mk_world (Some (Dir m1 [])) (Some (Dir m2 [])) (Some (Dir m es))
                        servers2 bars2) m1 m es eq_refl eq_refl) as (bar1 & Hm1).
  cbn [w_temp1 w_temp2 w_merged w_servers w_bars] in Hm1.
  destruct (run_merge_of_empty_staging now temp_dir_2 progress
              (mk_world (Some (Dir m1 [])) (Some (Dir m2 [])) (Some (Dir m es))
                        servers2 (bars2 ++ [bar1])) m2 m es eq_refl eq_refl)
    as (bar2 & Hm2).
  cbn [w_temp1 w_temp2 w_merged w_servers w_bars] in Hm2.
  (* the two pushes *)
  assert (Hs1' : server_lookup address1 servers2 = Some (mk_server root1 [] [])).
  { subst servers2 servers1.
    rewrite server_lookup_set_other by congruence.
    apply server_lookup_set_same. now rewrite Hserver1. }
  destruct (connect_and_upload tz now progress address1
              (mk_world (Some (Dir m1 [])) (Some (Dir m2 [])) (Some (Dir m es))
                        servers2 ((bars2 ++ [bar1]) ++ [bar2]))
              root1 mr1 m es Hs1' Hremote1 eq_refl Hlocal Hnames)
    as (root1' & bars3 & Hu1 & Hfiles1 & _).
  cbn [w_temp1 w_temp2 w_merged w_servers w_bars] in Hu1.
  set (servers3 := server_set address1 (mk_server root1' [] []) servers2) in *.
  assert (Hs2' : server_lookup address2 servers3 = Some (mk_server root2 [] [])).
  { subst servers3 servers2.
    rewrite server_lookup_set_other by assumption.
    apply server_lookup_set_same. now rewrite Hs2. }
  destruct (connect_and_upload tz now progress address2
              (mk_world (Some (Dir m1 [])) (Some (Dir m2 [])) (Some (Dir m es))
                        servers3 bars3)
              root2 mr2 m es Hs2' Hremote2 eq_refl Hlocal Hnames)
    as (root2' & bars4 & Hu2 & Hfiles2 & _).
  cbn [w_temp1 w_temp2 w_merged w_servers w_bars] in Hu2.
  set (servers4 := server_set address2 (mk_server root2' [] []) servers3) in *.
  exists (mk_world None None (Some (Dir m es)) servers4 bars4),
         (mk_server root1' [] []), (mk_server root2' [] []).
  split; [|split; [reflexivity|split; [reflexivity|split; [reflexivity|]]]].
  - unfold main.
    rewrite (bind_ok _ _ _ _ _ Hd1), (bind_ok _ _ _ _ _ Hd2),
      (bind_ok _ _ _ _ _ Hm1), (bind_ok _ _ _ _ _ Hm2),
      (bind_ok _ _ _ _ _ Hu1), (bind_ok _ _ _ _ _ Hu2).
    reflexivity.
  - cbn [w_servers sv_root]. split; [|split].
    + subst servers4 servers3.
      rewrite server_lookup_set_other by congruence.
      apply server_lookup_set_same. now rewrite Hs1'.
    + subst servers4. apply server_lookup_set_same. now rewrite Hs2'.
    + intros name data mtime Hin. split; [now apply Hfiles1 | now apply Hfiles2].
Qed.

Lemma main_first_sync_of_two_servers_witness :
  exists w' sv1 sv2,
    main 0 9 10 ["vita"; "tv"] true
         (mk_world None None (Some Vita.local_same_file)
                   [("vita", mk_server (Vita.root_with []) [] []);
                    ("tv", mk_server (Vita.root_with []) [] [])] [])
    = (w', Ok tt)
    /\ server_lookup "vita" (w_servers w') = Some sv1
    /\ server_lookup "tv" (w_servers w') = Some sv2
    /\ as_file (lookup (Vita.savedata ++ ["top.sav"]) (sv_root sv1))
       = Some ("T", mfmt_time 9 1704457800)
    /\ as_file (lookup (Vita.savedata ++ ["top.sav"]) (sv_root sv2))
       = Some ("T", mfmt_time 9 1704457800).
Proof.
  destruct (main_first_sync_of_two_servers 0 9 10 "vita" "tv" true
              (mk_world None None (Some Vita.local_same_file)
                        [("vita", mk_server (Vita.root_with []) [] []);
                         ("tv", mk_server (Vita.root_with []) [] [])] [])
              (Vita.root_with []) (Vita.root_with []) 0 0 0
              [("top.sav", File "T" 1704457800)])
    as (w' & sv1 & sv2 & Hrun & _ & _ & _ & H1 & H2 & Hfiles).
  - lia.
  - discriminate.
  - reflexivity.
  - reflexivity.
  - reflexivity.
  - reflexivity.
  - left; reflexivity.
  - left; reflexivity.
  - reflexivity.
  - intros e [<- | []]. split; reflexivity.
  - reflexivity.
  - exists w', sv1, sv2. split; [exact Hrun|]. split; [exact H1|].
    split; [exact H2|].
    exact (Hfiles "top.sav" "T" 1704457800 (or_introl eq_refl)).
Defined.

(** ** A save-data directory that lists anything *)

Lemma listing_not_empty tz root t mr res :
  lookup t root = Some (Dir mr res) ->
  (exists name, In name (map fst res) /\ listed_as name <> None) ->
  exists item details items,
    list_directory_with_details tz (mk_ftp root [] [] t)
    = (mk_ftp root [] [] t, Ok ((item, details) :: items)).
Proof.
  intros Hl (name & Hin & Hname).
  unfold list_directory_with_details, try_except_perm, bind, ftp_list, ret.
  cbn [ftp_cwd_path srv_root srv_unlistable]. rewrite Hl. cbn [path_in existsb].
  destruct (listed_as name) as [k|] eqn:Hk; [|contradiction].
  assert (Hkey : In k (dict_keys (fold_left (parse_line tz) (map list_line res) [])))
    by (apply listing_keys; right; eauto).
  destruct (fold_left (parse_line tz) (map list_line res) []) as [|[item details] items];
    [contradiction | eauto].
Qed.

(** X18.  [main] cannot get past a save-data directory that lists
    anything: with one or two servers, the first of which refuses nothing
    and has a save-data directory with at least one entry whose name has a
    word, [main] ends with [TypeError] in the first pull.  The staging
    directory it has just created is left behind, nothing is merged or
    pushed, and the server and the merged folder are what they were. *)
Theorem main_stops_at_the_first_listed_entry
  tz now limit address rest progress w root mr res
  (Hlimit : (1 <= limit)%nat)
  (Hcount : (List.length rest <= 1)%nat)
  (Hserver : server_lookup address (w_servers w) = Some (mk_server root [] []))
  (Hremote : lookup (resolve [] remote_dir) root = Some (Dir mr res))
  (Hlisted : exists name, In name (map fst res) /\ listed_as name <> None)
  (Hstaging : empty_tree (w_temp1 w)) :
  exists w' m0,
    main tz now limit (address :: rest) progress w = (w', Raise TypeError)
    /\ w_temp1 w' = Some (Dir m0 [])
    /\ w_temp2 w' = w_temp2 w
    /\ w_merged w' = w_merged w
    /\ server_lookup address (w_servers w') = Some (mk_server root [] []).
Proof.
  destruct limit as [|n]; [lia|].
  destruct (listing_not_empty tz root _ mr res Hremote Hlisted)
    as (item & details & items & Hlist).
  assert (Hmk : exists m0,
             dl_on_local (makedirs now [])
               (mk_dl (mk_ftp root [] [] []) (w_temp1 w) (w_bars w))
             = (mk_dl (mk_ftp root [] [] []) (Some (Dir m0 [])) (w_bars w), Ok tt)).
  { destruct Hstaging as [-> | [m0 ->]]; eexists; reflexivity. }
  destruct Hmk as [m0 Hmk].
  assert (Hcwd : ftp_cwd remote_dir (mk_ftp root [] [] [])
                 = (mk_ftp root [] [] (resolve [] remote_dir), Ok tt)).
  { unfold ftp_cwd. cbn [ftp_cwd_path srv_root srv_denied srv_unlistable].
    rewrite Hremote. reflexivity. }
  pose proof (download_nonempty_raises tz now n (w_merged w) remote_dir [] []
                progress None None _ _ _ _ item details items Hmk Hcwd Hlist) as Hdl.
  cbn [dl_local dl_bars] in Hdl.
  assert (Hfirst : with_ftp_connect address
                     (run_download tz now (S n) temp_dir_1 progress) w
                   = (mk_world (Some (Dir m0 [])) (w_temp2 w) (w_merged w)
                               (server_set address (mk_server root [] []) (w_servers w))
                               (w_bars w),
                      Raise TypeError)).
  { unfold with_ftp_connect, ftp_connect. rewrite Hserver.
    cbn [sv_root sv_denied sv_unlistable]. unfold run_download.
    cbn [fst snd w_temp]. rewrite Hdl. reflexivity. }
  exists (mk_world (Some (Dir m0 [])) (w_temp2 w) (w_merged w)
                   (server_set address (mk_server root [] []) (w_servers w))
                   (w_bars w)), m0.
  split; [|split; [|split; [|split]]].
  - destruct rest as [|a2 [|a3 rest]]; [| |simpl in Hcount; lia].
    + unfold main, bind at 1, with_ftp_connect, ftp_connect. rewrite Hserver.
      cbn [sv_root sv_denied sv_unlistable].
      unfold bind at 1, run_download. cbn [fst snd w_temp]. rewrite Hdl.
      reflexivity.
    + unfold main, bind at 1. rewrite Hfirst. reflexivity.
  - reflexivity.
  - reflexivity.
  - reflexivity.
  - cbn [w_servers]. apply server_lookup_set_same. congruence.
Qed.

Lemma main_stops_at_the_first_listed_entry_witness :
  exists w' m0,
    main 0 9 10 ["vita"] true (Vita.world_with Vita.one_file None)
    = (w', Raise TypeError)
    /\ w_temp1 w' = Some (Dir m0 [])
    /\ w_temp2 w' = None
    /\ w_merged w' = None
    /\ server_lookup "vita" (w_servers w')
       = Some (mk_server (Vita.root_with Vita.one_file) [] []).
Proof.
  apply (main_stops_at_the_first_listed_entry 0 9 10 "vita" [] true
           (Vita.world_with Vita.one_file None) (Vita.root_with Vita.one_file)
           0 Vita.one_file);
    [lia | simpl; lia | reflexivity | reflexivity
     | exists "top.sav"; split; [now left | discriminate] | left; reflexivity].
Defined.

(** ** [main]: the staging directories of a run that fails *)

Lemma makedirs_ok_some now p t t' : makedirs now p t = Ok t' -> t' <> None.
Proof.
  unfold makedirs. destruct t as [n|].
  - destruct (makedirs_node now p n); simpl; intros H; inversion H; discriminate.
  - intros H. inversion H. discriminate.
Qed.

Lemma makedirs_raise_some now p t e : makedirs now p t = Raise e -> t <> None.
Proof. destruct t; [discriminate | intros H; discriminate H]. Qed.

Lemma kept_on_raise_of_preserves {S A} (I : S -> Prop) (c : M S A) :
  preserves I c -> kept_on_raise I c.
Proof. intros Hc s s' e Hs Hrun. specialize (Hc s Hs). now rewrite Hrun in Hc. Qed.

Lemma kept_on_raise_bind {S A B} (I : S -> Prop) (c : M S A) (k : A -> M S B) :
  preserves I c -> (forall a, kept_on_raise I (k a)) -> kept_on_raise I (bind c k).
Proof.
  intros Hc Hk s s' e Hs. unfold bind. specialize (Hc s Hs).
  destruct (c s) as [s1 [a|e1]]; simpl in Hc.
  - apply (Hk a); assumption.
  - intros H. inversion H; subst. assumption.
Qed.

Lemma establishes_bind {S A B} (I : S -> Prop) (c : M S A) (k : A -> M S B) :
  establishes I c -> (forall a, preserves I (k a)) -> establishes I (bind c k).
Proof.
  intros Hc Hk s. unfold bind. specialize (Hc s).
  destruct (c s) as [s1 [a|e1]]; simpl in Hc; [|assumption].
  now apply Hk.
Qed.

(** The two [rmtree] never raise: a run that ends with an exception has
    not reached them. *)
Lemma remove_staging_kept_on_raise (I : world -> Prop) : kept_on_raise I remove_staging.
Proof. intros s s' e _ H. discriminate H. Qed.

Section StagingInvariant.
Variables tz now : Z.
Variable limit : nat.
Variable P : tree -> tree -> Prop.
Hypothesis P_stable : stable_under_makedirs now P.

Lemma run_download_staging which progress :
  preserves (staging_inv_inside P) (run_download tz now limit which progress).
Proof.
  intros [w f] Hinv. unfold staging_inv_inside, staging_inv, run_download in *.
  cbn [fst snd] in *.
  destruct (download_directory tz now limit (w_merged w) remote_dir [] [] progress
              None None (mk_dl f (w_temp which w) (w_bars w))) as [s' r] eqn:Hrun.
  destruct (download_directory_effects _ _ _ _ _ _ _ _ _ _ _ _ _ Hrun)
    as (Hlocal & _ & _).
  cbn [dl_local fst] in *.
  assert (Hl : dl_local s' = w_temp which w
               \/ makedirs now [] (w_temp which w) = Ok (dl_local s')).
  { destruct Hlocal as [[_ Hl] | [(e & _ & Hl) | Hmk]]; auto. }
  destruct P_stable as [P1 P2].
  destruct which; cbn [w_temp set_temp w_temp1 w_temp2] in *;
    destruct Hl as [-> | Hmk]; eauto.
Qed.

Lemma run_upload_staging progress :
  preserves (staging_inv_inside P) (run_upload tz now progress).
Proof.
  intros [w f] Hinv. unfold staging_inv_inside, run_upload in *. cbn [fst snd] in *.
  destruct (upload_tree _ _ _ _ _ _ _) as [s' r]. exact Hinv.
Qed.

Lemma run_merge_staging which progress :
  preserves (staging_inv P) (run_merge now which progress).
Proof.
  intros w Hinv. unfold run_merge.
  destruct (merge_directories now (w_temp which w) (w_merged w) progress)
    as [[t' bar] r].
  exact Hinv.
Qed.

Lemma on_world_staging {A} (c : M world A) :
  preserves (staging_inv P) c -> preserves (staging_inv_inside P) (on_world c).
Proof.
  intros Hc [w f] Hinv. unfold staging_inv_inside, on_world in *. cbn [fst snd] in *.
  specialize (Hc w Hinv). destruct (c w) as [w' r]. exact Hc.
Qed.

Lemma with_ftp_connect_staging address body :
  preserves (staging_inv_inside P) body ->
  preserves (staging_inv P) (with_ftp_connect address body).
Proof.
  intros Hb w Hinv. unfold with_ftp_connect.
  destruct (ftp_connect address w) as [ftp|e]; [|assumption].
  specialize (Hb (w, ftp) Hinv). unfold staging_inv_inside in Hb.
  destruct (body (w, ftp)) as [[w' f'] r]. exact Hb.
Qed.

(** A session with a server that answers: what its body establishes holds
    when the session is over. *)
Lemma with_ftp_connect_establishes address body w :
  server_lookup address (w_servers w) <> None ->
  establishes (staging_inv_inside P) body ->
  staging_inv P (fst (with_ftp_connect address body w)).
Proof.
  intros Hup Hb. unfold with_ftp_connect, ftp_connect.
  destruct (server_lookup address (w_servers w)) as [sv|]; [|contradiction].
  specialize (Hb (w, mk_ftp (sv_root sv) (sv_denied sv) (sv_unlistable sv) [])).
  unfold staging_inv_inside in Hb.
  destruct (body _) as [[w' f'] r]. exact Hb.
Qed.

(** [main] with two servers, from the merges on. *)
Lemma merges_and_pushes_staging s1 s2 progress :
  kept_on_raise (staging_inv P)
    (run_merge now temp_dir_1 progress ;;;
     run_merge now temp_dir_2 progress ;;;
     with_ftp_connect s1 (run_upload tz now progress) ;;;
     with_ftp_connect s2 (run_upload tz now progress) ;;;
     remove_staging).
Proof.
  apply kept_on_raise_bind; [apply run_merge_staging|intros _].
  apply kept_on_raise_bind; [apply run_merge_staging|intros _].
  apply kept_on_raise_bind; [apply with_ftp_connect_staging, run_upload_staging|intros _].
  apply kept_on_raise_bind; [apply with_ftp_connect_staging, run_upload_staging|intros _].
  apply remove_staging_kept_on_raise.
Qed.

(** [main] with two servers, from the second pull on. *)
Lemma second_pull_on_staging s1 s2 progress :
  kept_on_raise (staging_inv P)
    (with_ftp_connect s2 (run_download tz now limit temp_dir_2 progress) ;;;
     run_merge now temp_dir_1 progress ;;;
     run_merge now temp_dir_2 progress ;;;
     with_ftp_connect s1 (run_upload tz now progress) ;;;
     with_ftp_connect s2 (run_upload tz now progress) ;;;
     remove_staging).
Proof.
  apply kept_on_raise_bind;
    [apply with_ftp_connect_staging, run_download_staging|intros _].
  apply merges_and_pushes_staging.
Qed.

(** The session of [main] with one server, after the pull. *)
Lemma merge_and_push_staging progress :
  preserves (staging_inv_inside P)
    (on_world (run_merge now temp_dir_1 progress) ;;; run_upload tz now progress).
Proof.
  apply preserves_bind; [apply on_world_staging, run_merge_staging|intros _].
  apply run_upload_staging.
Qed.

(** A stable property of the staging trees that held when the run began
    holds where the run stopped with an exception. *)
Lemma main_staging_kept_on_raise ftp_servers progress :
  kept_on_raise (staging_inv P) (main tz now limit ftp_servers progress).
Proof.
  unfold main.
  destruct ftp_servers as [|s1 [|s2 [|s3 rest]]];
    try (intros w w' e _ H; discriminate H).
  - apply kept_on_raise_bind; [|intros _; apply remove_staging_kept_on_raise].
    apply with_ftp_connect_staging.
    apply preserves_bind; [apply run_download_staging|intros _].
    apply merge_and_push_staging.
  - apply kept_on_raise_bind;
      [apply with_ftp_connect_staging, run_download_staging|intros _].
    apply second_pull_on_staging.
Qed.

End StagingInvariant.

Lemma grows_stable now a b :
  stable_under_makedirs now (fun t1 t2 => tree_grows a t1 /\ tree_grows b t2).
Proof.
  split.
  - intros t1 t1' t2 Hmk [H1 H2]. split; [|assumption].
    eapply tree_grows_trans; [exact H1 | eapply makedirs_grows, Hmk].
  - intros t1 t2 t2' Hmk [H1 H2]. split; [assumption|].
    eapply tree_grows_trans; [exact H2 | eapply makedirs_grows, Hmk].
Qed.

Lemma first_there_stable now : stable_under_makedirs now (fun t1 _ => t1 <> None).
Proof.
  split.
  - intros t1 t1' t2 Hmk _. exact (makedirs_ok_some _ _ _ _ Hmk).
  - intros t1 t2 t2' _ H. exact H.
Qed.

(** A pull the interpreter lets start leaves something at its staging
    path, whatever its outcome: the directory it has made, or what kept it
    from making one. *)
Lemma run_download_makes_staging tz now n which progress wf :
  w_temp which (fst (fst (run_download tz now (S n) which progress wf))) <> None.
Proof.
  destruct wf as [w f]. unfold run_download. cbn [fst snd].
  destruct (download_directory tz now (S n) (w_merged w) remote_dir [] [] progress
              None None (mk_dl f (w_temp which w) (w_bars w))) as [s' r] eqn:Hrun.
  destruct (download_directory_effects _ _ _ _ _ _ _ _ _ _ _ _ _ Hrun)
    as (Hlocal & _ & _).
  cbn [dl_local fst] in *.
  assert (Hl : dl_local s' <> None).
  { destruct Hlocal as [[Hz _] | [(e & Hmk & Hl) | Hmk]].
    - discriminate Hz.
    - rewrite Hl. exact (makedirs_raise_some _ _ _ _ Hmk).
    - exact (makedirs_ok_some _ _ _ _ Hmk). }
  destruct which; exact Hl.
Qed.

Lemma first_pull_establishes tz now n progress :
  establishes (staging_inv_inside (fun t1 _ => t1 <> None))
    (run_download tz now (S n) temp_dir_1 progress).
Proof. intros wf. exact (run_download_makes_staging tz now n temp_dir_1 progress wf). Qed.

Lemma second_pull_establishes tz now n progress :
  establishes (staging_inv_inside (fun _ t2 => t2 <> None))
    (run_download tz now (S n) temp_dir_2 progress).
Proof. intros wf. exact (run_download_makes_staging tz now n temp_dir_2 progress wf). Qed.

Lemma server_lookup_set_some a b v l :
  server_lookup b l <> None -> server_lookup b (server_set a v l) <> None.
Proof.
  induction l as [|[k x] l IH]; simpl; [auto|].
  destruct (String.eqb k a) eqn:Ea; simpl; destruct (String.eqb k b); auto;
    discriminate.
Qed.

(** A pull changes neither the addresses that answer nor the ones that do
    not. *)
Lemma pull_session_servers tz now limit which progress s1 s2 w :
  server_lookup s2 (w_servers w) <> None ->
  server_lookup s2
    (w_servers (fst (with_ftp_connect s1 (run_download tz now limit which progress) w)))
  <> None.
Proof.
  intros Hup. unfold with_ftp_connect.
  destruct (ftp_connect s1 w) as [ftp|e]; [|exact Hup].
  unfold run_download. cbn [fst snd].
  destruct (download_directory _ _ _ _ _ _ _ _ _ _ _) as [s' r].
  cbn [fst w_servers]. apply server_lookup_set_some.
  destruct which; exact Hup.
Qed.

(** With a first server that answers, the first staging path is taken
    where the run stops with an exception. *)
Lemma main_failed_first_staging tz now n s1 rest progress w w' e :
  server_lookup s1 (w_servers w) <> None ->
  main tz now (S n) (s1 :: rest) progress w = (w', Raise e) ->
  w_temp1 w' <> None.
Proof.
  intros Hup. unfold main.
  destruct rest as [|s2 [|s3 rest]]; [| |discriminate].
  - unfold bind at 1.
    pose proof (with_ftp_connect_establishes (fun t1 _ => t1 <> None) s1
                  (run_download tz now (S n) temp_dir_1 progress ;;;
                   on_world (run_merge now temp_dir_1 progress) ;;;
                   run_upload tz now progress) w Hup) as Hest.
    destruct (with_ftp_connect s1 _ w) as [w1 [[]|e1]]; [discriminate|].
    intros H. inversion H; subst. apply Hest.
    apply establishes_bind; [apply first_pull_establishes|intros _].
    apply merge_and_push_staging.
  - unfold bind at 1.
    pose proof (with_ftp_connect_establishes (fun t1 _ => t1 <> None) s1
                  (run_download tz now (S n) temp_dir_1 progress) w Hup
                  (first_pull_establishes tz now n progress)) as Hest.
    destruct (with_ftp_connect s1 _ w) as [w1 [[]|e1]]; cbn [fst] in Hest.
    + intros H.
      exact (second_pull_on_staging tz now (S n) _ (first_there_stable now)
               s1 s2 progress w1 w' e Hest H).
    + intros H. inversion H; subst. exact Hest.
Qed.

(** With two servers, a first session that ended normally and a second
    server that answers, the second staging path is taken where the run
    stops with an exception. *)
Lemma main_failed_second_staging tz now n s1 s2 progress w w' e :
  snd (with_ftp_connect s1 (run_download tz now (S n) temp_dir_1 progress) w) = Ok tt ->
  server_lookup s2 (w_servers w) <> None ->
  main tz now (S n) [s1; s2] progress w = (w', Raise e) ->
  w_temp2 w' <> None.
Proof.
  intros Hfirst Hup. unfold main. unfold bind at 1.
  pose proof (pull_session_servers tz now (S n) temp_dir_1 progress s1 s2 w Hup) as Hup1.
  destruct (with_ftp_connect s1 _ w) as [w1 r1]. cbn [fst snd] in *. subst r1.
  unfold bind at 1.
  pose proof (with_ftp_connect_establishes (fun _ t2 => t2 <> None) s2
                (run_download tz now (S n) temp_dir_2 progress) w1 Hup1
                (second_pull_establishes tz now n progress)) as Hest.
  destruct (with_ftp_connect s2 _ w1) as [w2 [[]|e2]]; cbn [fst] in Hest.
  - intros H.
    exact (merges_and_pushes_staging tz now _ s1 s2 progress w2 w' e Hest H).
  - intros H. inversion H; subst. exact Hest.
Qed.


